(** * pg-migrations: the reconciliation engine, its script locator and its
      persistence gateway, embedded in Rocq.

    The development follows the TypeScript sources of the strict engine:
      - [src/fs/fsClient.ts]                  (FsClient, the script locator),
      - [src/database]                        (DatabaseClient, the gateway),
      - [src/logger/loggerClient.ts]          (LoggerClient),
      - [src/migration/pgMigrationClient.ts]  (PgMigrationClient, the engine;
                                               [init] returns the readiness
                                               that [startMigration] takes as
                                               an argument),
      - [src/index.ts]                        ([test]: [init], then a run).
    The earlier engine of the repository, which compares fingerprints only,
    and its locator are embedded in the module [Earlier].

    Asynchronous code is sequential here (every call is awaited), so a method
    is a function in a state-and-exception monad.  The state holds the state
    of the connection pool, the messages handed to the logger, and a ghost
    trace of the calls made on the pool.  The pool, the file system and the
    md5 digest are external collaborators: the code is parametric in them.

    Layout: the JavaScript values and the data model; the code; a reference
    database to run the engine against; the vocabulary of the statements and
    the concrete runs; then the facts, gateway first, runs last, followed
    by further facts about the same code, about [init] and about the
    earlier engine. *)

From Stdlib Require Import ZArith List String Ascii Bool Lia DecimalString.
From Stdlib Require Import DecimalPos.
From Stdlib Require Import Sorting.Permutation Sorting.Sorted.
Import ListNotations.

Local Open Scope string_scope.
Local Open Scope Z_scope.

(* ================================================================== *)
(** ** JavaScript values used by the engine *)

(** A JavaScript number as the engine uses it: an integer or NaN.  The
    embedding is exact for integers of magnitude below 2^53, where IEEE
    doubles are ([Number.isSafeInteger]); from 2^53 on JavaScript rounds
    where [Z] does not, so a statement that rests on the value of an id, on
    a difference of ids or on the id printed in a message carries that
    bound as a hypothesis ([isSafeInteger] below).  [-0] is
    identified with [0] (the engine only subtracts numbers and compares the
    difference with 1). *)
Inductive JsNumber : Type :=
| NaN
| Num (z : Z).

Definition js_sub (a b : JsNumber) : JsNumber :=
  match a, b with
  | Num x, Num y => Num (x - y)
  | _, _ => NaN
  end.

Definition js_add (a b : JsNumber) : JsNumber :=
  match a, b with
  | Num x, Num y => Num (x + y)
  | _, _ => NaN
  end.

(** [a !== 1] on numbers: NaN is different from everything. *)
Definition js_strict_neq_1 (a : JsNumber) : bool :=
  match a with
  | Num z => negb (z =? 1)
  | NaN => true
  end.

Definition string_of_Z (z : Z) : string := NilZero.string_of_int (Z.to_int z).

(** Template-literal conversion of a number. *)
Definition js_to_string (a : JsNumber) : string :=
  match a with
  | Num z => string_of_Z z
  | NaN => "NaN"
  end.

(** An exception value: [new Error(message)], or the TypeError the runtime
    raises when a property of [undefined] is read. *)
Inductive Exn : Type :=
| Error (message : string)
| TypeError (message : string).

Definition message (e : Exn) : string :=
  match e with
  | Error m => m
  | TypeError m => m
  end.

(* ------------------------------------------------------------------ *)
(** *** Strings *)

Definition is_delimiter (c : ascii) : bool :=
  (Ascii.eqb c "_" || Ascii.eqb c "-")%bool.

(** [filename.search('[_-]')]: the index of the first [_] or [-], or -1. *)
Fixpoint search_from (s : string) (i : Z) : Z :=
  match s with
  | EmptyString => -1
  | String c s' => if is_delimiter c then i else search_from s' (i + 1)
  end.

Definition search_delimiter (s : string) : Z := search_from s 0.

(** [s.substring(0, n)] for [0 <= n]. *)
Definition substring_to (n : Z) (s : string) : string :=
  String.substring 0 (Z.to_nat n) s.

(** [data.startsWith(p)]. *)
Definition startsWith (p data : string) : bool := String.prefix p data.

(** White space skipped by [parseInt]: the ASCII part of StrWhiteSpaceChar
    (TAB, LF, VT, FF, CR, SP).  A prefix that starts with white space
    outside ASCII (U+00A0, U+FEFF, ...) is read as NaN here where JavaScript
    skips it; where [parseInt] gives a number here, JavaScript reads the
    same digits. *)
Definition is_js_whitespace (c : ascii) : bool :=
  let n := nat_of_ascii c in
  ((9 <=? n) && (n <=? 13) || (n =? 32))%nat%bool.

Fixpoint trim_start (s : string) : string :=
  match s with
  | String c s' => if is_js_whitespace c then trim_start s' else s
  | EmptyString => EmptyString
  end.

(** The value of a character as a digit of the given radix (10 or 16). *)
Definition digit_value (radix : Z) (c : ascii) : option Z :=
  let n := Z.of_nat (nat_of_ascii c) in
  if (48 <=? n) && (n <=? 57) then Some (n - 48)
  else if (radix =? 16) && (97 <=? n) && (n <=? 102) then Some (n - 87)
  else if (radix =? 16) && (65 <=? n) && (n <=? 70) then Some (n - 55)
  else None.

(** The longest prefix of digits, read in [radix]: [None] when it is empty. *)
Fixpoint parse_digits (radix : Z) (s : string) (acc : option Z) : option Z :=
  match s with
  | EmptyString => acc
  | String c s' =>
      match digit_value radix c with
      | Some d =>
          parse_digits radix s'
            (Some (match acc with Some a => a * radix + d | None => d end))
      | None => acc
      end
  end.

(** [Number.parseInt(s)] with no radix (ECMAScript parseInt): leading white
    space and a sign are skipped, a [0x]/[0X] prefix selects radix 16, the
    longest prefix of digits is read, and the result is NaN when there is no
    digit.  It never throws.  The digits are accumulated in [Z]: the result
    is the number JavaScript gives when it is below 2^53. *)
Definition parseInt (input : string) : JsNumber :=
  let s := trim_start input in
  let '(sign, s) :=
    match s with
    | String "-" s' => (-1, s')
    | String "+" s' => (1, s')
    | _ => (1, s)
    end in
  let '(radix, s) :=
    match s with
    | String "0" (String "x" s') => (16, s')
    | String "0" (String "X" s') => (16, s')
    | _ => (10, s)
    end in
  match parse_digits radix s None with
  | Some v => Num (sign * v)
  | None => NaN
  end.

(* ================================================================== *)
(** ** Data model *)

(** [MigrationItem] (src/fs): a script read from the directory. *)
Module MigrationItem.
Record t : Type := mk {
  id : JsNumber;
  filename : string;
  data : string;
  hash : string
}.
End MigrationItem.

(** [MigrationEntry] (src/migration): a row of the [migrations] table.  The
    driver hands the BIGSERIAL [id] over as a decimal string, which the
    engine's subtraction converts back to a number; [id] is that number.
    [hash] is [None] for SQL NULL. *)
Module MigrationEntry.
Record t : Type := mk {
  id : Z;
  filename : string;
  timestamp : Z;
  hash : option string
}.
End MigrationEntry.

(** [QueryResult<R>] of the driver, as far as the engine reads it. *)
Record QueryResult : Type := { rows : list MigrationEntry.t }.

(** [ExecutionResult<T>] (src/database/types.ts). *)
Record ExecutionResult : Type := {
  isSuccess : bool;
  result : option QueryResult;
  error : option string
}.

(* ================================================================== *)
(** ** The world: pool state, logger output, trace of pool calls *)

Inductive LogEntry : Type :=
| LogInfo (msg : string)
| LogError (msg : string).

(** Calls the gateway makes on the driver, in the order they are made. *)
Inductive PoolCall : Type :=
| PoolQuery (statement : string) (params : list string)
| PoolConnect
| ClientQuery (statement : string)
| ClientRelease.

Inductive Res (A : Type) : Type :=
| Ok (a : A)
| Throw (e : Exn).
Arguments Ok {A} a.
Arguments Throw {A} e.

(** The driver ([pg]'s Pool and PoolClient) over a state [W]: each call
    resolves with a result or rejects with an error, and changes the state.
    [params] is [[]] where the code passes none. *)
Record Pool (W : Type) : Type := {
  pool_query : string -> list string -> W -> Res QueryResult * W;
  pool_connect : W -> Res unit * W;
  client_query : string -> W -> Res QueryResult * W;
  client_release : W -> W
}.
Arguments pool_query {W} _ _ _ _.
Arguments pool_connect {W} _ _.
Arguments client_query {W} _ _ _.
Arguments client_release {W} _ _.

Record World (W : Type) : Type := mkWorld {
  w_pool : W;
  w_log : list LogEntry;
  w_calls : list PoolCall
}.
Arguments mkWorld {W} _ _ _.
Arguments w_pool {W} _.
Arguments w_log {W} _.
Arguments w_calls {W} _.

(** The file system as the locator reads it: [fs.readdir] and
    [fs.readFile(path, 'utf-8')], each a result or an error. *)
Record Fs : Type := {
  readDir : string -> Res (list string);
  readFile : string -> Res string
}.

(** [path.join(dirName, filename)] for a directory path with no trailing
    separator and a plain file name. *)
Definition path_join (dirName filename : string) : string :=
  dirName ++ "/" ++ filename.

(* ------------------------------------------------------------------ *)
(** *** The monad *)

Definition M (W A : Type) : Type := World W -> Res A * World W.

Definition ret {W A} (a : A) : M W A := fun w => (Ok a, w).

Definition bind {W A B} (c : M W A) (k : A -> M W B) : M W B :=
  fun w =>
    match c w with
    | (Ok a, w') => k a w'
    | (Throw e, w') => (Throw e, w')
    end.

Definition throw {W A} (e : Exn) : M W A := fun w => (Throw e, w).

(** [try { c } catch (error) { h error }]. *)
Definition try_catch {W A} (c : M W A) (h : Exn -> M W A) : M W A :=
  fun w =>
    match c w with
    | (Ok a, w') => (Ok a, w')
    | (Throw e, w') => h e w'
    end.

(** [try { c } finally { f }] where [f] does not throw: [f] runs on every
    exit of [c], and the outcome of [c] stands. *)
Definition try_finally {W A} (c : M W A) (f : World W -> World W) : M W A :=
  fun w => let '(r, w') := c w in (r, f w').

(** A result or an error of a pure collaborator. *)
Definition lift {W A} (r : Res A) : M W A := fun w => (r, w).

Declare Scope monad_scope.
Delimit Scope monad_scope with monad.
Notation "x <- c1 ;; c2" := (bind c1 (fun x => c2))
  (at level 61, c1 at next level, right associativity) : monad_scope.
Notation "c1 ;; c2" := (bind c1 (fun _ => c2))
  (at level 61, right associativity) : monad_scope.
Local Open Scope monad_scope.

(* ================================================================== *)
(** ** The code *)

Section Code.

Variable W : Type.
(** [config.pool]. *)
Variable pool : Pool W.
(** [crypto.createHash('md5').update(a).update(b).digest('hex')] is
    [md5hex (a ++ b)]. *)
Variable md5hex : string -> string.
Variable fs : Fs.
(** [config.migrationsPath]. *)
Variable migrationPath : string.

Local Abbreviation M := (M W).

(* ---------------------------------------------------------------- *)
(** *** LoggerClient (src/logger/loggerClient.ts), with a logger
    configured: the log is the list of messages handed to it. *)

Definition log_append (e : LogEntry) : M unit :=
  fun w => (Ok tt, mkWorld (w_pool w) (w_log w ++ [e]) (w_calls w)).

Definition logger_info (msg : string) : M unit := log_append (LogInfo msg).

(** [debug] forwards to [logger.info]. *)
Definition logger_debug (msg : string) : M unit := log_append (LogInfo msg).

Definition logger_error (msg : string) (error : option Exn) : M unit :=
  log_append
    (LogError
       (msg ++ match error with
               | Some e => ", cause: " ++ message e
               | None => ""
               end)).

(* ---------------------------------------------------------------- *)
(** *** FsClient (src/fs/fsClient.ts) *)

Definition createMigrationItem (dirName filename : string)
  : M MigrationItem.t :=
  let filePath := path_join dirName filename in
  let delimiterIndex := search_delimiter filename in
  if delimiterIndex <? 1 then
    throw (Error "Filename pattern invalid. Can not find delimiter _ or -. Pattern <id><delimiter><filename>.sql")
  else
    let idValue := substring_to delimiterIndex filename in
    id <- try_catch (ret (parseInt idValue))
            (fun _ =>
               throw (Error ("Filename pattern invalid. Can not parse ID. Expected number but got "
                             ++ idValue ++ ". Pattern <id><delimiter><filename>.sql"))) ;;
    data <- lift (readFile fs filePath) ;;
    let hash := md5hex (filename ++ data) in
    ret (MigrationItem.mk id filename data hash).

(** The body of [for (const file of files)]. *)
Fixpoint collectMigrationItems (dirPath : string) (files : list string)
  (result : list MigrationItem.t) : M (list MigrationItem.t) :=
  match files with
  | [] => ret result
  | file :: files' =>
      migrationItem <- createMigrationItem dirPath file ;;
      collectMigrationItems dirPath files' (result ++ [migrationItem])
  end.

Definition findMigrationScripts (dirPath : string)
  : M (list MigrationItem.t) :=
  logger_debug ("Searching for migration scripts in the directory started, dir=" ++ dirPath) ;;
  result <- try_catch
              (files <- lift (readDir fs dirPath) ;;
               collectMigrationItems dirPath files [])
              (fun error =>
                 logger_error "Unable to find migration scripts" None ;;
                 throw error) ;;
  logger_debug ("Search for migration scripts in the directory completed successfully, found "
                ++ string_of_Z (Z.of_nat (List.length result)) ++ " script(-s)") ;;
  ret result.

(* ---------------------------------------------------------------- *)
(** *** DatabaseClient (the persistence gateway) *)

Definition poolQuery (statement : string) (params : list string)
  : M QueryResult :=
  fun w =>
    let '(r, p) := pool_query pool statement params (w_pool w) in
    (r, mkWorld p (w_log w) (w_calls w ++ [PoolQuery statement params])).

Definition poolConnect : M unit :=
  fun w =>
    let '(r, p) := pool_connect pool (w_pool w) in
    (r, mkWorld p (w_log w) (w_calls w ++ [PoolConnect])).

Definition clientQuery (statement : string) : M QueryResult :=
  fun w =>
    let '(r, p) := client_query pool statement (w_pool w) in
    (r, mkWorld p (w_log w) (w_calls w ++ [ClientQuery statement])).

Definition clientRelease (w : World W) : World W :=
  mkWorld (client_release pool (w_pool w)) (w_log w)
    (w_calls w ++ [ClientRelease]).

Definition toSuccess (queryResult : QueryResult) : ExecutionResult :=
  {| isSuccess := true; result := Some queryResult; error := None |}.

Definition toError (e : Exn) : ExecutionResult :=
  {| isSuccess := false; result := None; error := Some (message e) |}.

Definition execute (statement : string) (params : list string)
  : M ExecutionResult :=
  try_catch
    (queryResult <- poolQuery statement params ;;
     ret (toSuccess queryResult))
    (fun error => ret (toError error)).

Definition executeInTransaction (statement : string) : M ExecutionResult :=
  poolConnect ;;
  try_finally
    (try_catch
       (logger_debug "Statement execution started" ;;
        clientQuery "START TRANSACTION" ;;
        queryResult <- clientQuery statement ;;
        clientQuery "COMMIT" ;;
        logger_debug "The Statement was executed successfully" ;;
        ret (toSuccess queryResult))
       (fun error =>
          clientQuery "ROLLBACK" ;;
          logger_error "Statement execution failed" (Some error) ;;
          ret (toError error)))
    clientRelease.

(* ---------------------------------------------------------------- *)
(** *** PgMigrationClient (src/migration/pgMigrationClient.ts) *)

Definition INSERT_MIGRATION_QUERY : string :=
  "INSERT INTO migrations (filename, hash) VALUES ($1, $2)".
Definition SELECT_EXISTING_MIGRATIONS : string :=
  "SELECT * FROM migrations ORDER BY id".
Definition UPDATE_MIGRATION_ROW_HASH : string :=
  "UPDATE migrations SET hash = $1 WHERE filename = $2".

Definition checkClientInitialisation (initialized : bool) : M unit :=
  if negb initialized then
    throw (Error "PgMigrationClient should be initialized before use")
  else ret tt.

(** The comparator of [migrationScripts.sort]. *)
Definition compareIds (left right : MigrationItem.t) : JsNumber :=
  js_sub (MigrationItem.id left) (MigrationItem.id right).

Definition js_positive (a : JsNumber) : bool :=
  match a with
  | Num z => 0 <? z
  | NaN => false
  end.

(** [Array.prototype.sort] with that comparator, as a stable insertion
    sort: an element goes before the first one it does not compare
    greater than.  With numeric ids the comparator is consistent and
    every stable sort gives this list.  With a NaN among the ids the
    comparator is not consistent and ECMAScript leaves the order to the
    implementation: the statements that rest on the order of the sorted
    scripts take ids that are numbers. *)
Fixpoint insertScript (x : MigrationItem.t) (l : list MigrationItem.t)
  : list MigrationItem.t :=
  match l with
  | [] => [x]
  | y :: l' =>
      if js_positive (compareIds x y) then y :: insertScript x l'
      else x :: l
  end.

Definition sortScripts (l : list MigrationItem.t) : list MigrationItem.t :=
  fold_right insertScript [] l.

(** The body of [migrationScripts.forEach]; [currentId] is [None] while
    the variable is still undefined. *)
Fixpoint checkIdsSequence (scripts : list MigrationItem.t)
  (currentId : option JsNumber) : M unit :=
  match scripts with
  | [] => ret tt
  | script :: scripts' =>
      if match currentId with
         | Some c => js_strict_neq_1 (js_sub (MigrationItem.id script) c)
         | None => false
         end
      then
        throw (Error ("Invalid script IDs sequence for filename "
                      ++ MigrationItem.filename script))
      else checkIdsSequence scripts' (Some (MigrationItem.id script))
  end.

Definition getMigrationsScripts : M (list MigrationItem.t) :=
  migrationScripts <- findMigrationScripts migrationPath ;;
  let migrationScripts := sortScripts migrationScripts in
  checkIdsSequence migrationScripts None ;;
  ret migrationScripts.

Definition doExecuteQuery (statement : string) : M (option QueryResult) :=
  executionResult <- execute statement [] ;;
  if isSuccess executionResult then ret (result executionResult)
  else
    throw (Error (match error executionResult with
                  | Some m => m
                  | None => ""
                  end)).

Definition getPersistedMigrations : M (list MigrationEntry.t) :=
  queryResult <- doExecuteQuery SELECT_EXISTING_MIGRATIONS ;;
  ret (match queryResult with Some q => rows q | None => [] end).

Definition validateScriptId (migrationScript : MigrationItem.t)
  (lastMigrationEntryId : JsNumber) : M unit :=
  if js_strict_neq_1
       (js_sub (MigrationItem.id migrationScript) lastMigrationEntryId)
  then
    throw (Error ("Invalid script ID for filename "
                  ++ MigrationItem.filename migrationScript
                  ++ ", expected ID="
                  ++ js_to_string (js_add lastMigrationEntryId (Num 1))))
  else ret tt.

Definition addMigrationEntry (migrationResult : ExecutionResult)
  (filename hash : string) : M unit :=
  if isSuccess migrationResult then
    execute INSERT_MIGRATION_QUERY [filename; hash] ;;
    ret tt
  else
    throw (Error (match error migrationResult with
                  | Some m => m
                  | None => ""
                  end)).

Definition executeMigrationScript (migrationScript : MigrationItem.t)
  : M unit :=
  let filename := MigrationItem.filename migrationScript in
  let data := MigrationItem.data migrationScript in
  let hash := MigrationItem.hash migrationScript in
  try_catch
    (let useAutocommit := startsWith "--AUTOCOMMIT" data in
     migrationResult <-
       (if useAutocommit then
          logger_info "Execute migration script without transaction block" ;;
          execute data []
        else executeInTransaction data) ;;
     addMigrationEntry migrationResult filename hash ;;
     logger_info ("Script " ++ filename ++ " complete successfully"))
    (fun error =>
       logger_error ("Unable to execute script " ++ filename) (Some error) ;;
       throw error).

Definition updateScriptHash (migrationScript : MigrationItem.t)
  (entryHash : option string) : M unit :=
  match entryHash with
  | None =>
      execute UPDATE_MIGRATION_ROW_HASH
        [MigrationItem.hash migrationScript;
         MigrationItem.filename migrationScript] ;;
      ret tt
  | Some h =>
      if negb (h =? MigrationItem.hash migrationScript)%string then
        throw (Error ("For migration script '"
                      ++ MigrationItem.filename migrationScript
                      ++ "' was modify that not allowed"))
      else ret tt
  end.

(** [migrationEntries.find((entry) => entry.filename === name)]. *)
Definition findEntry (migrationEntries : list MigrationEntry.t)
  (name : string) : option MigrationEntry.t :=
  find (fun entry => (MigrationEntry.filename entry =? name)%string)
    migrationEntries.

(** The [for (const migrationScript of migrationScripts)] loop of
    [doMigration], with its two mutable variables as arguments; it
    returns their final values. *)
Fixpoint migrateScripts (migrationEntries : list MigrationEntry.t)
  (migrationScripts : list MigrationItem.t)
  (lastMigrationEntryId : JsNumber)
  (missedMigrationScripts : list MigrationItem.t)
  : M (JsNumber * list MigrationItem.t) :=
  match migrationScripts with
  | [] => ret (lastMigrationEntryId, missedMigrationScripts)
  | migrationScript :: rest =>
      match findEntry migrationEntries
              (MigrationItem.filename migrationScript) with
      | None =>
          let missed := (missedMigrationScripts ++ [migrationScript])%list in
          validateScriptId migrationScript lastMigrationEntryId ;;
          executeMigrationScript migrationScript ;;
          migrateScripts migrationEntries rest
            (MigrationItem.id migrationScript) missed
      | Some migrationEntry =>
          updateScriptHash migrationScript
            (MigrationEntry.hash migrationEntry) ;;
          migrateScripts migrationEntries rest lastMigrationEntryId
            missedMigrationScripts
      end
  end.

(** [migrationEntries[migrationEntries.length - 1].id]: reading [id] of
    [undefined] raises a TypeError when the array is empty. *)
Definition lastEntryId (migrationEntries : list MigrationEntry.t)
  : M JsNumber :=
  match List.last (map Some migrationEntries) None with
  | Some entry => ret (Num (MigrationEntry.id entry))
  | None =>
      throw (TypeError "Cannot read properties of undefined (reading 'id')")
  end.

Definition doMigration (migrationScripts : list MigrationItem.t) : M unit :=
  migrationEntries <- getPersistedMigrations ;;
  lastMigrationEntryId <- lastEntryId migrationEntries ;;
  final <- migrateScripts migrationEntries migrationScripts
             lastMigrationEntryId [] ;;
  if (List.length (snd final) =? 0)%nat then
    logger_info "All migration scripts already applied"
  else ret tt.

Definition startMigration (initialized : bool) : M unit :=
  try_catch
    (logger_info "Start database migration" ;;
     checkClientInitialisation initialized ;;
     migrationScripts <- getMigrationsScripts ;;
     (if (List.length migrationScripts =? 0)%nat then
        logger_info ("Migration scripts not found, path=" ++ migrationPath)
      else doMigration migrationScripts) ;;
     logger_info "Database migration complete successfully")
    (fun error =>
       logger_error "Unable to complete database migration" (Some error)).

End Code.

Arguments log_append {W} e w.
Arguments logger_info {W} msg w.
Arguments logger_debug {W} msg w.
Arguments logger_error {W} msg error w.
Arguments createMigrationItem {W} md5hex fs dirName filename w.
Arguments collectMigrationItems {W} md5hex fs dirPath files result w.
Arguments findMigrationScripts {W} md5hex fs dirPath w.
Arguments poolQuery {W} pool statement params w.
Arguments poolConnect {W} pool w.
Arguments clientQuery {W} pool statement w.
Arguments clientRelease {W} pool w.
Arguments execute {W} pool statement params w.
Arguments executeInTransaction {W} pool statement w.
Arguments checkClientInitialisation {W} initialized w.
Arguments checkIdsSequence {W} scripts currentId w.
Arguments getMigrationsScripts {W} md5hex fs migrationPath w.
Arguments doExecuteQuery {W} pool statement w.
Arguments getPersistedMigrations {W} pool w.
Arguments validateScriptId {W} migrationScript lastMigrationEntryId w.
Arguments addMigrationEntry {W} pool migrationResult filename hash w.
Arguments executeMigrationScript {W} pool migrationScript w.
Arguments updateScriptHash {W} pool migrationScript entryHash w.
Arguments migrateScripts {W} pool migrationEntries migrationScripts
  lastMigrationEntryId missedMigrationScripts w.
Arguments lastEntryId {W} migrationEntries w.
Arguments doMigration {W} pool migrationScripts w.
Arguments startMigration {W} pool md5hex fs migrationPath initialized w.

(* ================================================================== *)
(** ** Initialisation of the engine

    [init] (src/migration/pgMigrationClient.ts) and the caller of
    src/index.ts that runs [init] and then [startMigration].  [init] reads
    the answer to [MIGRATIONS_TABLE_EXISTS] at the row type [TableExist]:
    the driver's [pool.query] is generic in the row type, [queryExists] is
    its instance at that type. *)

(** [interface TableExist { exists: boolean }]. *)
Record TableExist : Type := { tableExists : bool }.

(** [QueryResult<TableExist>] and [ExecutionResult<TableExist>]. *)
Record ExistQueryResult : Type := { existRows : list TableExist }.

Record ExistExecutionResult : Type := {
  existIsSuccess : bool;
  existResult : option ExistQueryResult;
  existError : option string
}.

Definition CREATE_MIGRATIONS_TABLE : string :=
  "CREATE TABLE migrations
                                 (
                                     id        BIGSERIAL PRIMARY KEY,
                                     filename  VARCHAR(255) NOT NULL UNIQUE,
                                     timestamp TIMESTAMP    NOT NULL DEFAULT now(),
                                     hash      VARCHAR(32)
                                 );".
Definition MIGRATIONS_TABLE_EXISTS : string :=
  "SELECT EXISTS(SELECT 1 FROM pg_tables WHERE tablename = 'migrations')".
Definition INSERT_MIGRATION_INIT_QUERY : string :=
  "INSERT INTO migrations (id, filename) VALUES (0, $1)".

Section Initialisation.

Variable W : Type.
Variable pool : Pool W.
(** [pool.query<TableExist>]. *)
Variable queryExists : string -> list string -> W -> Res ExistQueryResult * W.
Variable md5hex : string -> string.
Variable fs : Fs.

Local Abbreviation M := (M W).

Definition poolQueryExists (statement : string) (params : list string)
  : M ExistQueryResult :=
  fun w =>
    let '(r, p) := queryExists statement params (w_pool w) in
    (r, mkWorld p (w_log w) (w_calls w ++ [PoolQuery statement params])).

(** [execute<TableExist>] and [doExecuteQuery<TableExist>]. *)
Definition executeExists (statement : string) (params : list string)
  : M ExistExecutionResult :=
  try_catch
    (queryResult <- poolQueryExists statement params ;;
     ret {| existIsSuccess := true; existResult := Some queryResult;
            existError := None |})
    (fun error =>
       ret {| existIsSuccess := false; existResult := None;
              existError := Some (message error) |}).

Definition doExecuteQueryExists (statement : string)
  : M (option ExistQueryResult) :=
  executionResult <- executeExists statement [] ;;
  if existIsSuccess executionResult then ret (existResult executionResult)
  else
    throw (Error (match existError executionResult with
                  | Some m => m
                  | None => ""
                  end)).

(** [migrationsTableExist?.rows[0].exists], as the condition of the [if]
    reads it: [undefined] is falsy, and reading [exists] of a row that is
    not there raises a TypeError. *)
Definition firstRowExists (migrationsTableExist : option ExistQueryResult)
  : M bool :=
  match migrationsTableExist with
  | None => ret false
  | Some queryResult =>
      match existRows queryResult with
      | row :: _ => ret (tableExists row)
      | [] =>
          throw (TypeError "Cannot read properties of undefined (reading 'exists')")
      end
  end.

(** [init]; the value returned is the one the call leaves in
    [this.initialized] (every path assigns it). *)
Definition init : M bool :=
  try_catch
    (logger_info "Start initializing PgMigrationClient" ;;
     migrationsTableExist <- doExecuteQueryExists MIGRATIONS_TABLE_EXISTS ;;
     isMigrationsTableExist <- firstRowExists migrationsTableExist ;;
     logger_info "Check migrations table" ;;
     if isMigrationsTableExist then
       logger_info "Migrations table already exist" ;;
       ret true
     else
       logger_info "Unable to find migrations table" ;;
       doExecuteQuery pool CREATE_MIGRATIONS_TABLE ;;
       execute pool INSERT_MIGRATION_INIT_QUERY
         ["PgMigrationClient initialized"] ;;
       logger_info "Migrations table successfully created" ;;
       logger_info "PgMigrationClient successfully initialized" ;;
       ret true)
    (fun error =>
       logger_error "Unable to start PgMigrationClient" (Some error) ;;
       ret false).

(** [test] of src/index.ts: a client over the configured pool and the
    directory [test/sql], initialised and then run. *)
Definition test : M unit :=
  initialized <- init ;;
  startMigration pool md5hex fs "test/sql" initialized.

End Initialisation.

Arguments poolQueryExists {W} queryExists statement params w.
Arguments executeExists {W} queryExists statement params w.
Arguments doExecuteQueryExists {W} queryExists statement w.
Arguments firstRowExists {W} migrationsTableExist w.
Arguments init {W} pool queryExists w.
Arguments test {W} pool queryExists md5hex fs w.

(* ================================================================== *)
(** ** The earlier engine

    The engine and the locator as the repository has them in an earlier
    state (src/unnamed/part_001 and src/unnamed/part_000), over the same
    gateway and logger.  A script has no id there: the run takes the
    scripts in the order of the listing and applies those whose fingerprint
    is in no row of the history. *)

Module Earlier.

(** [MigrationItem] as the earlier locator builds it. *)
Record MigrationItem : Type := mkItem {
  filename : string;
  data : string;
  hash : string
}.

Definition CREATE_MIGRATIONS_TABLE : string :=
  "CREATE TABLE migrations
                                 (
                                     id        BIGSERIAL PRIMARY KEY,
                                     filename  VARCHAR(255) NOT NULL UNIQUE,
                                     timestamp TIMESTAMP    NOT NULL DEFAULT now(),
                                     hash      VARCHAR(32)  NOT NULL
                                 );".
Definition INSERT_MIGRATION_INIT_QUERY : string :=
  "INSERT INTO migrations (id, filename, hash) VALUES (0, $1, $2)".
Definition SELECT_EXISTING_MIGRATIONS : string := "SELECT * FROM migrations".

Section Code.

Variable W : Type.
Variable pool : Pool W.
Variable queryExists : string -> list string -> W -> Res ExistQueryResult * W.
Variable md5hex : string -> string.
Variable fs : Fs.
Variable migrationPath : string.

Local Abbreviation M := (M W).

(* ---------------------------------------------------------------- *)
(** *** FsClient (src/unnamed/part_000) *)

Definition createMigrationItem (dirName filename : string)
  : M MigrationItem :=
  let filePath := path_join dirName filename in
  data <- lift (readFile fs filePath) ;;
  let hash := md5hex (filename ++ data) in
  ret (mkItem filename data hash).

Fixpoint collectMigrationItems (dirPath : string) (files : list string)
  (result : list MigrationItem) : M (list MigrationItem) :=
  match files with
  | [] => ret result
  | file :: files' =>
      migrationItem <- createMigrationItem dirPath file ;;
      collectMigrationItems dirPath files' (result ++ [migrationItem])
  end.

Definition findMigrationScripts (dirPath : string)
  : M (list MigrationItem) :=
  logger_debug ("Searching for migration scripts in the directory started, dir=" ++ dirPath) ;;
  result <- try_catch
              (files <- lift (readDir fs dirPath) ;;
               collectMigrationItems dirPath files [])
              (fun error =>
                 logger_error "Unable to find migration scripts" None ;;
                 throw error) ;;
  logger_debug ("Search for migration scripts in the directory completed successfully, found "
                ++ string_of_Z (Z.of_nat (List.length result)) ++ " script(-s)") ;;
  ret result.

(* ---------------------------------------------------------------- *)
(** *** PgMigrationClient (src/unnamed/part_001); [doExecuteQuery] and
    [checkClientInitialisation] are those of the later engine, word for
    word. *)

Definition init : M bool :=
  try_catch
    (logger_info "Start initializing PgMigrationClient" ;;
     migrationsTableExist <- doExecuteQueryExists queryExists
                               MIGRATIONS_TABLE_EXISTS ;;
     isMigrationsTableExist <- firstRowExists migrationsTableExist ;;
     logger_info "Check migrations table" ;;
     if isMigrationsTableExist then
       logger_info "migrations table already exist" ;;
       ret true
     else
       logger_info "Unable to find migrations table" ;;
       execute pool CREATE_MIGRATIONS_TABLE [] ;;
       execute pool INSERT_MIGRATION_INIT_QUERY
         ["PgMigrationClient initialized"; "0"] ;;
       logger_info "Migrations table successfully created" ;;
       logger_info "PgMigrationClient successfully initialized" ;;
       ret true)
    (fun error =>
       logger_error "Unable to start PgMigrationClient" (Some error) ;;
       ret false).

Definition getPersistedMigrations : M (list MigrationEntry.t) :=
  queryResult <- doExecuteQuery pool SELECT_EXISTING_MIGRATIONS ;;
  ret (match queryResult with Some q => rows q | None => [] end).

Definition executeMigrationScript (migrationScript : MigrationItem)
  : M unit :=
  let filename := filename migrationScript in
  let data := data migrationScript in
  let hash := hash migrationScript in
  try_catch
    (let useAutocommit := startsWith "--AUTOCOMMIT" data in
     (if useAutocommit then
        logger_info "Execute migration script without transaction block" ;;
        doExecuteQuery pool data ;;
        ret tt
      else
        executeInTransaction pool data ;;
        ret tt) ;;
     execute pool INSERT_MIGRATION_QUERY [filename; hash] ;;
     logger_info ("Script " ++ filename ++ " complete successfully"))
    (fun error =>
       logger_error ("Unable to execute script " ++ filename) (Some error) ;;
       throw error).

(** [script.hash === entry.hash]. *)
Definition sameHash (script : MigrationItem) (entry : MigrationEntry.t)
  : bool :=
  match MigrationEntry.hash entry with
  | Some h => (hash script =? h)%string
  | None => false
  end.

(** The argument of the outer [filter]: no row has the fingerprint of the
    script. *)
Definition isMissed (migrationEntries : list MigrationEntry.t)
  (script : MigrationItem) : bool :=
  (List.length (filter (sameHash script) migrationEntries) =? 0)%nat.

(** [for (const migrationScript of missedMigrationScripts)]. *)
Fixpoint executeMissed (missedMigrationScripts : list MigrationItem)
  : M unit :=
  match missedMigrationScripts with
  | [] => ret tt
  | migrationScript :: rest =>
      executeMigrationScript migrationScript ;;
      executeMissed rest
  end.

Definition startMigration (initialized : bool) : M unit :=
  try_catch
    (logger_info "Start database migration" ;;
     checkClientInitialisation initialized ;;
     migrationScripts <- findMigrationScripts migrationPath ;;
     (if (List.length migrationScripts =? 0)%nat then
        logger_info ("Migration scripts not found, path=" ++ migrationPath)
      else ret tt) ;;
     migrationEntries <- getPersistedMigrations ;;
     let missedMigrationScripts :=
       filter (isMissed migrationEntries) migrationScripts in
     (if (List.length missedMigrationScripts =? 0)%nat then
        logger_info "All migration scripts already applied"
      else ret tt) ;;
     executeMissed missedMigrationScripts ;;
     logger_info "Database migration complete successfully")
    (fun error =>
       logger_error "Unable to complete database migration" None).

End Code.

Arguments createMigrationItem {W} md5hex fs dirName filename w.
Arguments collectMigrationItems {W} md5hex fs dirPath files result w.
Arguments findMigrationScripts {W} md5hex fs dirPath w.
Arguments init {W} pool queryExists w.
Arguments getPersistedMigrations {W} pool w.
Arguments executeMigrationScript {W} pool migrationScript w.
Arguments executeMissed {W} pool missedMigrationScripts w.
Arguments startMigration {W} pool md5hex fs migrationPath initialized w.

End Earlier.


(* ================================================================== *)
(** ** A reference database

    The driver's behaviour against a PostgreSQL database that holds the
    tracking table of [CREATE_MIGRATIONS_TABLE] (primary key [id] fed by a
    BIGSERIAL sequence, unique [filename], [timestamp] defaulting to
    [now()]).  The engine's three statements on that table are interpreted;
    any other statement is a user statement, whose success is decided by an
    oracle from the user statements that took effect before it, and which
    is assumed not to touch the tracking table.  A script body is one
    statement to the model, accepted or refused as a whole: a body with
    transaction statements of its own, of which PostgreSQL keeps what it
    committed before a later part fails, is outside the model; the refused
    bodies run against it below are those of the concrete runs, which hold
    none.  The driver itself never fails in this model (no lost
    connections). *)

Inductive Transaction : Type :=
| NoTransaction
| InTransaction (statements : list string)
| AbortedTransaction.

Record Db : Type := mkDb {
  (** rows of [migrations] in insertion order; [None]: the table is absent *)
  migrations : option (list MigrationEntry.t);
  (** next value of the sequence behind [id] *)
  serial : Z;
  (** [now()] *)
  clock : Z;
  (** the user statements that took effect, oldest first *)
  committed : list string;
  (** the transaction open on the client *)
  transaction : Transaction
}.

Section ReferenceDb.

(** [sql_ok history statement]: does the user statement succeed after the
    statements of [history] took effect? *)
Variable sql_ok : list string -> string -> bool.

(** [ORDER BY id]. *)
Fixpoint insertEntry (x : MigrationEntry.t) (l : list MigrationEntry.t)
  : list MigrationEntry.t :=
  match l with
  | [] => [x]
  | y :: l' =>
      if MigrationEntry.id y <? MigrationEntry.id x then y :: insertEntry x l'
      else x :: l
  end.

Definition orderById (l : list MigrationEntry.t) : list MigrationEntry.t :=
  fold_right insertEntry [] l.

Definition db_select (db : Db) : Res QueryResult * Db :=
  match migrations db with
  | Some table => (Ok {| rows := orderById table |}, db)
  | None => (Throw (Error "relation migrations does not exist"), db)
  end.

(** [INSERT INTO migrations (filename, hash)]: the sequence advances even
    when the row is refused. *)
Definition db_insert (filename hash : string) (db : Db)
  : Res QueryResult * Db :=
  match migrations db with
  | None => (Throw (Error "relation migrations does not exist"), db)
  | Some table =>
      let id := serial db in
      let db' := mkDb (migrations db) (serial db + 1) (clock db)
                   (committed db) (transaction db) in
      if existsb (fun e => MigrationEntry.id e =? id) table then
        (Throw (Error "duplicate key value violates unique constraint migrations_pkey"),
         db')
      else if existsb (fun e => (MigrationEntry.filename e =? filename)%string)
                table then
        (Throw (Error "duplicate key value violates unique constraint migrations_filename_key"),
         db')
      else
        (Ok {| rows := [] |},
         mkDb (Some (table ++ [MigrationEntry.mk id filename (clock db)
                                 (Some hash)])%list)
           (serial db + 1) (clock db + 1) (committed db) (transaction db))
  end.

Definition setHash (hash filename : string) (e : MigrationEntry.t)
  : MigrationEntry.t :=
  if (MigrationEntry.filename e =? filename)%string then
    MigrationEntry.mk (MigrationEntry.id e) (MigrationEntry.filename e)
      (MigrationEntry.timestamp e) (Some hash)
  else e.

(** [UPDATE migrations SET hash = $1 WHERE filename = $2]. *)
Definition db_update (hash filename : string) (db : Db)
  : Res QueryResult * Db :=
  match migrations db with
  | None => (Throw (Error "relation migrations does not exist"), db)
  | Some table =>
      (Ok {| rows := [] |},
       mkDb (Some (map (setHash hash filename) table)) (serial db)
         (clock db) (committed db) (transaction db))
  end.

(** A user statement sent through the pool (autocommit). *)
Definition db_user_statement (statement : string) (db : Db)
  : Res QueryResult * Db :=
  if sql_ok (committed db) statement then
    (Ok {| rows := [] |},
     mkDb (migrations db) (serial db) (clock db)
       (committed db ++ [statement])%list (transaction db))
  else (Throw (Error ("statement failed: " ++ statement)), db).

Definition db_pool_query (statement : string) (params : list string)
  (db : Db) : Res QueryResult * Db :=
  match params with
  | [] =>
      if (statement =? SELECT_EXISTING_MIGRATIONS)%string
      then db_select db
      else db_user_statement statement db
  | [p1; p2] =>
      if (statement =? INSERT_MIGRATION_QUERY)%string
      then db_insert p1 p2 db
      else if (statement =? UPDATE_MIGRATION_ROW_HASH)%string
      then db_update p1 p2 db
      else (Throw (Error "bind message supplies the wrong number of parameters"), db)
  | _ => (Throw (Error "bind message supplies the wrong number of parameters"), db)
  end.

Definition set_transaction (t : Transaction) (db : Db) : Db :=
  mkDb (migrations db) (serial db) (clock db) (committed db) t.

(** A statement sent on the client's connection. *)
Definition db_client_query (statement : string) (db : Db)
  : Res QueryResult * Db :=
  if (statement =? "START TRANSACTION")%string then
    match transaction db with
    | NoTransaction => (Ok {| rows := [] |}, set_transaction (InTransaction []) db)
    | _ => (Ok {| rows := [] |}, db)
    end
  else if (statement =? "COMMIT")%string then
    match transaction db with
    | InTransaction statements =>
        (Ok {| rows := [] |},
         mkDb (migrations db) (serial db) (clock db)
           (committed db ++ statements)%list NoTransaction)
    | _ => (Ok {| rows := [] |}, set_transaction NoTransaction db)
    end
  else if (statement =? "ROLLBACK")%string then
    (Ok {| rows := [] |}, set_transaction NoTransaction db)
  else
    match transaction db with
    | NoTransaction => db_user_statement statement db
    | InTransaction statements =>
        if sql_ok (committed db ++ statements)%list statement then
          (Ok {| rows := [] |},
           set_transaction (InTransaction (statements ++ [statement])%list) db)
        else
          (Throw (Error ("statement failed: " ++ statement)),
           set_transaction AbortedTransaction db)
    | AbortedTransaction =>
        (Throw (Error "current transaction is aborted, commands ignored until end of transaction block"),
         db)
    end.

Definition referencePool : Pool Db := {|
  pool_query := db_pool_query;
  pool_connect := fun db => (Ok tt, db);
  client_query := db_client_query;
  client_release := fun db => db
|}.

End ReferenceDb.

(* ================================================================== *)
(** ** The reference database with the statements of [init]

    The reference database answers the three statements of [init] as well.
    The existence check reads [pg_tables], which lists the table of the
    model and, when [elsewhere] holds, a table of that name in a schema
    that is not on the search path.  CREATE TABLE is refused when the table
    exists; when it does not, PostgreSQL may refuse it all the same (a view
    or a sequence of that name, a missing privilege), which is up to the
    oracle; accepted, it makes an empty table with a sequence that starts
    at 1.  The INSERT of the sentinel takes the id it is given, leaving the
    sequence alone.  Every other statement is answered as before. *)

Section ReferenceInit.

Variable sql_ok : list string -> string -> bool.
(** [pg_tables] lists a table [migrations] of another schema. *)
Variable elsewhere : bool.

Definition db_create_table (db : Db) : Res QueryResult * Db :=
  match migrations db with
  | Some _ => (Throw (Error "relation migrations already exists"), db)
  | None =>
      if sql_ok (committed db) CREATE_MIGRATIONS_TABLE then
        (Ok {| rows := [] |},
         mkDb (Some []) 1 (clock db) (committed db) (transaction db))
      else (Throw (Error "statement failed: CREATE TABLE migrations"), db)
  end.

(** [INSERT INTO migrations (id, filename) VALUES (0, $1)]. *)
Definition db_insert_init (filename : string) (db : Db)
  : Res QueryResult * Db :=
  match migrations db with
  | None => (Throw (Error "relation migrations does not exist"), db)
  | Some table =>
      if existsb (fun e => MigrationEntry.id e =? 0) table then
        (Throw (Error "duplicate key value violates unique constraint migrations_pkey"),
         db)
      else if existsb (fun e => (MigrationEntry.filename e =? filename)%string)
                table then
        (Throw (Error "duplicate key value violates unique constraint migrations_filename_key"),
         db)
      else
        (Ok {| rows := [] |},
         mkDb (Some (table ++ [MigrationEntry.mk 0 filename (clock db) None])%list)
           (serial db) (clock db + 1) (committed db) (transaction db))
  end.

Definition db_init_pool_query (statement : string) (params : list string)
  (db : Db) : Res QueryResult * Db :=
  match params with
  | [] =>
      if (statement =? CREATE_MIGRATIONS_TABLE)%string
      then db_create_table db
      else if (statement =? MIGRATIONS_TABLE_EXISTS)%string
      then (Ok {| rows := [] |}, db)
      else db_pool_query sql_ok statement params db
  | [p1] =>
      if (statement =? INSERT_MIGRATION_INIT_QUERY)%string
      then db_insert_init p1 db
      else db_pool_query sql_ok statement params db
  | _ => db_pool_query sql_ok statement params db
  end.

(** The same statement, its rows read at [TableExist]: the existence check
    has one row, every other statement none of that type. *)
Definition db_query_exists (statement : string) (params : list string)
  (db : Db) : Res ExistQueryResult * Db :=
  match db_init_pool_query statement params db with
  | (Ok _, db') =>
      (Ok {| existRows :=
               if (statement =? MIGRATIONS_TABLE_EXISTS)%string
               then [{| tableExists :=
                          match migrations db with
                          | Some _ => true
                          | None => elsewhere
                          end |}]
               else [] |},
       db')
  | (Throw e, db') => (Throw e, db')
  end.

Definition referenceInitPool : Pool Db := {|
  pool_query := db_init_pool_query;
  pool_connect := fun db => (Ok tt, db);
  client_query := db_client_query sql_ok;
  client_release := fun db => db
|}.

End ReferenceInit.


(* ================================================================== *)
(** ** Vocabulary of the statements *)

(** The [INSERT] that records a script. *)
Definition insertCall (m : MigrationItem.t) : PoolCall :=
  PoolQuery INSERT_MIGRATION_QUERY
    [MigrationItem.filename m; MigrationItem.hash m].

(** The calls [executeInTransaction] makes for a statement that is
    committed. *)
Definition committedTrace (statement : string) : list PoolCall :=
  [PoolConnect; ClientQuery "START TRANSACTION"; ClientQuery statement;
   ClientQuery "COMMIT"; ClientRelease].

(** The calls that apply a script the database accepts: its execution, bare
    for a script that carries the marker and in a transaction otherwise, then
    the INSERT of its row. *)
Definition appliedTrace (m : MigrationItem.t) : list PoolCall :=
  ((if startsWith "--AUTOCOMMIT" (MigrationItem.data m)
    then [PoolQuery (MigrationItem.data m) []]
    else committedTrace (MigrationItem.data m)) ++ [insertCall m])%list.

(** The calls it makes otherwise, by where the driver rejects: at connect,
    at START TRANSACTION, at the statement, or at COMMIT. *)
Definition failedTraces (statement : string) : list (list PoolCall) :=
  [ [PoolConnect];
    [PoolConnect; ClientQuery "START TRANSACTION"; ClientQuery "ROLLBACK";
     ClientRelease];
    [PoolConnect; ClientQuery "START TRANSACTION"; ClientQuery statement;
     ClientQuery "ROLLBACK"; ClientRelease];
    [PoolConnect; ClientQuery "START TRANSACTION"; ClientQuery statement;
     ClientQuery "COMMIT"; ClientQuery "ROLLBACK"; ClientRelease] ].

(** Whether a gateway outcome is the success variant. *)
Definition succeeded (r : Res ExecutionResult) : bool :=
  match r with
  | Ok executionResult => isSuccess executionResult
  | Throw _ => false
  end.

Definition add_log {W} (l : list LogEntry) (w : World W) : World W :=
  mkWorld (w_pool w) (w_log w ++ l) (w_calls w).

(** The last message handed to the logger. *)
Definition lastLog {W} (w : World W) : option LogEntry :=
  List.last (map Some (w_log w)) None.

(** The messages of a discovery that found [n] scripts. *)
Definition discoveryLog (dirPath : string) (n : nat) : list LogEntry :=
  [LogInfo ("Searching for migration scripts in the directory started, dir="
            ++ dirPath);
   LogInfo ("Search for migration scripts in the directory completed successfully, found "
            ++ string_of_Z (Z.of_nat n) ++ " script(-s)")].

(** [s] does not continue the sequence after [prev]. *)
Definition breaksSequence (prev s : MigrationItem.t) : Prop :=
  js_strict_neq_1 (js_sub (MigrationItem.id s) (MigrationItem.id prev)) = true.

Definition startLog : list LogEntry := [LogInfo "Start database migration"].

(** An item as [createMigrationItem] builds it: the file name has its first
    delimiter past position 0 and the id is what [parseInt] makes of the
    prefix before it. *)
Definition wellFormed (m : MigrationItem.t) : Prop :=
  1 <= search_delimiter (MigrationItem.filename m) /\
  MigrationItem.id m =
  parseInt (substring_to (search_delimiter (MigrationItem.filename m))
              (MigrationItem.filename m)).

(** The ids [a, a+1, ..., a+n-1]. *)
Fixpoint idsFrom (a : Z) (n : nat) : list Z :=
  match n with
  | O => []
  | S n' => a :: idsFrom (a + 1) n'
  end.

Definition numId (m : MigrationItem.t) : Z :=
  match MigrationItem.id m with
  | Num z => z
  | NaN => 0
  end.

Definition hasNumId (m : MigrationItem.t) : Prop :=
  MigrationItem.id m = Num (numId m).

(** [Number.isSafeInteger]: an integer of magnitude below 2^53, which a
    JavaScript number holds exactly. *)
Definition isSafeInteger (a : JsNumber) : bool :=
  match a with
  | Num z => Z.abs z <? 2 ^ 53
  | NaN => false
  end.

(** Every script of [l] has the id of the script before it plus one, the
    first one that of [prev] plus one. *)
Fixpoint continues (prev : MigrationItem.t) (l : list MigrationItem.t)
  : bool :=
  match l with
  | [] => true
  | s :: l' =>
      negb (js_strict_neq_1
              (js_sub (MigrationItem.id s) (MigrationItem.id prev)))
      && continues s l'
  end.

(** No script of [l] breaks the sequence after its predecessor. *)
Definition unbroken (l : list MigrationItem.t) : bool :=
  match l with
  | [] => true
  | s :: l' => continues s l'
  end.

(** The row [init] inserts when it creates the tracking table: id 0, a
    fixed file name, no fingerprint. *)
Definition sentinel (timestamp : Z) : MigrationEntry.t :=
  MigrationEntry.mk 0 "PgMigrationClient initialized" timestamp None.

(** The statements the gateway itself sends on a client. *)
Definition transactionControl (statement : string) : bool :=
  ((statement =? "START TRANSACTION") || (statement =? "COMMIT")
   || (statement =? "ROLLBACK"))%string.

(** Every body succeeds when run after the ones before it. *)
Fixpoint scriptsSucceed (sql_ok : list string -> string -> bool)
  (history bodies : list string) : bool :=
  match bodies with
  | [] => true
  | body :: bodies' =>
      sql_ok history body
      && scriptsSucceed sql_ok (history ++ [body])%list bodies'
  end.

(** The rows inserted for the scripts of [l], the sequence standing at
    [serial0] and the clock at [clock0]. *)
Fixpoint recordsFor (serial0 clock0 : Z) (l : list MigrationItem.t)
  : list MigrationEntry.t :=
  match l with
  | [] => []
  | m :: l' =>
      MigrationEntry.mk serial0 (MigrationItem.filename m) clock0
        (Some (MigrationItem.hash m))
      :: recordsFor (serial0 + 1) (clock0 + 1) l'
  end.

Section Vocabulary.

Variable W : Type.
Variable pool : Pool W.

(** The gateway call of [executeMigrationScript], the one whose result is
    [migrationResult]. *)
Definition scriptGatewayCall (migrationScript : MigrationItem.t)
  : M W ExecutionResult :=
  if startsWith "--AUTOCOMMIT" (MigrationItem.data migrationScript) then
    logger_info "Execute migration script without transaction block" ;;
    execute pool (MigrationItem.data migrationScript) []
  else executeInTransaction pool (MigrationItem.data migrationScript).

(** [c] returns the same result in every world and changes the world only
    by appending the same messages to the log. *)
Definition log_only {A} (c : M W A) : Prop :=
  exists r l, forall w, c w = (r, add_log l w).

(** [c] returns the same result in every world and leaves the world as it
    is. *)
Definition silent {A} (c : M W A) : Prop :=
  exists r, forall w, c w = (r, w).

(** What the top level makes of the outcome of the body of its [try]: the
    exception is logged and not raised again. *)
Definition reportRun (r : Res unit * World W) : Res unit * World W :=
  match r with
  | (Ok _, w) =>
      (Ok tt, add_log [LogInfo "Database migration complete successfully"] w)
  | (Throw e, w) =>
      (Ok tt,
       add_log [LogError ("Unable to complete database migration, cause: "
                          ++ message e)] w)
  end.

(** What [doMigration] makes of the outcome of its loop. *)
Definition finishLoop (r : Res (JsNumber * list MigrationItem.t) * World W)
  : Res unit * World W :=
  match r with
  | (Ok (_, missed), w) =>
      if (List.length missed =? 0)%nat then
        (Ok tt, add_log [LogInfo "All migration scripts already applied"] w)
      else (Ok tt, w)
  | (Throw e, w) => (Throw e, w)
  end.

End Vocabulary.

Arguments scriptGatewayCall {W} pool migrationScript w.
Arguments log_only {W A} c.
Arguments silent {W A} c.
Arguments reportRun {W} r.
Arguments finishLoop {W} r.

(* ================================================================== *)
(** ** Vocabulary of the further statements *)

(** The item [createMigrationItem] builds for a file of the given name and
    content. *)
Definition discoveredItem (md5hex : string -> string)
  (filename data : string) : MigrationItem.t :=
  MigrationItem.mk
    (parseInt (substring_to (search_delimiter filename) filename))
    filename data (md5hex (filename ++ data)).

(** The file [filename] of [dirPath] is one the locator accepts, and [m] is
    the item it builds for it. *)
Definition discovers (md5hex : string -> string) (fs : Fs)
  (dirPath filename : string) (m : MigrationItem.t) : Prop :=
  1 <= search_delimiter filename /\
  exists data,
    readFile fs (path_join dirPath filename) = Ok data /\
    m = discoveredItem md5hex filename data.

(** The file [filename] of [dirPath] is one the locator accepts: its name
    has its first delimiter past position 0, and it can be read. *)
Definition acceptable (fs : Fs) (dirPath filename : string) : Prop :=
  1 <= search_delimiter filename /\
  exists data, readFile fs (path_join dirPath filename) = Ok data.

(** [m] is the item of the file [filename] of [dirPath]: it has that name,
    the content of the file and the digest of both; its id is the number
    [parseInt] reads from the prefix, said here of the numbers below 2^53,
    which JavaScript does not round. *)
Definition locates (md5hex : string -> string) (fs : Fs)
  (dirPath filename : string) (m : MigrationItem.t) : Prop :=
  exists data,
    readFile fs (path_join dirPath filename) = Ok data /\
    MigrationItem.filename m = filename /\
    MigrationItem.data m = data /\
    MigrationItem.hash m = md5hex (filename ++ data) /\
    forall z,
      parseInt (substring_to (search_delimiter filename) filename) = Num z ->
      z < 2 ^ 53 ->
      MigrationItem.id m = Num z.

(** The last message of a run, by outcome. *)
Definition runSuccess : LogEntry :=
  LogInfo "Database migration complete successfully".

Definition runFailure (e : Exn) : LogEntry :=
  LogError ("Unable to complete database migration, cause: " ++ message e).

(** The last message of a failed run of the earlier engine: it names no
    cause. *)
Definition earlierRunFailure : LogEntry :=
  LogError "Unable to complete database migration".

(** What the locator logs when discovery fails: the cause is not part of
    the message. *)
Definition failedDiscoveryLog (dirPath : string) : list LogEntry :=
  [LogInfo ("Searching for migration scripts in the directory started, dir="
            ++ dirPath);
   LogError "Unable to find migration scripts"].

Definition noDelimiterError : Exn :=
  Error "Filename pattern invalid. Can not find delimiter _ or -. Pattern <id><delimiter><filename>.sql".

(** No character of [s] is a delimiter. *)
Fixpoint noDelimiter (s : string) : bool :=
  match s with
  | EmptyString => true
  | String c s' => negb (is_delimiter c) && noDelimiter s'
  end.

(** Characters after the decimal digits of [n] that [parseInt] does not
    read: they do not go on with a digit, and after a lone [0] not with the
    [x] of a hexadecimal prefix. *)
Definition ignoredByParseInt (n : Z) (junk : string) : bool :=
  match junk with
  | EmptyString => true
  | String c _ =>
      match digit_value 10 c with
      | Some _ => false
      | None => negb ((n =? 0) && (Ascii.eqb c "x" || Ascii.eqb c "X"))
      end
  end.

(** The calls a run makes on the pool for the scripts of [scripts]: the
    SELECT of the history, the INSERT and the UPDATE of the row of a script,
    the body of a script (through [pool.query] when it carries the marker,
    on a client otherwise), and what a transaction takes. *)
Inductive engineCall (scripts : list MigrationItem.t) : PoolCall -> Prop :=
| call_select :
    engineCall scripts (PoolQuery SELECT_EXISTING_MIGRATIONS [])
| call_connect : engineCall scripts PoolConnect
| call_release : engineCall scripts ClientRelease
| call_start : engineCall scripts (ClientQuery "START TRANSACTION")
| call_commit : engineCall scripts (ClientQuery "COMMIT")
| call_rollback : engineCall scripts (ClientQuery "ROLLBACK")
| call_insert (m : MigrationItem.t) :
    In m scripts -> engineCall scripts (insertCall m)
| call_update (m : MigrationItem.t) :
    In m scripts ->
    engineCall scripts
      (PoolQuery UPDATE_MIGRATION_ROW_HASH
         [MigrationItem.hash m; MigrationItem.filename m])
| call_bare (m : MigrationItem.t) :
    In m scripts ->
    startsWith "--AUTOCOMMIT" (MigrationItem.data m) = true ->
    engineCall scripts (PoolQuery (MigrationItem.data m) [])
| call_body (m : MigrationItem.t) :
    In m scripts ->
    startsWith "--AUTOCOMMIT" (MigrationItem.data m) = false ->
    engineCall scripts (ClientQuery (MigrationItem.data m)).

(** [c] only adds calls to the trace of the pool, each of them in [P]. *)
Definition sends {W A} (P : PoolCall -> Prop) (c : M W A) : Prop :=
  forall w,
    exists calls,
      w_calls (snd (c w)) = (w_calls w ++ calls)%list /\ Forall P calls.

(** [entry] is the row of the applied script [m]: it has the script's id,
    file name and fingerprint. *)
Definition recordedAs (m : MigrationItem.t) (entry : MigrationEntry.t) : Prop :=
  MigrationItem.id m = Num (MigrationEntry.id entry) /\
  MigrationEntry.filename entry = MigrationItem.filename m /\
  MigrationEntry.hash entry = Some (MigrationItem.hash m).

(** The messages of [init], by outcome. *)
Definition initLog (rest : list LogEntry) : list LogEntry :=
  LogInfo "Start initializing PgMigrationClient" :: rest.

Definition initFailure (e : Exn) : LogEntry :=
  LogError ("Unable to start PgMigrationClient, cause: " ++ message e).

Definition existsCall : PoolCall := PoolQuery MIGRATIONS_TABLE_EXISTS [].
Definition createCall : PoolCall := PoolQuery CREATE_MIGRATIONS_TABLE [].
Definition sentinelCall : PoolCall :=
  PoolQuery INSERT_MIGRATION_INIT_QUERY ["PgMigrationClient initialized"].

(** The UPDATE that gives the row of a script its fingerprint. *)
Definition backfillCall (m : MigrationItem.t) : PoolCall :=
  PoolQuery UPDATE_MIGRATION_ROW_HASH
    [MigrationItem.hash m; MigrationItem.filename m].

(** The row of the script in [entries] has no fingerprint. *)
Definition hasLegacyRecord (entries : list MigrationEntry.t)
  (m : MigrationItem.t) : bool :=
  match findEntry entries (MigrationItem.filename m) with
  | Some entry =>
      match MigrationEntry.hash entry with
      | None => true
      | Some _ => false
      end
  | None => false
  end.

(** What the top level of the earlier engine makes of the outcome of the
    body of its [try]: the exception is logged without its cause. *)
Definition reportEarlierRun {W} (r : Res unit * World W)
  : Res unit * World W :=
  match r with
  | (Ok _, w) =>
      (Ok tt, add_log [LogInfo "Database migration complete successfully"] w)
  | (Throw _, w) =>
      (Ok tt, add_log [LogError "Unable to complete database migration"] w)
  end.

(** The INSERT that records a script of the earlier engine. *)
Definition earlierInsertCall (m : Earlier.MigrationItem) : PoolCall :=
  PoolQuery INSERT_MIGRATION_QUERY [Earlier.filename m; Earlier.hash m].

(** The file [filename] of [dirPath] can be read, and [m] is the item the
    earlier locator builds for it. *)
Definition earlierDiscovers (md5hex : string -> string) (fs : Fs)
  (dirPath filename : string) (m : Earlier.MigrationItem) : Prop :=
  exists data,
    readFile fs (path_join dirPath filename) = Ok data /\
    m = Earlier.mkItem filename data (md5hex (filename ++ data)).


(* ================================================================== *)
(** ** Concrete runs *)

(** A driver whose connection is lost after the transaction began: the
    statement is rejected, and so is ROLLBACK. *)
Definition lostConnectionPool : Pool unit := {|
  pool_query := fun _ _ u => (Throw (Error "Connection terminated unexpectedly"), u);
  pool_connect := fun u => (Ok tt, u);
  client_query := fun statement u =>
    if (statement =? "START TRANSACTION")%string then (Ok {| rows := [] |}, u)
    else if (statement =? "ROLLBACK")%string then
      (Throw (Error "Client has encountered a connection error and is not queryable"), u)
    else (Throw (Error "Connection terminated unexpectedly"), u);
  client_release := fun u => u
|}.

(** A directory holding the single file [abc_x.sql]. *)
Definition fs_abc : Fs := {|
  readDir := fun _ => Ok ["abc_x.sql"];
  readFile := fun _ => Ok "CREATE TABLE x (id int);"
|}.

(** A stand-in for the md5 digest: a checksum of the character codes. *)
Fixpoint checksum (s : string) (acc : Z) : Z :=
  match s with
  | EmptyString => acc
  | String c s' => checksum s' ((acc * 31 + Z.of_nat (nat_of_ascii c)) mod 1000003)
  end.

Definition toyDigest (s : string) : string := string_of_Z (checksum s 7).

(** A directory [dirPath] holding the given files (name, content). *)
Definition directory (dirPath : string) (files : list (string * string)) : Fs :=
  {| readDir := fun d =>
       if (d =? dirPath)%string then Ok (map fst files)
       else Throw (Error "ENOENT: no such file or directory");
     readFile := fun p =>
       match find (fun f => (path_join dirPath (fst f) =? p)%string) files with
       | Some f => Ok (snd f)
       | None => Throw (Error "ENOENT: no such file or directory")
       end |}.

(** The item discovery builds for a file whose prefix reads [n]. *)
Definition item (n : Z) (filename data : string) : MigrationItem.t :=
  MigrationItem.mk (Num n) filename data (toyDigest (filename ++ data)).

(** The record of an applied item. *)
Definition recordOf (id timestamp : Z) (m : MigrationItem.t)
  : MigrationEntry.t :=
  MigrationEntry.mk id (MigrationItem.filename m) timestamp
    (Some (MigrationItem.hash m)).

Definition acceptAll : list string -> string -> bool := fun _ _ => true.

Definition init1 : MigrationItem.t :=
  item 1 "1_init.sql" "CREATE TABLE t (id int);".
Definition addCol2 : MigrationItem.t :=
  item 2 "2_add_col.sql" "--AUTOCOMMIT ALTER TABLE t ADD c int;".
Definition index3 : MigrationItem.t :=
  item 3 "3-index.sql" "CREATE INDEX t_c ON t (c);".
Definition view4 : MigrationItem.t :=
  item 4 "4_view.sql" "CREATE VIEW v AS SELECT c FROM t;".

Definition fileOf (m : MigrationItem.t) : string * string :=
  (MigrationItem.filename m, MigrationItem.data m).

(** Two scripts, listed out of order. *)
Definition twoScripts : Fs := directory "sql" [fileOf addCol2; fileOf init1].
(** Three scripts. *)
Definition threeScripts : Fs :=
  directory "sql" [fileOf init1; fileOf addCol2; fileOf index3].
(** Ids 1, 2, 4. *)
Definition gapScripts : Fs :=
  directory "sql" [fileOf init1; fileOf view4; fileOf addCol2].

(** A database as [init] leaves it. *)
Definition freshDb : Db := mkDb (Some [sentinel 0]) 1 100 [] NoTransaction.
(** A tracking table that exists and is empty. *)
Definition emptyTableDb : Db := mkDb (Some []) 1 100 [] NoTransaction.
(** The two scripts applied. *)
Definition appliedDb : Db :=
  mkDb (Some [sentinel 0; recordOf 1 100 init1; recordOf 2 101 addCol2])
    3 102 [MigrationItem.data init1; MigrationItem.data addCol2]
    NoTransaction.
(** The two scripts applied, the second one with other content than the
    file now has. *)
Definition editedDb : Db :=
  mkDb (Some [sentinel 0; recordOf 1 100 init1;
              MigrationEntry.mk 2 "2_add_col.sql" 101 (Some "0")])
    3 102 [MigrationItem.data init1; "--AUTOCOMMIT ALTER TABLE t ADD b int;"]
    NoTransaction.
(** The two scripts applied, the second one before fingerprints existed. *)
Definition legacyDb : Db :=
  mkDb (Some [sentinel 0; recordOf 1 100 init1;
              MigrationEntry.mk 2 "2_add_col.sql" 101 None])
    3 102 [MigrationItem.data init1; MigrationItem.data addCol2]
    NoTransaction.
(** One script applied, the rows restored with their ids while the
    sequence was left at its start. *)
Definition restoredDb : Db :=
  mkDb (Some [sentinel 0; recordOf 1 100 init1]) 1 102
    [MigrationItem.data init1] NoTransaction.

Definition worldOf (db : Db) : World Db := mkWorld db [] [].

(** A script with a typing error, and a database that rejects it. *)
Definition typo1 : MigrationItem.t :=
  item 1 "1_init.sql" "CREATE TABL t (id int);".
Definition typoScripts : Fs := directory "sql" [fileOf typo1].
Definition rejectTypo : list string -> string -> bool :=
  fun _ statement => negb (statement =? "CREATE TABL t (id int);")%string.

(** Both scripts edited after they were applied. *)
Definition bothEditedDb : Db :=
  mkDb (Some [sentinel 0;
              MigrationEntry.mk 1 "1_init.sql" 100 (Some "0");
              MigrationEntry.mk 2 "2_add_col.sql" 101 (Some "0")])
    3 102 ["CREATE TABLE t (i int);"; "--AUTOCOMMIT ALTER TABLE t ADD b int;"]
    NoTransaction.
(** The first script edited after it was applied, the second one applied
    before fingerprints existed. *)
Definition editedThenLegacyDb : Db :=
  mkDb (Some [sentinel 0;
              MigrationEntry.mk 1 "1_init.sql" 100 (Some "0");
              MigrationEntry.mk 2 "2_add_col.sql" 101 None])
    3 102 ["CREATE TABLE t (i int);"; MigrationItem.data addCol2]
    NoTransaction.

(** A driver whose user may read the tracking table and not write it. *)
Definition readOnlyPool : Pool Db := {|
  pool_query := fun statement params db =>
    if (statement =? SELECT_EXISTING_MIGRATIONS)%string then db_select db
    else (Throw (Error "permission denied for table migrations"), db);
  pool_connect := fun db => (Ok tt, db);
  client_query := fun _ db =>
    (Throw (Error "permission denied for table migrations"), db);
  client_release := fun db => db
|}.

(* ------------------------------------------------------------------ *)
(** *** Further concrete runs *)

(** A database on which nothing of the engine exists yet. *)
Definition blankDb : Db := mkDb None 1 100 [] NoTransaction.

(** The first script applied, the second one not yet. *)
Definition oneAppliedDb : Db :=
  mkDb (Some [sentinel 0; recordOf 1 100 init1]) 2 101
    [MigrationItem.data init1] NoTransaction.

(** A database that refuses the body of [3-index.sql]. *)
Definition rejectIndex : list string -> string -> bool :=
  fun _ statement => negb (statement =? MigrationItem.data index3)%string.

(** A driver over a database on which the engine may create its table and
    read it, but not write rows: the state tells whether the table is
    there. *)
Definition noInsertPool : Pool bool := {|
  pool_query := fun statement params table =>
    if (statement =? CREATE_MIGRATIONS_TABLE)%string
    then (Ok {| rows := [] |}, true)
    else if (statement =? SELECT_EXISTING_MIGRATIONS)%string
    then (if table then Ok {| rows := [] |}
          else Throw (Error "relation migrations does not exist"), table)
    else (Throw (Error "permission denied for table migrations"), table);
  pool_connect := fun table => (Ok tt, table);
  client_query := fun _ table =>
    (Throw (Error "permission denied for table migrations"), table);
  client_release := fun table => table
|}.

Definition noInsertQueryExists (statement : string) (params : list string)
  (table : bool) : Res ExistQueryResult * bool :=
  (Ok {| existRows := [{| tableExists := table |}] |}, table).

(** The existence check as the driver of [lostConnectionPool] answers
    it. *)
Definition lostConnectionQueryExists (statement : string)
  (params : list string) (u : unit) : Res ExistQueryResult * unit :=
  (Throw (Error "Connection terminated unexpectedly"), u).

(** The directory of src/index.ts, with one script. *)
Definition testScripts : Fs := directory "test/sql" [fileOf init1].
(** The same directory with two scripts, listed out of order. *)
Definition twoTestScripts : Fs :=
  directory "test/sql" [fileOf addCol2; fileOf init1].

(** A driver over a history that it hands out to the SELECT of the earlier
    engine; every other statement resolves with no row and changes
    nothing. *)
Definition historyPool : Pool (list MigrationEntry.t) := {|
  pool_query := fun statement params table =>
    if (statement =? Earlier.SELECT_EXISTING_MIGRATIONS)%string
    then (Ok {| rows := table |}, table)
    else (Ok {| rows := [] |}, table);
  pool_connect := fun table => (Ok tt, table);
  client_query := fun _ table => (Ok {| rows := [] |}, table);
  client_release := fun table => table
|}.

(** A history whose one row has the fingerprint of [users.sql] under
    another file name. *)
Definition renamedHistory : list MigrationEntry.t :=
  [MigrationEntry.mk 1 "accounts.sql" 100
     (Some (toyDigest ("users.sql" ++ "CREATE TABLE users ();")))].

(* ================================================================== *)
(** ** Facts about the persistence gateway *)

Ltac unfold_monad :=
  unfold bind, ret, throw, try_catch, try_finally, lift,
    logger_info, logger_debug, logger_error, log_append,
    poolQuery, poolConnect, clientQuery, clientRelease in *.

Section GatewayFacts.

Variable W : Type.
Variable pool : Pool W.

(** [execute] is one [pool.query], whose rejection becomes the failure
    variant. *)
Lemma execute_spec (statement : string) (params : list string) (w : World W) :
  execute pool statement params w =
  (Ok (match fst (pool_query pool statement params (w_pool w)) with
       | Ok queryResult => toSuccess queryResult
       | Throw e => toError e
       end),
   mkWorld (snd (pool_query pool statement params (w_pool w))) (w_log w)
     (w_calls w ++ [PoolQuery statement params])).
Proof.
  unfold execute. unfold_monad.
  destruct (pool_query pool statement params (w_pool w)) as [[q | e] p];
    reflexivity.
Qed.

Lemma execute_never_throws (statement : string) (params : list string)
  (w : World W) :
  exists r, fst (execute pool statement params w) = Ok r.
Proof. rewrite execute_spec. eexists. reflexivity. Qed.

(** [executeInTransaction] on a connection that was obtained, when the
    statement is rejected and ROLLBACK is rejected too: the rejection of
    ROLLBACK leaves the [catch] block and reaches the caller. *)
Lemma executeInTransaction_rollback_error
  (statement : string) (w : World W) (p1 p2 p3 p4 : W) (q : QueryResult)
  (e1 e2 : Exn) :
  pool_connect pool (w_pool w) = (Ok tt, p1) ->
  client_query pool "START TRANSACTION" p1 = (Ok q, p2) ->
  client_query pool statement p2 = (Throw e1, p3) ->
  client_query pool "ROLLBACK" p3 = (Throw e2, p4) ->
  fst (executeInTransaction pool statement w) = Throw e2.
Proof.
  intros Hc Hs Hq Hr. unfold executeInTransaction. unfold_monad. simpl.
  rewrite Hc. simpl. rewrite Hs. simpl. rewrite Hq. simpl. rewrite Hr.
  reflexivity.
Qed.

(** A rejected [pool.connect()] reaches the caller as well: it stands
    before the [try]. *)
Lemma executeInTransaction_connect_error
  (statement : string) (w : World W) (p1 : W) (e : Exn) :
  pool_connect pool (w_pool w) = (Throw e, p1) ->
  fst (executeInTransaction pool statement w) = Throw e.
Proof.
  intros Hc. unfold executeInTransaction. unfold_monad. rewrite Hc.
  reflexivity.
Qed.

(** It returns a result whenever the connection is obtained and ROLLBACK,
    if it comes to it, is not rejected. *)
Lemma executeInTransaction_returns (statement : string) (w : World W) (p1 : W) :
  pool_connect pool (w_pool w) = (Ok tt, p1) ->
  (forall p, exists q p', client_query pool "ROLLBACK" p = (Ok q, p')) ->
  exists r, fst (executeInTransaction pool statement w) = Ok r.
Proof.
  intros Hc Hrb. unfold executeInTransaction. unfold_monad.
  cbn [w_pool w_log w_calls]. rewrite Hc. cbn [w_pool w_log w_calls].
  destruct (client_query pool "START TRANSACTION" p1) as [[q1 | e1] p2].
  2:{ cbn [w_pool w_log w_calls]. destruct (Hrb p2) as [q [p' H]].
      rewrite H. eexists. reflexivity. }
  cbn [w_pool w_log w_calls].
  destruct (client_query pool statement p2) as [[q2 | e2] p3].
  2:{ cbn [w_pool w_log w_calls]. destruct (Hrb p3) as [q [p' H]].
      rewrite H. eexists. reflexivity. }
  cbn [w_pool w_log w_calls].
  destruct (client_query pool "COMMIT" p3) as [[q3 | e3] p4].
  2:{ cbn [w_pool w_log w_calls]. destruct (Hrb p4) as [q [p' H]].
      rewrite H. eexists. reflexivity. }
  eexists. reflexivity.
Qed.

End GatewayFacts.

(** C4 (the code departs from the specification).  [executeInTransaction] raises to
    its caller: with a connection lost inside the transaction, the error of
    ROLLBACK is not turned into the failure variant but thrown, after the
    client was released. *)
Theorem executeInTransaction_raises_rollback_error :
  executeInTransaction lostConnectionPool "CREATE TABLE t (id int)"
    (mkWorld tt [] [])
  = (Throw (Error "Client has encountered a connection error and is not queryable"),
     mkWorld tt
       [LogInfo "Statement execution started"]
       [PoolConnect; ClientQuery "START TRANSACTION";
        ClientQuery "CREATE TABLE t (id int)"; ClientQuery "ROLLBACK";
        ClientRelease]).
Proof. reflexivity. Qed.

(* ================================================================== *)
(** ** Facts about the script locator *)

Section LocatorFacts.

Variable W : Type.
Variable md5hex : string -> string.
Variable fs : Fs.

(** The [try] around [Number.parseInt] never reaches its [catch]: a file
    name with a delimiter past position 0 and a readable file always gives
    an item, whose id is whatever [parseInt] returns, NaN included. *)
Lemma createMigrationItem_ok (dirName filename data : string) (w : World W) :
  1 <= search_delimiter filename ->
  readFile fs (path_join dirName filename) = Ok data ->
  createMigrationItem md5hex fs dirName filename w =
  (Ok (MigrationItem.mk
         (parseInt (substring_to (search_delimiter filename) filename))
         filename data (md5hex (filename ++ data))), w).
Proof.
  intros Hd Hr. unfold createMigrationItem. unfold_monad.
  destruct (search_delimiter filename <? 1) eqn:E.
  - apply Z.ltb_lt in E. lia.
  - rewrite Hr. reflexivity.
Qed.

End LocatorFacts.

(** C5 (the code departs from the specification).  For [abc_x.sql] the prefix [abc]
    is no integer, yet no error is raised: the locator produces an item
    whose id is NaN. *)
Theorem createMigrationItem_unparsable_id_gives_item :
  forall (W : Type) (md5hex : string -> string) (w : World W),
    createMigrationItem md5hex fs_abc "sql" "abc_x.sql" w =
    (Ok (MigrationItem.mk NaN "abc_x.sql" "CREATE TABLE x (id int);"
           (md5hex "abc_x.sqlCREATE TABLE x (id int);")), w).
Proof. intros. reflexivity. Qed.

(** What becomes of that item: a run over the directory passes discovery
    and stops in the loop, where the subtraction from the last applied id
    gives NaN; the error it reports is the one of a break in the numbering,
    not one about the file name. *)
Lemma unparsable_id_reported_as_gap :
  let w' := snd (startMigration (referencePool acceptAll) toyDigest fs_abc
                   "sql" true (worldOf freshDb)) in
  fst (getMigrationsScripts toyDigest fs_abc "sql" (worldOf freshDb))
  = Ok [MigrationItem.mk NaN "abc_x.sql" "CREATE TABLE x (id int);"
          (toyDigest "abc_x.sqlCREATE TABLE x (id int);")] /\
  lastLog w'
  = Some (LogError ("Unable to complete database migration, cause: "
                    ++ "Invalid script ID for filename abc_x.sql, expected ID=1")) /\
  w_pool w' = freshDb.
Proof. cbv zeta. split; [|split]; reflexivity. Qed.

(* ================================================================== *)
(** ** Facts about the execution of one script *)

Section ScriptFacts.

Variable W : Type.
Variable pool : Pool W.

Lemma executeMigrationScript_unfold (m : MigrationItem.t) :
  executeMigrationScript pool m =
  try_catch
    (migrationResult <- scriptGatewayCall pool m ;;
     addMigrationEntry pool migrationResult (MigrationItem.filename m)
       (MigrationItem.hash m) ;;
     logger_info ("Script " ++ MigrationItem.filename m
                  ++ " complete successfully"))
    (fun error =>
       logger_error ("Unable to execute script " ++ MigrationItem.filename m)
         (Some error) ;;
       throw error).
Proof.
  unfold executeMigrationScript, scriptGatewayCall.
  destruct (startsWith "--AUTOCOMMIT" (MigrationItem.data m)); reflexivity.
Qed.

Lemma execute_calls (statement : string) (params : list string) (w : World W) :
  w_calls (snd (execute pool statement params w)) =
  (w_calls w ++ [PoolQuery statement params])%list.
Proof. rewrite execute_spec. reflexivity. Qed.

Lemma executeInTransaction_calls (statement : string) (w : World W) :
  exists calls,
    w_calls (snd (executeInTransaction pool statement w)) =
    (w_calls w ++ calls)%list /\
    if succeeded (fst (executeInTransaction pool statement w))
    then calls = committedTrace statement
    else In calls (failedTraces statement).
Proof.
  unfold executeInTransaction, failedTraces, committedTrace. unfold_monad.
  simpl.
  destruct (pool_connect pool (w_pool w)) as [[[] | e0] p0]; simpl.
  2:{ eexists. split; [reflexivity|]. left; reflexivity. }
  destruct (client_query pool "START TRANSACTION" p0) as [[q1 | e1] p1]; simpl.
  2:{ destruct (client_query pool "ROLLBACK" p1) as [[q2 | e2] p2]; simpl;
      (eexists; split; [rewrite <- !app_assoc; reflexivity|]);
      right; left; reflexivity. }
  destruct (client_query pool statement p1) as [[q2 | e2] p2]; simpl.
  2:{ destruct (client_query pool "ROLLBACK" p2) as [[q3 | e3] p3]; simpl;
      (eexists; split; [rewrite <- !app_assoc; reflexivity|]);
      right; right; left; reflexivity. }
  destruct (client_query pool "COMMIT" p2) as [[q3 | e3] p3]; simpl.
  2:{ destruct (client_query pool "ROLLBACK" p3) as [[q4 | e4] p4]; simpl;
      (eexists; split; [rewrite <- !app_assoc; reflexivity|]);
      right; right; right; left; reflexivity. }
  eexists; split; [rewrite <- !app_assoc; reflexivity|].
  reflexivity.
Qed.

Lemma insertCall_not_in_failedTraces (m : MigrationItem.t) (statement : string)
  (calls : list PoolCall) :
  In calls (failedTraces statement) -> ~ In (insertCall m) calls.
Proof.
  unfold failedTraces, insertCall. simpl.
  intros H Hin.
  repeat (destruct H as [H | H]; [subst calls; simpl in Hin|]);
    try contradiction;
    repeat (destruct Hin as [Hin | Hin]; [discriminate|]); contradiction.
Qed.

Lemma executeMigrationScript_spec (m : MigrationItem.t) (w : World W) :
  executeMigrationScript pool m w =
  match scriptGatewayCall pool m w with
  | (Ok migrationResult, w1) =>
      if isSuccess migrationResult then
        (Ok tt,
         mkWorld
           (snd (pool_query pool INSERT_MIGRATION_QUERY
                   [MigrationItem.filename m; MigrationItem.hash m]
                   (w_pool w1)))
           (w_log w1 ++ [LogInfo ("Script " ++ MigrationItem.filename m
                                  ++ " complete successfully")])
           (w_calls w1 ++ [insertCall m]))
      else
        let e := Error (match error migrationResult with
                        | Some msg => msg
                        | None => ""
                        end) in
        (Throw e,
         mkWorld (w_pool w1)
           (w_log w1 ++ [LogError ("Unable to execute script "
                                   ++ MigrationItem.filename m
                                   ++ ", cause: " ++ message e)])
           (w_calls w1))
  | (Throw e, w1) =>
      (Throw e,
       mkWorld (w_pool w1)
         (w_log w1 ++ [LogError ("Unable to execute script "
                                 ++ MigrationItem.filename m
                                 ++ ", cause: " ++ message e)])
         (w_calls w1))
  end.
Proof.
  rewrite executeMigrationScript_unfold.
  unfold try_catch, bind at 1.
  destruct (scriptGatewayCall pool m w) as [[r | e] w1].
  - unfold addMigrationEntry. destruct (isSuccess r).
    + unfold bind at 1 2. rewrite execute_spec. reflexivity.
    + reflexivity.
  - reflexivity.
Qed.

(** The calls of the gateway call, by path. *)
Lemma scriptGatewayCall_calls (m : MigrationItem.t) (w : World W) :
  let data := MigrationItem.data m in
  exists calls,
    w_calls (snd (scriptGatewayCall pool m w)) = (w_calls w ++ calls)%list /\
    if startsWith "--AUTOCOMMIT" data then calls = [PoolQuery data []]
    else if succeeded (fst (scriptGatewayCall pool m w))
         then calls = committedTrace data
         else In calls (failedTraces data).
Proof.
  intros data. unfold scriptGatewayCall. fold data.
  destruct (startsWith "--AUTOCOMMIT" data).
  - unfold bind, logger_info, log_append. rewrite execute_spec.
    eexists. split; reflexivity.
  - apply executeInTransaction_calls.
Qed.

End ScriptFacts.

(* ================================================================== *)
(** ** Computations that only write to the log *)

Lemma add_log_nil {W} (w : World W) : add_log [] w = w.
Proof. destruct w. unfold add_log. simpl. rewrite app_nil_r. reflexivity. Qed.

Lemma add_log_app {W} (l1 l2 : list LogEntry) (w : World W) :
  add_log l2 (add_log l1 w) = add_log (l1 ++ l2) w.
Proof. unfold add_log. simpl. rewrite app_assoc. reflexivity. Qed.

Lemma lastLog_add_log {W} (l : list LogEntry) (e : LogEntry) (w : World W) :
  lastLog (add_log (l ++ [e]) w) = Some e.
Proof.
  unfold lastLog, add_log. simpl. rewrite app_assoc, map_app. simpl.
  apply last_last.
Qed.

Create HintDb log_only.

Section LogOnly.

Variable W : Type.

Lemma log_only_ret {A} (a : A) : log_only (@ret W A a).
Proof. exists (Ok a), []. intros w. rewrite add_log_nil. reflexivity. Qed.

Lemma log_only_throw {A} (e : Exn) : log_only (@throw W A e).
Proof. exists (Throw e), []. intros w. rewrite add_log_nil. reflexivity. Qed.

Lemma log_only_lift {A} (r : Res A) : log_only (@lift W A r).
Proof. exists r, []. intros w. rewrite add_log_nil. reflexivity. Qed.

Lemma log_only_log_append (e : LogEntry) : log_only (@log_append W e).
Proof. exists (Ok tt), [e]. intros w. reflexivity. Qed.

Lemma log_only_bind {A B} (c : M W A) (k : A -> M W B) :
  log_only c -> (forall a, log_only (k a)) -> log_only (bind c k).
Proof.
  intros [r [l Hc]] Hk. destruct r as [a | e].
  - destruct (Hk a) as [r' [l' Hk']]. exists r', (l ++ l')%list.
    intros w. unfold bind. rewrite Hc, Hk', add_log_app. reflexivity.
  - exists (Throw e), l. intros w. unfold bind. rewrite Hc. reflexivity.
Qed.

Lemma log_only_try_catch {A} (c : M W A) (h : Exn -> M W A) :
  log_only c -> (forall e, log_only (h e)) -> log_only (try_catch c h).
Proof.
  intros [r [l Hc]] Hh. destruct r as [a | e].
  - exists (Ok a), l. intros w. unfold try_catch. rewrite Hc. reflexivity.
  - destruct (Hh e) as [r' [l' Hh']]. exists r', (l ++ l')%list.
    intros w. unfold try_catch. rewrite Hc, Hh', add_log_app. reflexivity.
Qed.

(** What is known at one world holds at every world. *)
Lemma log_only_fst {A} (c : M W A) (w w' : World W) :
  log_only c -> fst (c w') = fst (c w).
Proof. intros [r [l Hc]]. rewrite !Hc. reflexivity. Qed.

Lemma log_only_frame {A} (c : M W A) (w : World W) :
  log_only c ->
  w_pool (snd (c w)) = w_pool w /\ w_calls (snd (c w)) = w_calls w.
Proof. intros [r [l Hc]]. rewrite Hc. split; reflexivity. Qed.

#[local] Hint Resolve log_only_ret log_only_throw log_only_lift
  log_only_log_append : log_only.

Variable md5hex : string -> string.
Variable fs : Fs.

Lemma log_only_createMigrationItem (dirName filename : string) :
  log_only (@createMigrationItem W md5hex fs dirName filename).
Proof.
  unfold createMigrationItem.
  destruct (search_delimiter filename <? 1).
  - apply log_only_throw.
  - repeat (apply log_only_bind || apply log_only_try_catch || intros);
      auto with log_only.
Qed.

Lemma log_only_collectMigrationItems (dirPath : string) (files : list string) :
  forall result,
    log_only (@collectMigrationItems W md5hex fs dirPath files result).
Proof.
  induction files as [| file files IH]; intros result; simpl.
  - apply log_only_ret.
  - apply log_only_bind; [apply log_only_createMigrationItem | intros; apply IH].
Qed.

Lemma log_only_findMigrationScripts (dirPath : string) :
  log_only (@findMigrationScripts W md5hex fs dirPath).
Proof.
  unfold findMigrationScripts, logger_debug, logger_error.
  repeat (apply log_only_bind || apply log_only_try_catch || intros);
    auto using log_only_collectMigrationItems with log_only.
Qed.

Lemma log_only_checkIdsSequence (scripts : list MigrationItem.t) :
  forall currentId, log_only (@checkIdsSequence W scripts currentId).
Proof.
  induction scripts as [| script scripts IH]; intros currentId; simpl.
  - apply log_only_ret.
  - destruct (match currentId with
              | Some c => js_strict_neq_1 (js_sub (MigrationItem.id script) c)
              | None => false
              end); [apply log_only_throw | apply IH].
Qed.

Lemma log_only_getMigrationsScripts (migrationPath : string) :
  log_only (@getMigrationsScripts W md5hex fs migrationPath).
Proof.
  unfold getMigrationsScripts.
  apply log_only_bind; [apply log_only_findMigrationScripts|].
  intros migrationScripts. cbv zeta.
  apply log_only_bind; [apply log_only_checkIdsSequence|].
  intros _. apply log_only_ret.
Qed.

End LogOnly.

(* ================================================================== *)
(** ** Facts about the loop of [doMigration] *)

Section LoopFacts.

Variable W : Type.
Variable pool : Pool W.

(** One turn of the loop for a script with no persisted record. *)
Lemma migrateScripts_missing
  (entries : list MigrationEntry.t) (m : MigrationItem.t)
  (rest : list MigrationItem.t) (lastId : JsNumber)
  (missed : list MigrationItem.t) (w : World W) :
  findEntry entries (MigrationItem.filename m) = None ->
  migrateScripts pool entries (m :: rest) lastId missed w =
  if js_strict_neq_1 (js_sub (MigrationItem.id m) lastId) then
    (Throw (Error ("Invalid script ID for filename " ++ MigrationItem.filename m
                   ++ ", expected ID="
                   ++ js_to_string (js_add lastId (Num 1)))), w)
  else
    match executeMigrationScript pool m w with
    | (Ok _, w') =>
        migrateScripts pool entries rest (MigrationItem.id m)
          (missed ++ [m]) w'
    | (Throw e, w') => (Throw e, w')
    end.
Proof.
  intros Hfind. cbn [migrateScripts]. rewrite Hfind.
  unfold validateScriptId, bind.
  destruct (js_strict_neq_1 (js_sub (MigrationItem.id m) lastId)).
  - reflexivity.
  - cbn [ret]. destruct (executeMigrationScript pool m w) as [[[] | e] w'];
      reflexivity.
Qed.

(** One turn of the loop for a script with a persisted record. *)
Lemma migrateScripts_recorded
  (entries : list MigrationEntry.t) (m : MigrationItem.t)
  (rest : list MigrationItem.t) (lastId : JsNumber)
  (missed : list MigrationItem.t) (w : World W) (entry : MigrationEntry.t) :
  findEntry entries (MigrationItem.filename m) = Some entry ->
  migrateScripts pool entries (m :: rest) lastId missed w =
  match MigrationEntry.hash entry with
  | None =>
      migrateScripts pool entries rest lastId missed
        (snd (execute pool UPDATE_MIGRATION_ROW_HASH
                [MigrationItem.hash m; MigrationItem.filename m] w))
  | Some h =>
      if (h =? MigrationItem.hash m)%string then
        migrateScripts pool entries rest lastId missed w
      else
        (Throw (Error ("For migration script '" ++ MigrationItem.filename m
                       ++ "' was modify that not allowed")), w)
  end.
Proof.
  intros Hfind. cbn [migrateScripts]. rewrite Hfind.
  unfold updateScriptHash, bind.
  destruct (MigrationEntry.hash entry) as [h |].
  - destruct (h =? MigrationItem.hash m)%string; reflexivity.
  - rewrite execute_spec. reflexivity.
Qed.

(** The loop over [pre ++ post] is the loop over [pre], then, unless that
    one threw, the loop over [post]. *)
Lemma migrateScripts_app (entries : list MigrationEntry.t)
  (pre post : list MigrationItem.t) :
  forall (lastId : JsNumber) (missed : list MigrationItem.t) (w : World W),
    migrateScripts pool entries (pre ++ post) lastId missed w =
    match migrateScripts pool entries pre lastId missed w with
    | (Ok (lastId', missed'), w') =>
        migrateScripts pool entries post lastId' missed' w'
    | (Throw e, w') => (Throw e, w')
    end.
Proof.
  induction pre as [| m pre IH]; intros lastId missed w.
  - reflexivity.
  - rewrite <- app_comm_cons.
    destruct (findEntry entries (MigrationItem.filename m)) as [entry |] eqn:Hf.
    + rewrite !(migrateScripts_recorded _ _ _ _ _ _ _ Hf).
      destruct (MigrationEntry.hash entry) as [h |].
      * destruct (h =? MigrationItem.hash m)%string; [apply IH | reflexivity].
      * apply IH.
    + rewrite !(migrateScripts_missing _ _ _ _ _ _ Hf).
      destruct (js_strict_neq_1 (js_sub (MigrationItem.id m) lastId));
        [reflexivity|].
      destruct (executeMigrationScript pool m w) as [[[] | e] w'];
        [apply IH | reflexivity].
Qed.

End LoopFacts.


(** The calls one script makes on the pool, and how it ends. *)
Lemma executeMigrationScript_calls (W : Type) (pool : Pool W)
  (m : MigrationItem.t) (w : World W) :
  let data := MigrationItem.data m in
  let migrationResult := fst (scriptGatewayCall pool m w) in
  exists calls,
    w_calls (snd (executeMigrationScript pool m w)) =
    (w_calls w ++ calls)%list /\
    (if startsWith "--AUTOCOMMIT" data
     then calls = [PoolQuery data []] \/
          calls = [PoolQuery data []; insertCall m]
     else In calls (failedTraces data) \/
          calls = (committedTrace data ++ [insertCall m])%list) /\
    (In (insertCall m) calls <-> succeeded migrationResult = true) /\
    (if succeeded migrationResult
     then fst (executeMigrationScript pool m w) = Ok tt
     else exists e, fst (executeMigrationScript pool m w) = Throw e).
Proof.
  intros data migrationResult. subst migrationResult.
  rewrite executeMigrationScript_spec.
  destruct (scriptGatewayCall_calls W pool m w) as [calls [Hcalls Hpath]].
  fold data in Hpath.
  destruct (scriptGatewayCall pool m w) as [[r | e] w1];
    cbn [fst snd succeeded] in *.
  - destruct (isSuccess r) eqn:Er; simpl.
    + exists (calls ++ [insertCall m])%list. rewrite Hcalls, app_assoc.
      split; [reflexivity|]. split.
      * destruct (startsWith "--AUTOCOMMIT" data); subst calls; auto.
      * split; [|reflexivity]. split; [reflexivity|].
        intros _. apply in_or_app. right. left. reflexivity.
    + exists calls. split; [assumption|]. split.
      * destruct (startsWith "--AUTOCOMMIT" data); subst; auto.
      * split; [|eexists; reflexivity]. split; [|discriminate].
        intros Hin. exfalso.
        destruct (startsWith "--AUTOCOMMIT" data).
        -- subst calls. destruct Hin as [Hin | []]. discriminate.
        -- eapply insertCall_not_in_failedTraces; eassumption.
  - exists calls. split; [assumption|]. split.
    + destruct (startsWith "--AUTOCOMMIT" data); subst; auto.
    + split; [|eexists; reflexivity]. split; [|discriminate].
      intros Hin. exfalso.
      destruct (startsWith "--AUTOCOMMIT" data).
      * subst calls. destruct Hin as [Hin | []]. discriminate.
      * eapply insertCall_not_in_failedTraces; eassumption.
Qed.

(** C7.  A script whose body starts with [--AUTOCOMMIT] is run by one bare
    [pool.query] (no connection is taken, no transaction statement sent);
    any other script is run by [executeInTransaction], between START
    TRANSACTION and COMMIT.  The INSERT that records the script is issued
    exactly when the gateway returned its success variant; otherwise the
    script ends in an exception, and the loop of the run ends with it, in
    the world the script has left. *)
Theorem script_execution_policy :
  forall (W : Type) (pool : Pool W) (m : MigrationItem.t) (w : World W),
    let data := MigrationItem.data m in
    let migrationResult := fst (scriptGatewayCall pool m w) in
    exists calls,
      w_calls (snd (executeMigrationScript pool m w)) =
      (w_calls w ++ calls)%list /\
      (if startsWith "--AUTOCOMMIT" data
       then calls = [PoolQuery data []] \/
            calls = [PoolQuery data []; insertCall m]
       else In calls (failedTraces data) \/
            calls = (committedTrace data ++ [insertCall m])%list) /\
      (In (insertCall m) calls <-> succeeded migrationResult = true) /\
      (if succeeded migrationResult
       then fst (executeMigrationScript pool m w) = Ok tt
       else exists e, fst (executeMigrationScript pool m w) = Throw e) /\
      (forall (entries : list MigrationEntry.t) (rest : list MigrationItem.t)
         (lastId : JsNumber) (missed : list MigrationItem.t),
          findEntry entries (MigrationItem.filename m) = None ->
          js_sub (MigrationItem.id m) lastId = Num 1 ->
          succeeded migrationResult = false ->
          exists e,
            migrateScripts pool entries (m :: rest) lastId missed w =
            (Throw e, snd (executeMigrationScript pool m w))).
Proof.
  intros W pool m w data migrationResult.
  destruct (executeMigrationScript_calls W pool m w)
    as [calls (Hcalls & Hpath & Hinsert & Hend)].
  exists calls. repeat (split; [assumption|]).
  intros entries rest lastId missed Hfind Hid Hfail.
  rewrite (migrateScripts_missing W pool _ _ _ _ _ _ Hfind), Hid.
  cbn [js_strict_neq_1 Z.eqb Pos.eqb negb].
  fold migrationResult in Hend. rewrite Hfail in Hend.
  destruct Hend as [e He].
  destruct (executeMigrationScript pool m w) as [[[] | e'] w'];
    cbn [fst] in He; [discriminate|].
  exists e'. reflexivity.
Qed.

(* ================================================================== *)
(** ** Facts about discovery and the top level of the run *)

Section Silent.

Variable W : Type.

Lemma silent_ret {A} (a : A) : silent (@ret W A a).
Proof. exists (Ok a). reflexivity. Qed.

Lemma silent_throw {A} (e : Exn) : silent (@throw W A e).
Proof. exists (Throw e). reflexivity. Qed.

Lemma silent_lift {A} (r : Res A) : silent (@lift W A r).
Proof. exists r. reflexivity. Qed.

Lemma silent_bind {A B} (c : M W A) (k : A -> M W B) :
  silent c -> (forall a, silent (k a)) -> silent (bind c k).
Proof.
  intros [r Hc] Hk. destruct r as [a | e].
  - destruct (Hk a) as [r' Hk']. exists r'.
    intros w. unfold bind. rewrite Hc, Hk'. reflexivity.
  - exists (Throw e). intros w. unfold bind. rewrite Hc. reflexivity.
Qed.

Lemma silent_try_catch {A} (c : M W A) (h : Exn -> M W A) :
  silent c -> (forall e, silent (h e)) -> silent (try_catch c h).
Proof.
  intros [r Hc] Hh. destruct r as [a | e].
  - exists (Ok a). intros w. unfold try_catch. rewrite Hc. reflexivity.
  - destruct (Hh e) as [r' Hh']. exists r'.
    intros w. unfold try_catch. rewrite Hc, Hh'. reflexivity.
Qed.

Lemma silent_run {A} (c : M W A) (w w' : World W) :
  silent c -> c w' = (fst (c w), w').
Proof. intros [r Hc]. rewrite !Hc. reflexivity. Qed.

Variable md5hex : string -> string.
Variable fs : Fs.

Lemma silent_createMigrationItem (dirName filename : string) :
  silent (@createMigrationItem W md5hex fs dirName filename).
Proof.
  unfold createMigrationItem.
  destruct (search_delimiter filename <? 1).
  - apply silent_throw.
  - apply silent_bind.
    + apply silent_try_catch; [apply silent_ret | intros; apply silent_throw].
    + intros id. apply silent_bind; [apply silent_lift|].
      intros data. apply silent_ret.
Qed.

Lemma silent_collectMigrationItems (dirPath : string) (files : list string) :
  forall result,
    silent (@collectMigrationItems W md5hex fs dirPath files result).
Proof.
  induction files as [| file files IH]; intros result; simpl.
  - apply silent_ret.
  - apply silent_bind; [apply silent_createMigrationItem | intros; apply IH].
Qed.

Lemma silent_checkIdsSequence (scripts : list MigrationItem.t) :
  forall currentId, silent (@checkIdsSequence W scripts currentId).
Proof.
  induction scripts as [| script scripts IH]; intros currentId; simpl.
  - apply silent_ret.
  - destruct (match currentId with
              | Some c => js_strict_neq_1 (js_sub (MigrationItem.id script) c)
              | None => false
              end); [apply silent_throw | apply IH].
Qed.

Lemma findMigrationScripts_ok (dirPath : string)
  (scripts : list MigrationItem.t) (w : World W) :
  fst (findMigrationScripts md5hex fs dirPath w) = Ok scripts ->
  forall w' : World W,
    findMigrationScripts md5hex fs dirPath w' =
    (Ok scripts, add_log (discoveryLog dirPath (List.length scripts)) w').
Proof.
  unfold findMigrationScripts.
  match goal with |- context [try_catch ?c _] => set (inner := c) end.
  assert (Hs : silent inner).
  { apply silent_bind; [apply silent_lift|].
    intros files. apply silent_collectMigrationItems. }
  destruct Hs as [r Hs]. clearbody inner.
  unfold bind, try_catch, logger_debug, logger_error, log_append, throw, ret.
  rewrite Hs. destruct r as [result | e]; cbn [fst].
  - intros H. inversion H; subst. intros w'. rewrite Hs.
    unfold add_log, discoveryLog. cbn [w_pool w_log w_calls].
    rewrite <- app_assoc. reflexivity.
  - discriminate.
Qed.

End Silent.

Lemma insertScript_length (x : MigrationItem.t) (l : list MigrationItem.t) :
  List.length (insertScript x l) = S (List.length l).
Proof.
  induction l as [| y l IH]; simpl; [reflexivity|].
  destruct (js_positive (compareIds x y)); simpl; [rewrite IH|]; reflexivity.
Qed.

Lemma sortScripts_length (l : list MigrationItem.t) :
  List.length (sortScripts l) = List.length l.
Proof.
  induction l as [| x l IH]; simpl; [reflexivity|].
  rewrite insertScript_length, IH. reflexivity.
Qed.

Section SequenceCheck.

Variable W : Type.

(** When the check passes, no script breaks the sequence. *)
Lemma checkIdsSequence_passes (l : list MigrationItem.t) :
  forall (currentId : option JsNumber) (w : World W),
    fst (checkIdsSequence l currentId w) = Ok tt ->
    forall pre prev s post,
      l = (pre ++ prev :: s :: post)%list -> ~ breaksSequence prev s.
Proof.
  unfold breaksSequence.
  induction l as [| x l IH]; intros currentId w Hok pre prev s post Heq.
  - destruct pre; discriminate.
  - cbn [checkIdsSequence] in Hok.
    destruct (match currentId with
              | Some c => js_strict_neq_1 (js_sub (MigrationItem.id x) c)
              | None => false
              end); [discriminate|].
    destruct pre as [| x' pre].
    + inversion Heq; subst. cbn [checkIdsSequence] in Hok.
      destruct (js_strict_neq_1
                  (js_sub (MigrationItem.id s) (MigrationItem.id prev)));
        [discriminate | discriminate].
    + inversion Heq; subst. eapply IH; [exact Hok | reflexivity].
Qed.

End SequenceCheck.

Section RunFacts.

Variable W : Type.
Variable pool : Pool W.
Variable md5hex : string -> string.
Variable fs : Fs.
Variable migrationPath : string.

Lemma startMigration_ready (w : World W) :
  startMigration pool md5hex fs migrationPath true w =
  match getMigrationsScripts md5hex fs migrationPath (add_log startLog w) with
  | (Ok scripts, w1) =>
      reportRun
        ((if (List.length scripts =? 0)%nat then
            logger_info ("Migration scripts not found, path=" ++ migrationPath)
          else doMigration pool scripts) w1)
  | (Throw e, w1) => reportRun (Throw e, w1)
  end.
Proof.
  unfold startMigration, try_catch.
  unfold bind at 1, logger_info at 1, log_append at 1.
  unfold bind at 1. cbn [checkClientInitialisation negb ret].
  unfold bind at 1, add_log, startLog.
  match goal with
  | |- context [getMigrationsScripts ?a ?b ?c ?x] =>
      destruct (getMigrationsScripts a b c x) as [[scripts | e] w1]
  end; [|reflexivity].
  unfold bind at 1.
  match goal with
  | |- context [(if ?b then ?x else ?y) w1] =>
      destruct ((if b then x else y) w1) as [[[] | e] w2]
  end; reflexivity.
Qed.

Lemma startMigration_not_ready (w : World W) :
  startMigration pool md5hex fs migrationPath false w =
  reportRun (Throw (Error "PgMigrationClient should be initialized before use"),
             add_log startLog w).
Proof. reflexivity. Qed.

Lemma getMigrationsScripts_spec (w : World W) :
  getMigrationsScripts md5hex fs migrationPath w =
  match findMigrationScripts md5hex fs migrationPath w with
  | (Ok scripts, w1) =>
      match fst (checkIdsSequence (sortScripts scripts) None w1) with
      | Ok _ => (Ok (sortScripts scripts), w1)
      | Throw e => (Throw e, w1)
      end
  | (Throw e, w1) => (Throw e, w1)
  end.
Proof.
  unfold getMigrationsScripts. unfold bind at 1.
  destruct (findMigrationScripts md5hex fs migrationPath w)
    as [[scripts | e] w1]; [|reflexivity].
  cbv zeta. unfold bind.
  rewrite (silent_run W _ w1 w1 (silent_checkIdsSequence W _ None)).
  destruct (fst (checkIdsSequence (sortScripts scripts) None w1)); reflexivity.
Qed.

(** A successful [getMigrationsScripts] is a successful discovery whose
    sorted scripts passed the sequence check; it leaves two messages. *)
Lemma getMigrationsScripts_ok (sorted : list MigrationItem.t) (w : World W) :
  fst (getMigrationsScripts md5hex fs migrationPath w) = Ok sorted ->
  exists scripts,
    fst (findMigrationScripts md5hex fs migrationPath w) = Ok scripts /\
    sorted = sortScripts scripts /\
    fst (checkIdsSequence (sortScripts scripts) None w) = Ok tt /\
    forall w' : World W,
      getMigrationsScripts md5hex fs migrationPath w' =
      (Ok sorted,
       add_log (discoveryLog migrationPath (List.length sorted)) w').
Proof.
  rewrite getMigrationsScripts_spec.
  destruct (findMigrationScripts md5hex fs migrationPath w)
    as [[scripts | e] w1] eqn:Hfind; [|discriminate].
  assert (Hf : fst (findMigrationScripts md5hex fs migrationPath w) = Ok scripts)
    by (rewrite Hfind; reflexivity).
  destruct (fst (checkIdsSequence (sortScripts scripts) None w1)) as [[] | e]
    eqn:Hcheck; [|discriminate].
  cbn [fst]. intros H. inversion H; subst sorted. exists scripts.
  assert (Hc : forall w2 : World W,
             fst (checkIdsSequence (sortScripts scripts) None w2) = Ok tt).
  { intros w2.
    rewrite (silent_run W _ w1 w2 (silent_checkIdsSequence W _ None)).
    exact Hcheck. }
  repeat split; [apply Hc|].
  intros w'. rewrite getMigrationsScripts_spec.
  rewrite (findMigrationScripts_ok W md5hex fs _ _ _ Hf w'), Hc.
  rewrite sortScripts_length. reflexivity.
Qed.

Lemma lastEntryId_spec (entries : list MigrationEntry.t) (w : World W) :
  lastEntryId entries w =
  match entries with
  | [] => (Throw (TypeError "Cannot read properties of undefined (reading 'id')"), w)
  | entry :: _ => (Ok (Num (MigrationEntry.id (List.last entries entry))), w)
  end.
Proof.
  unfold lastEntryId. destruct entries as [| entry entries]; [reflexivity|].
  assert (H : forall (l : list MigrationEntry.t) d,
             l <> [] -> List.last (map Some l) None = Some (List.last l d)).
  { induction l as [| x l IH]; intros d Hne; [congruence|].
    destruct l as [| y l]; [reflexivity|].
    change (List.last (map Some (x :: y :: l)) None)
      with (List.last (map Some (y :: l)) None).
    change (List.last (x :: y :: l) d) with (List.last (y :: l) d).
    apply IH. discriminate. }
  rewrite (H _ entry); [reflexivity | discriminate].
Qed.

Lemma doMigration_spec (scripts : list MigrationItem.t) (w : World W)
  (q : QueryResult) (p0 : W) :
  pool_query pool SELECT_EXISTING_MIGRATIONS [] (w_pool w) = (Ok q, p0) ->
  doMigration pool scripts w =
  let w0 := mkWorld p0 (w_log w)
              (w_calls w ++ [PoolQuery SELECT_EXISTING_MIGRATIONS []]) in
  match rows q with
  | [] => (Throw (TypeError "Cannot read properties of undefined (reading 'id')"), w0)
  | entry :: _ =>
      finishLoop
        (migrateScripts pool (rows q) scripts
           (Num (MigrationEntry.id (List.last (rows q) entry))) [] w0)
  end.
Proof.
  intros Hq. unfold doMigration, getPersistedMigrations, doExecuteQuery.
  unfold bind at 1 2 3. rewrite execute_spec, Hq. cbn [fst snd toSuccess isSuccess result ret].
  unfold bind at 1. rewrite lastEntryId_spec.
  destruct (rows q) as [| entry entries] eqn:Hrows; [reflexivity|].
  cbv zeta. unfold bind.
  destruct (migrateScripts pool (entry :: entries) scripts
              (Num (MigrationEntry.id (List.last (entry :: entries) entry))) []
              {| w_pool := p0; w_log := w_log w;
                 w_calls := w_calls w ++ [PoolQuery SELECT_EXISTING_MIGRATIONS []] |})
    as [[[lastId missed] | e] w'] eqn:Hloop; cbn [finishLoop snd].
  - destruct (List.length missed =? 0)%nat; reflexivity.
  - reflexivity.
Qed.

End RunFacts.

Lemma last_default_irrelevant {A} (l : list A) (d d' : A) :
  l <> [] -> List.last l d = List.last l d'.
Proof.
  induction l as [| x l IH]; intros Hne; [congruence|].
  destruct l as [| y l]; [reflexivity|].
  change (List.last (x :: y :: l) d) with (List.last (y :: l) d).
  change (List.last (x :: y :: l) d') with (List.last (y :: l) d').
  apply IH. discriminate.
Qed.

Lemma findEntry_Some_nonempty (entries : list MigrationEntry.t) (name : string)
  (entry : MigrationEntry.t) :
  findEntry entries name = Some entry -> entries <> [].
Proof. intros H Hnil. subst. discriminate. Qed.

(** C10.  [lastEntryId] has a value exactly for a non-empty history: the
    engine relies on the sentinel row.  With an empty history and at least
    one discovered script, the run ends in an error that the top level
    catches and logs, and at most the SELECT that reads the history was
    sent to the pool, so no script was applied; when the discovered ids
    pass the sequence check, the error is the TypeError of reading [id] of
    the missing last element. *)
Theorem empty_history_aborts_run :
  forall (W : Type) (pool : Pool W) (md5hex : string -> string) (fs : Fs)
    (migrationPath : string) (w : World W)
    (scripts : list MigrationItem.t) (p0 : W),
    fst (findMigrationScripts md5hex fs migrationPath w) = Ok scripts ->
    scripts <> [] ->
    pool_query pool SELECT_EXISTING_MIGRATIONS [] (w_pool w)
    = (Ok {| rows := [] |}, p0) ->
    let w' := snd (startMigration pool md5hex fs migrationPath true w) in
    (forall (entries : list MigrationEntry.t) (w0 : World W),
        (exists n, fst (lastEntryId entries w0) = Ok n) <-> entries <> []) /\
    (exists cause,
        lastLog w' = Some (LogError ("Unable to complete database migration, cause: "
                                     ++ cause))) /\
    ((w_pool w' = w_pool w /\ w_calls w' = w_calls w) \/
     (w_pool w' = p0 /\
      w_calls w' = (w_calls w ++ [PoolQuery SELECT_EXISTING_MIGRATIONS []])%list)) /\
    (fst (checkIdsSequence (sortScripts scripts) None w) = Ok tt ->
     w' = mkWorld p0
            (w_log w ++ startLog
             ++ discoveryLog migrationPath (List.length scripts)
             ++ [LogError ("Unable to complete database migration, cause: "
                           ++ "Cannot read properties of undefined (reading 'id')")])
            (w_calls w ++ [PoolQuery SELECT_EXISTING_MIGRATIONS []])).
Proof.
  intros W pool md5hex fs path w scripts p0 Hfind Hne Hq w'. split.
  { intros entries w0. rewrite lastEntryId_spec.
    destruct entries as [| entry entries]; cbn [fst]; split.
    - intros [n H]; discriminate.
    - congruence.
    - discriminate.
    - intros _. eexists. reflexivity. }
  subst w'. rewrite startMigration_ready, getMigrationsScripts_spec.
  rewrite (findMigrationScripts_ok W md5hex fs _ _ _ Hfind).
  match goal with
  | |- context [checkIdsSequence (sortScripts scripts) None ?x] =>
      rewrite (silent_run W _ w x (silent_checkIdsSequence W _ None))
  end.
  destruct (fst (checkIdsSequence (sortScripts scripts) None w)) as [[] | e];
    cbn [fst]; cbv beta iota.
  - assert (Hlen : (List.length (sortScripts scripts) =? 0)%nat = false).
    { rewrite sortScripts_length. apply Nat.eqb_neq.
      destruct scripts; [congruence | discriminate]. }
    rewrite Hlen.
    match goal with
    | |- context [doMigration pool ?l ?x] =>
        rewrite (doMigration_spec W pool l x _ _ Hq)
    end.
    cbv zeta. cbn [rows reportRun message snd].
    split; [eexists; apply (lastLog_add_log [])|].
    split; [right; split; reflexivity|].
    intros _. unfold add_log. cbn [w_pool w_log w_calls].
    rewrite <- !app_assoc. reflexivity.
  - cbn [reportRun snd].
    split; [eexists; apply (lastLog_add_log [])|].
    split; [left; split; reflexivity|].
    discriminate.
Qed.

(** C2.  Let [m] be a discovered script whose persisted record has a
    fingerprint that differs from the script's.  The run ends in a logged
    failure, in the world the loop over the scripts before [m] has left: [m]
    and the scripts after it are neither executed nor recorded.  When the
    loop over the scripts before [m] completes, the failure is the one that
    names [m]. *)
Theorem modified_script_aborts_run :
  forall (W : Type) (pool : Pool W) (md5hex : string -> string) (fs : Fs)
    (migrationPath : string) (w : World W)
    (pre post : list MigrationItem.t) (m : MigrationItem.t)
    (q : QueryResult) (p0 : W) (entry : MigrationEntry.t) (h : string),
    fst (getMigrationsScripts md5hex fs migrationPath w)
    = Ok (pre ++ m :: post)%list ->
    pool_query pool SELECT_EXISTING_MIGRATIONS [] (w_pool w) = (Ok q, p0) ->
    findEntry (rows q) (MigrationItem.filename m) = Some entry ->
    MigrationEntry.hash entry = Some h ->
    h <> MigrationItem.hash m ->
    let w0 :=
      mkWorld p0
        (w_log w ++ startLog
         ++ discoveryLog migrationPath (List.length (pre ++ m :: post)))
        (w_calls w ++ [PoolQuery SELECT_EXISTING_MIGRATIONS []]) in
    let before :=
      migrateScripts pool (rows q) pre
        (Num (MigrationEntry.id (List.last (rows q) entry))) [] w0 in
    exists cause,
      startMigration pool md5hex fs migrationPath true w =
      (Ok tt,
       add_log [LogError ("Unable to complete database migration, cause: "
                          ++ cause)] (snd before)) /\
      (forall r, fst before = Ok r ->
                 cause = "For migration script '" ++ MigrationItem.filename m
                         ++ "' was modify that not allowed").
Proof.
  intros W pool md5hex fs path w pre post m q p0 entry h
    Hget Hq Hfind Hhash Hneq w0 before.
  destruct (getMigrationsScripts_ok W md5hex fs path _ _ Hget)
    as [found [_ [_ [_ Hrun]]]].
  rewrite startMigration_ready, Hrun.
  assert (Hlen : (List.length (pre ++ m :: post) =? 0)%nat = false).
  { rewrite length_app. cbn [List.length]. apply Nat.eqb_neq. lia. }
  rewrite Hlen.
  match goal with
  | |- context [doMigration pool ?l ?x] =>
      rewrite (doMigration_spec W pool l x _ _ Hq)
  end.
  cbv zeta.
  pose proof (findEntry_Some_nonempty _ _ _ Hfind) as Hne.
  destruct (rows q) as [| entry0 entries] eqn:Hrows; [congruence|].
  rewrite (last_default_irrelevant _ entry0 entry Hne).
  match goal with
  | |- context [migrateScripts pool _ _ _ _ ?x] =>
      replace x with w0
        by (unfold w0, add_log; cbn [w_pool w_log w_calls];
            rewrite <- !app_assoc; reflexivity)
  end.
  rewrite migrateScripts_app. fold before.
  destruct before as [[[lastId missed] | e] w1] eqn:Hbefore; cbv beta iota.
  - rewrite (migrateScripts_recorded W pool _ _ _ _ _ _ _ Hfind), Hhash.
    destruct (h =? MigrationItem.hash m)%string eqn:E;
      [apply String.eqb_eq in E; congruence|].
    eexists. split; [reflexivity|]. intros r _. reflexivity.
  - exists (message e). split; [reflexivity|]. intros r H. discriminate.
Qed.

(* ================================================================== *)
(** ** Facts about runs against the reference database *)

Lemma insertEntry_perm (x : MigrationEntry.t) (l : list MigrationEntry.t) :
  Permutation (insertEntry x l) (x :: l).
Proof.
  induction l as [| y l IH]; simpl; [apply Permutation_refl|].
  destruct (MigrationEntry.id y <? MigrationEntry.id x).
  - eapply Permutation_trans; [apply perm_skip, IH | apply perm_swap].
  - apply Permutation_refl.
Qed.

Lemma orderById_perm (l : list MigrationEntry.t) : Permutation (orderById l) l.
Proof.
  induction l as [| x l IH]; simpl; [apply perm_nil|].
  eapply Permutation_trans; [apply insertEntry_perm | apply perm_skip, IH].
Qed.

(** With unique file names, [find] returns the record of that name. *)
Lemma findEntry_unique (entries : list MigrationEntry.t)
  (entry : MigrationEntry.t) :
  NoDup (map MigrationEntry.filename entries) ->
  In entry entries ->
  findEntry entries (MigrationEntry.filename entry) = Some entry.
Proof.
  unfold findEntry.
  induction entries as [| x entries IH]; intros Hnd Hin; [contradiction|].
  inversion Hnd as [| ? ? Hnotin Hnd']; subst. cbn [find].
  destruct Hin as [Heq | Hin].
  - subst x. rewrite String.eqb_refl. reflexivity.
  - destruct (MigrationEntry.filename x =? MigrationEntry.filename entry)%string
      eqn:E.
    + apply String.eqb_eq in E. exfalso. apply Hnotin. rewrite E.
      apply in_map. exact Hin.
    + apply IH; assumption.
Qed.

Lemma findEntry_None (entries : list MigrationEntry.t) (name : string) :
  ~ In name (map MigrationEntry.filename entries) ->
  findEntry entries name = None.
Proof.
  unfold findEntry. induction entries as [| x entries IH]; intros Hnotin;
    [reflexivity|].
  cbn [find].
  destruct (MigrationEntry.filename x =? name)%string eqn:E.
  - apply String.eqb_eq in E. exfalso. apply Hnotin. left. exact E.
  - apply IH. intros Hin. apply Hnotin. right. exact Hin.
Qed.

Section AlreadyApplied.

Variable W : Type.
Variable pool : Pool W.

(** Scripts that are all recorded with their current fingerprint go
    through the loop without any effect. *)
Lemma migrateScripts_all_applied (entries : list MigrationEntry.t)
  (l : list MigrationItem.t) :
  forall (lastId : JsNumber) (missed : list MigrationItem.t) (w : World W),
    (forall m, In m l ->
       exists entry,
         findEntry entries (MigrationItem.filename m) = Some entry /\
         MigrationEntry.hash entry = Some (MigrationItem.hash m)) ->
    migrateScripts pool entries l lastId missed w = (Ok (lastId, missed), w).
Proof.
  induction l as [| m l IH]; intros lastId missed w Hall; [reflexivity|].
  destruct (Hall m (or_introl eq_refl)) as [entry [Hfind Hhash]].
  rewrite (migrateScripts_recorded W pool _ _ _ _ _ _ _ Hfind), Hhash.
  rewrite String.eqb_refl. apply IH.
  intros m' Hin. apply Hall. right. exact Hin.
Qed.

End AlreadyApplied.

Lemma insertScript_perm (x : MigrationItem.t) (l : list MigrationItem.t) :
  Permutation (insertScript x l) (x :: l).
Proof.
  induction l as [| y l IH]; simpl; [apply Permutation_refl|].
  destruct (js_positive (compareIds x y)).
  - eapply Permutation_trans; [apply perm_skip, IH | apply perm_swap].
  - apply Permutation_refl.
Qed.

Lemma sortScripts_perm (l : list MigrationItem.t) :
  Permutation (sortScripts l) l.
Proof.
  induction l as [| x l IH]; simpl; [apply perm_nil|].
  eapply Permutation_trans; [apply insertScript_perm | apply perm_skip, IH].
Qed.

(** C8.  Against the reference database: when every discovered script has a
    record of its file name whose fingerprint is the script's, a run (of a
    ready engine or not) leaves the database exactly as it was, records
    included, and sends nothing to the pool but the SELECT that reads the
    history: no script is executed. *)
Theorem rerun_changes_nothing :
  forall (sql_ok : list string -> string -> bool)
    (md5hex : string -> string) (fs : Fs) (migrationPath : string)
    (initialized : bool) (w : World Db) (table : list MigrationEntry.t),
    migrations (w_pool w) = Some table ->
    NoDup (map MigrationEntry.filename table) ->
    (forall scripts m,
        fst (findMigrationScripts md5hex fs migrationPath w) = Ok scripts ->
        In m scripts ->
        exists entry,
          In entry table /\
          MigrationEntry.filename entry = MigrationItem.filename m /\
          MigrationEntry.hash entry = Some (MigrationItem.hash m)) ->
    let w' := snd (startMigration (referencePool sql_ok) md5hex fs
                     migrationPath initialized w) in
    w_pool w' = w_pool w /\
    (w_calls w' = w_calls w \/
     w_calls w' =
     (w_calls w ++ [PoolQuery SELECT_EXISTING_MIGRATIONS []])%list).
Proof.
  intros sql_ok md5hex fs path initialized w table Htable Hnd Hrec.
  destruct initialized.
  2:{ rewrite startMigration_not_ready. cbn. auto. }
  rewrite startMigration_ready.
  destruct (getMigrationsScripts md5hex fs path (add_log startLog w))
    as [[sorted | e] w1] eqn:Hget.
  2:{ destruct (log_only_frame Db _ (add_log startLog w)
                  (log_only_getMigrationsScripts Db md5hex fs path))
        as [Hp Hc].
      rewrite Hget in Hp, Hc. cbn in *. auto. }
  assert (Hget' : fst (getMigrationsScripts md5hex fs path (add_log startLog w))
                  = Ok sorted) by (rewrite Hget; reflexivity).
  destruct (getMigrationsScripts_ok Db md5hex fs path _ _ Hget')
    as [scripts [Hfind [Hsorted [_ Hrun]]]].
  rewrite Hrun in Hget. inversion Hget; subst w1. clear Hget.
  rewrite <- (log_only_fst Db _ (add_log startLog w) w
                (log_only_findMigrationScripts Db md5hex fs path)) in Hfind.
  destruct (List.length sorted =? 0)%nat.
  { cbn. auto. }
  assert (Hq : pool_query (referencePool sql_ok) SELECT_EXISTING_MIGRATIONS []
                 (w_pool w)
               = (Ok {| rows := orderById table |}, w_pool w)).
  { cbn. unfold db_select. rewrite Htable. reflexivity. }
  match goal with
  | |- context [doMigration ?p ?l ?x] =>
      rewrite (doMigration_spec Db p l x _ _ Hq)
  end.
  cbv zeta. cbn [rows].
  destruct (orderById table) as [| entry0 entries] eqn:Hord.
  { cbn. auto. }
  rewrite migrateScripts_all_applied.
  - cbn. destruct (List.length (@nil MigrationItem.t) =? 0)%nat; cbn; auto.
  - intros m Hin.
    assert (Hin' : In m scripts).
    { eapply Permutation_in; [apply sortScripts_perm|].
      rewrite <- Hsorted. exact Hin. }
    destruct (Hrec scripts m Hfind Hin') as [entry [Hent [Hname Hhash]]].
    exists entry. split; [|exact Hhash].
    rewrite <- Hname, <- Hord. apply findEntry_unique.
    + eapply Permutation_NoDup; [|exact Hnd].
      apply Permutation_map, Permutation_sym, orderById_perm.
    + eapply Permutation_in; [apply Permutation_sym, orderById_perm|].
      exact Hent.
Qed.

(** [UPDATE ... WHERE filename] touches the rows of that name only, and
    only their fingerprint. *)
Lemma setHash_spec (hash filename : string) (e : MigrationEntry.t) :
  MigrationEntry.id (setHash hash filename e) = MigrationEntry.id e /\
  MigrationEntry.filename (setHash hash filename e) = MigrationEntry.filename e /\
  MigrationEntry.timestamp (setHash hash filename e)
  = MigrationEntry.timestamp e /\
  MigrationEntry.hash (setHash hash filename e)
  = if (MigrationEntry.filename e =? filename)%string then Some hash
    else MigrationEntry.hash e.
Proof.
  unfold setHash.
  destruct (MigrationEntry.filename e =? filename)%string; cbn; auto.
Qed.

(** C6.  When the loop of the run comes to a discovered script [m] whose
    persisted record has a null fingerprint, it sends one UPDATE that sets
    the fingerprint of the rows of that file name to the script's, sends
    nothing else for [m] (its body is not executed), and goes on with the
    scripts after [m], the two loop variables unchanged and whatever the
    outcome of the UPDATE, which is not looked at.  On the reference
    database the UPDATE is accepted and gives the rows of that file name
    the script's fingerprint (ids, names and timestamps stay). *)
Theorem legacy_record_is_backfilled :
  forall (W : Type) (pool : Pool W) (md5hex : string -> string) (fs : Fs)
    (migrationPath : string) (w w1 : World W)
    (pre post : list MigrationItem.t) (m : MigrationItem.t)
    (q : QueryResult) (p0 : W) (entry : MigrationEntry.t)
    (lastId1 : JsNumber) (missed1 : list MigrationItem.t),
    let entries := rows q in
    let w0 :=
      mkWorld p0
        (w_log w ++ startLog
         ++ discoveryLog migrationPath (List.length (pre ++ m :: post)))
        (w_calls w ++ [PoolQuery SELECT_EXISTING_MIGRATIONS []]) in
    fst (getMigrationsScripts md5hex fs migrationPath w)
    = Ok (pre ++ m :: post)%list ->
    pool_query pool SELECT_EXISTING_MIGRATIONS [] (w_pool w) = (Ok q, p0) ->
    findEntry entries (MigrationItem.filename m) = Some entry ->
    MigrationEntry.hash entry = None ->
    migrateScripts pool entries pre
      (Num (MigrationEntry.id (List.last entries entry))) [] w0
    = (Ok (lastId1, missed1), w1) ->
    let update :=
      pool_query pool UPDATE_MIGRATION_ROW_HASH
        [MigrationItem.hash m; MigrationItem.filename m] (w_pool w1) in
    let w2 :=
      mkWorld (snd update) (w_log w1) (w_calls w1 ++ [backfillCall m]) in
    startMigration pool md5hex fs migrationPath true w =
    reportRun (finishLoop (migrateScripts pool entries post lastId1 missed1 w2))
    /\
    forall (sql_ok : list string -> string -> bool) (db : Db)
      (table : list MigrationEntry.t),
      migrations db = Some table ->
      pool_query (referencePool sql_ok) UPDATE_MIGRATION_ROW_HASH
        [MigrationItem.hash m; MigrationItem.filename m] db
      = (Ok {| rows := [] |},
         mkDb (Some (map (setHash (MigrationItem.hash m)
                            (MigrationItem.filename m)) table))
           (serial db) (clock db) (committed db) (transaction db)).
Proof.
  intros W pool md5hex fs path w w1 pre post m q p0 entry lastId1 missed1
    entries w0 Hget Hq Hfind Hhash Hbefore update w2.
  split.
  - destruct (getMigrationsScripts_ok W md5hex fs path _ _ Hget)
      as [found [_ [_ [_ Hrun]]]].
    rewrite startMigration_ready, Hrun.
    assert (Hlen : (List.length (pre ++ m :: post) =? 0)%nat = false).
    { rewrite length_app. cbn [List.length]. apply Nat.eqb_neq. lia. }
    rewrite Hlen.
    match goal with
    | |- context [doMigration pool ?l ?x] =>
        rewrite (doMigration_spec W pool l x _ _ Hq)
    end.
    cbv zeta. fold entries.
    pose proof (findEntry_Some_nonempty _ _ _ Hfind) as Hne.
    destruct entries as [| entry0 entries'] eqn:Hentries; [congruence|].
    rewrite (last_default_irrelevant _ entry0 entry Hne).
    match goal with
    | |- context [migrateScripts pool _ _ _ _ ?x] =>
        replace x with w0
          by (unfold w0, add_log; cbn [w_pool w_log w_calls];
              rewrite <- !app_assoc; reflexivity)
    end.
    rewrite migrateScripts_app, Hbefore.
    rewrite (migrateScripts_recorded W pool _ _ _ _ _ _ _ Hfind), Hhash.
    rewrite execute_spec. reflexivity.
  - intros sql_ok db table Htable. cbn. unfold db_update. rewrite Htable.
    reflexivity.
Qed.

(* ------------------------------------------------------------------ *)
(** *** What discovery gives *)

Section DiscoveryFacts.

Variable W : Type.
Variable md5hex : string -> string.
Variable fs : Fs.

Lemma createMigrationItem_wellFormed (dirName filename : string)
  (w : World W) (m : MigrationItem.t) :
  fst (createMigrationItem md5hex fs dirName filename w) = Ok m ->
  wellFormed m.
Proof.
  unfold createMigrationItem.
  destruct (search_delimiter filename <? 1) eqn:E; [discriminate|].
  apply Z.ltb_ge in E.
  unfold bind, try_catch, ret, lift.
  destruct (readFile fs (path_join dirName filename)) as [data | e];
    [|discriminate].
  cbn [fst]. intros H. inversion H; subst. split; [exact E | reflexivity].
Qed.

Lemma collectMigrationItems_wellFormed (dirPath : string)
  (files : list string) :
  forall (result items : list MigrationItem.t) (w : World W),
    Forall wellFormed result ->
    fst (collectMigrationItems md5hex fs dirPath files result w) = Ok items ->
    Forall wellFormed items.
Proof.
  induction files as [| file files IH]; intros result items w Hres Hok.
  - cbn in Hok. inversion Hok; subst. exact Hres.
  - cbn [collectMigrationItems] in Hok. unfold bind in Hok.
    destruct (createMigrationItem md5hex fs dirPath file w)
      as [[m | e] w1] eqn:Hm; [|discriminate].
    apply (IH (result ++ [m])%list items w1); [|exact Hok].
    apply Forall_app. split; [exact Hres|].
    constructor; [|constructor].
    apply (createMigrationItem_wellFormed dirPath file w).
    rewrite Hm. reflexivity.
Qed.

Lemma findMigrationScripts_wellFormed (dirPath : string) (w : World W)
  (scripts : list MigrationItem.t) :
  fst (findMigrationScripts md5hex fs dirPath w) = Ok scripts ->
  Forall wellFormed scripts.
Proof.
  unfold findMigrationScripts.
  unfold bind at 1, logger_debug at 1, log_append at 1.
  unfold bind at 1, try_catch. unfold bind at 1, lift.
  destruct (readDir fs dirPath) as [files | e].
  - match goal with
    | |- context [collectMigrationItems md5hex fs dirPath files [] ?x] =>
        destruct (collectMigrationItems md5hex fs dirPath files [] x)
          as [[result | e] w1] eqn:Hc
    end.
    + unfold bind, logger_debug, log_append, ret. cbn [fst].
      intros H. inversion H; subst.
      eapply collectMigrationItems_wellFormed; [constructor|].
      rewrite Hc. reflexivity.
    + unfold bind, logger_error, log_append, throw. cbn. discriminate.
  - unfold bind, logger_error, log_append, throw. cbn. discriminate.
Qed.

End DiscoveryFacts.

(** The id is a function of the file name, so distinct ids come from
    distinct names. *)
Lemma wellFormed_filenames_NoDup (l : list MigrationItem.t) :
  Forall wellFormed l ->
  NoDup (map MigrationItem.id l) ->
  NoDup (map MigrationItem.filename l).
Proof.
  induction l as [| m l IH]; intros Hwf Hnd; [constructor|].
  inversion Hwf as [| ? ? Hm Hl]; subst.
  inversion Hnd as [| ? ? Hnotin Hnd']; subst.
  cbn [map]. constructor; [|apply IH; assumption].
  intros Hin. apply Hnotin.
  apply in_map_iff in Hin. destruct Hin as [m' [Hname Hin']].
  apply in_map_iff. exists m'. split; [|exact Hin'].
  rewrite Forall_forall in Hl. destruct (Hl m' Hin') as [_ Hid'].
  destruct Hm as [_ Hid]. rewrite Hid, Hid', Hname. reflexivity.
Qed.

(* ------------------------------------------------------------------ *)
(** *** Sorting scripts whose ids are numbers *)

Lemma idsFrom_bounds (n : nat) :
  forall a z, In z (idsFrom a n) -> a <= z < a + Z.of_nat n.
Proof.
  induction n as [| n IH]; intros a z Hin; [contradiction|].
  destruct Hin as [Heq | Hin].
  - subst. lia.
  - apply IH in Hin. lia.
Qed.

Lemma idsFrom_sorted (n : nat) :
  forall a, StronglySorted Z.le (idsFrom a n).
Proof.
  induction n as [| n IH]; intros a; cbn; constructor; [apply IH|].
  apply Forall_forall. intros z Hin. apply idsFrom_bounds in Hin. lia.
Qed.

Lemma idsFrom_NoDup (n : nat) : forall a, NoDup (idsFrom a n).
Proof.
  induction n as [| n IH]; intros a; cbn; constructor; [|apply IH].
  intros Hin. apply idsFrom_bounds in Hin. lia.
Qed.

Lemma idsFrom_length (n : nat) : forall a, List.length (idsFrom a n) = n.
Proof. induction n as [| n IH]; intros a; cbn; [|rewrite IH]; reflexivity. Qed.

(** Two sorted lists of integers with the same elements are equal. *)
Lemma sorted_permutation_unique (l1 : list Z) :
  forall l2,
    StronglySorted Z.le l1 -> StronglySorted Z.le l2 ->
    Permutation l1 l2 -> l1 = l2.
Proof.
  induction l1 as [| x l1 IH]; intros l2 Hs1 Hs2 Hp.
  - apply Permutation_nil in Hp. subst. reflexivity.
  - destruct l2 as [| y l2].
    + apply Permutation_sym, Permutation_nil in Hp. discriminate.
    + inversion Hs1 as [| ? ? Hs1' Hx]; subst.
      inversion Hs2 as [| ? ? Hs2' Hy]; subst.
      rewrite Forall_forall in Hx, Hy.
      assert (Hxy : x = y).
      { assert (Hin1 : In y (x :: l1))
          by (eapply Permutation_in; [apply Permutation_sym, Hp | left; reflexivity]).
        assert (Hin2 : In x (y :: l2))
          by (eapply Permutation_in; [apply Hp | left; reflexivity]).
        destruct Hin1 as [-> | Hin1]; [reflexivity|].
        destruct Hin2 as [<- | Hin2]; [reflexivity|].
        apply Hx in Hin1. apply Hy in Hin2. lia. }
      subst y. f_equal. apply IH; try assumption.
      eapply Permutation_cons_inv. exact Hp.
Qed.

Lemma insertScript_sorted (x : MigrationItem.t) (l : list MigrationItem.t) :
  hasNumId x -> Forall hasNumId l ->
  StronglySorted Z.le (map numId l) ->
  StronglySorted Z.le (map numId (insertScript x l)).
Proof.
  intros Hx. induction l as [| y l IH]; intros Hl Hs.
  - cbn. constructor; constructor.
  - inversion Hl as [| ? ? Hy Hl']; subst.
    cbn [map] in Hs. inversion Hs as [| ? ? Hs' Hall]; subst.
    cbn [insertScript]. unfold compareIds. rewrite Hx, Hy. cbn [js_sub js_positive].
    destruct (0 <? numId x - numId y) eqn:E.
    + apply Z.ltb_lt in E. cbn [map]. constructor; [apply IH; assumption|].
      apply Forall_forall. intros z Hin.
      apply in_map_iff in Hin. destruct Hin as [m [Hz Hin]]. subst z.
      eapply Permutation_in in Hin; [|apply insertScript_perm].
      destruct Hin as [-> | Hin]; [lia|].
      rewrite Forall_forall in Hall. apply Hall. apply in_map. exact Hin.
    + apply Z.ltb_ge in E. cbn [map]. constructor; [exact Hs|].
      constructor; [lia|].
      rewrite Forall_forall in Hall |- *. intros z Hin.
      specialize (Hall z Hin). lia.
Qed.

Lemma sortScripts_sorted (l : list MigrationItem.t) :
  Forall hasNumId l -> StronglySorted Z.le (map numId (sortScripts l)).
Proof.
  induction l as [| x l IH]; intros Hl; [constructor|].
  inversion Hl as [| ? ? Hx Hl']; subst. cbn [sortScripts fold_right].
  apply insertScript_sorted; [exact Hx | | apply IH; exact Hl'].
  apply Forall_forall. intros m Hin.
  rewrite Forall_forall in Hl'. apply Hl'.
  eapply Permutation_in; [apply sortScripts_perm | exact Hin].
Qed.

(** Scripts whose ids are [1..N] in some order come out of the sort with
    ids [1..N] in that order. *)
Lemma sortScripts_contiguous (scripts : list MigrationItem.t) (a : Z) :
  Permutation (map MigrationItem.id scripts)
    (map Num (idsFrom a (List.length scripts))) ->
  map MigrationItem.id (sortScripts scripts)
  = map Num (idsFrom a (List.length scripts)).
Proof.
  intros Hp.
  assert (Hnum : Forall hasNumId scripts).
  { apply Forall_forall. intros m Hin.
    assert (Hi : In (MigrationItem.id m) (map Num (idsFrom a (List.length scripts))))
      by (eapply Permutation_in; [exact Hp | apply in_map; exact Hin]).
    apply in_map_iff in Hi. destruct Hi as [z [Hz _]].
    unfold hasNumId, numId. rewrite <- Hz. reflexivity. }
  assert (Hids : forall l, Forall hasNumId l ->
                           map MigrationItem.id l = map Num (map numId l)).
  { induction l as [| m l IH]; intros Hl; [reflexivity|].
    inversion Hl as [| ? ? Hm Hl']; subst. cbn [map].
    rewrite <- IH, <- Hm by assumption. reflexivity. }
  assert (Hnum' : Forall hasNumId (sortScripts scripts)).
  { apply Forall_forall. intros m Hin. rewrite Forall_forall in Hnum.
    apply Hnum. eapply Permutation_in; [apply sortScripts_perm | exact Hin]. }
  rewrite (Hids _ Hnum'). f_equal.
  apply sorted_permutation_unique.
  - apply sortScripts_sorted. exact Hnum.
  - apply idsFrom_sorted.
  - assert (Hinj : forall l1 l2, Permutation (map Num l1) (map Num l2) ->
                                 Permutation l1 l2).
    { intros l1 l2 H.
      apply (Permutation_map (fun j => match j with Num z => z | NaN => 0 end)) in H.
      rewrite !map_map in H. cbn in H. rewrite !map_id in H. exact H. }
    apply Hinj. rewrite <- (Hids _ Hnum').
    eapply Permutation_trans; [|exact Hp].
    apply Permutation_map, sortScripts_perm.
Qed.

Lemma checkIdsSequence_contiguous (W : Type) (l : list MigrationItem.t) :
  forall (a : Z) (currentId : option JsNumber) (w : World W),
    map MigrationItem.id l = map Num (idsFrom a (List.length l)) ->
    currentId = None \/ currentId = Some (Num (a - 1)) ->
    checkIdsSequence l currentId w = (Ok tt, w).
Proof.
  induction l as [| m l IH]; intros a currentId w Hids Hcur; [reflexivity|].
  cbn [List.length idsFrom map] in Hids. inversion Hids as [[Hm Hl]].
  cbn [checkIdsSequence]. rewrite Hm.
  assert (Hpass : match currentId with
                  | Some c => js_strict_neq_1 (js_sub (Num a) c)
                  | None => false
                  end = false).
  { destruct Hcur as [-> | ->]; [reflexivity|]. cbn.
    replace (a - (a - 1)) with 1 by lia. reflexivity. }
  rewrite Hpass. apply (IH (a + 1)); [exact Hl|].
  right. f_equal. f_equal. lia.
Qed.

(* ------------------------------------------------------------------ *)
(** *** The first script that breaks the sequence *)

Lemma continues_app (l1 : list MigrationItem.t) :
  forall (p x : MigrationItem.t) (l2 : list MigrationItem.t),
    continues p (l1 ++ x :: l2)
    = continues p (l1 ++ [x]) && continues x l2.
Proof.
  induction l1 as [| c l1 IH]; intros p x l2; cbn [app continues].
  - rewrite andb_true_r. reflexivity.
  - rewrite IH, andb_assoc. reflexivity.
Qed.

Lemma unbroken_app (l1 : list MigrationItem.t) (x : MigrationItem.t)
  (l2 : list MigrationItem.t) :
  unbroken (l1 ++ x :: l2) = unbroken (l1 ++ [x]) && continues x l2.
Proof.
  destruct l1 as [| c l1]; cbn [app unbroken continues]; [reflexivity|].
  apply continues_app.
Qed.

(** A list that holds a script breaking the sequence is broken. *)
Lemma unbroken_break (pre : list MigrationItem.t) (a b : MigrationItem.t)
  (post : list MigrationItem.t) :
  breaksSequence a b -> unbroken (pre ++ a :: b :: post) = false.
Proof.
  unfold breaksSequence. intros Hbreak.
  rewrite unbroken_app. cbn [continues]. rewrite Hbreak.
  cbn [negb andb]. apply andb_false_r.
Qed.

(** The sequence check, started after the script [p], throws at the first
    script that breaks the sequence. *)
Lemma checkIdsSequence_first_break (W : Type) (l : list MigrationItem.t) :
  forall (p : MigrationItem.t) (w : World W) (e : Exn),
    fst (checkIdsSequence l (Some (MigrationItem.id p)) w) = Throw e ->
    exists pre prev s post,
      p :: l = (pre ++ prev :: s :: post)%list /\
      unbroken (pre ++ [prev]) = true /\
      breaksSequence prev s /\
      e = Error ("Invalid script IDs sequence for filename "
                 ++ MigrationItem.filename s).
Proof.
  induction l as [| s0 l IH]; intros p w e Hthrow; [discriminate|].
  cbn [checkIdsSequence] in Hthrow.
  destruct (js_strict_neq_1
              (js_sub (MigrationItem.id s0) (MigrationItem.id p))) eqn:Hb.
  - inversion Hthrow; subst. exists [], p, s0, l.
    repeat split. exact Hb.
  - destruct (IH s0 w e Hthrow) as [pre [prev [s [post [Heq [Hu [Hbr He]]]]]]].
    exists (p :: pre), prev, s, post. rewrite Heq.
    split; [reflexivity|]. split; [|split; assumption].
    destruct pre as [| c pre].
    + cbn [app] in Heq. inversion Heq; subst prev.
      cbn [app unbroken continues]. rewrite Hb. reflexivity.
    + cbn [app] in Heq. inversion Heq; subst c.
      cbn [app unbroken continues] in Hu |- *. rewrite Hb, Hu. reflexivity.
Qed.

(** The first break comes no later than any other break. *)
Lemma first_break_position (pre pre' post post' : list MigrationItem.t)
  (a b prev s : MigrationItem.t) :
  (pre ++ a :: b :: post)%list = (pre' ++ prev :: s :: post')%list ->
  breaksSequence a b ->
  unbroken (pre' ++ [prev]) = true ->
  (List.length pre' <= List.length pre)%nat.
Proof.
  intros Heq Hbreak Hu.
  apply app_eq_app in Heq. destruct Heq as [l [[Hpre Hrest] | [Hpre Hrest]]].
  - rewrite Hpre, length_app. lia.
  - destruct l as [| c l]; [rewrite Hpre, app_nil_r; lia|].
    exfalso. cbn [app] in Hrest. inversion Hrest as [[Hc Hrest']]. subst c.
    destruct l as [| c l].
    + cbn [app] in Hrest'. inversion Hrest' as [[Hb Hpost]].
      rewrite Hpre, <- Hb, <- app_assoc in Hu. cbn [app] in Hu.
      rewrite (unbroken_break pre a b [] Hbreak) in Hu. discriminate.
    + cbn [app] in Hrest'. inversion Hrest' as [[Hc Hrest'']]. subst c.
      rewrite Hpre, <- !app_assoc in Hu. cbn [app] in Hu.
      rewrite (unbroken_break pre a b (l ++ [prev]) Hbreak) in Hu.
      discriminate.
Qed.

Lemma app_eq_length_inv {A} (l1 l1' l2 l2' : list A) :
  List.length l1 = List.length l1' ->
  (l1 ++ l2 = l1' ++ l2')%list -> l1 = l1' /\ l2 = l2'.
Proof.
  revert l1'. induction l1 as [| x l1 IH]; intros [| x' l1'] Hlen Heq;
    try discriminate.
  - split; [reflexivity | exact Heq].
  - cbn in Hlen, Heq. inversion Heq as [[Hx Htl]]. subst x'.
    destruct (IH l1') as [Ha Hb]; [lia | exact Htl|].
    subst. split; reflexivity.
Qed.

(** Two neighbours of a sorted list are in order. *)
Lemma sorted_neighbours (pre : list Z) :
  forall (x y : Z) (post : list Z),
    StronglySorted Z.le (pre ++ x :: y :: post) -> x <= y.
Proof.
  induction pre as [| c pre IH]; intros x y post Hs; cbn [app] in Hs.
  - inversion Hs as [| ? ? _ Hall]; subst.
    inversion Hall; assumption.
  - inversion Hs; subst. eapply IH. eassumption.
Qed.

Lemma safe_id_is_number (m : MigrationItem.t) :
  isSafeInteger (MigrationItem.id m) = true -> hasNumId m.
Proof.
  unfold hasNumId, numId. destruct (MigrationItem.id m); [discriminate|].
  reflexivity.
Qed.

(** C3.  The discovered scripts have ids that are integers below 2^53, and
    in ascending order of id two neighbours [a] and [b] have ids that
    differ by more than one.  Then the run of a ready engine fails the
    sequence check and ends there: the failure it logs names the first
    script, in ascending order of id, that does not have the id of its
    predecessor plus one (it repeats that id or leaves a gap after it); that
    script comes no later than [b], and it is [b] when the ids up to [a]
    are consecutive.  No call was made on the pool, whose state (the
    persisted records) is the one before the run. *)
Theorem sequence_gap_aborts_before_execution :
  forall (W : Type) (pool : Pool W) (md5hex : string -> string) (fs : Fs)
    (migrationPath : string) (w : World W)
    (scripts pre post : list MigrationItem.t) (a b : MigrationItem.t)
    (x y : Z),
    fst (findMigrationScripts md5hex fs migrationPath w) = Ok scripts ->
    Forall (fun m => isSafeInteger (MigrationItem.id m) = true) scripts ->
    sortScripts scripts = (pre ++ a :: b :: post)%list ->
    MigrationItem.id a = Num x ->
    MigrationItem.id b = Num y ->
    1 < y - x ->
    exists pre' prev script post' x' y',
      sortScripts scripts = (pre' ++ prev :: script :: post')%list /\
      unbroken (pre' ++ [prev]) = true /\
      breaksSequence prev script /\
      MigrationItem.id prev = Num x' /\
      MigrationItem.id script = Num y' /\
      (y' = x' \/ 1 < y' - x') /\
      (List.length pre' <= List.length pre)%nat /\
      (unbroken (pre ++ [a]) = true -> pre' = pre /\ script = b) /\
      let w' := snd (startMigration pool md5hex fs migrationPath true w) in
      w' = add_log
             (startLog
              ++ discoveryLog migrationPath (List.length scripts)
              ++ [LogError ("Unable to complete database migration, cause: "
                            ++ "Invalid script IDs sequence for filename "
                            ++ MigrationItem.filename script)])%list w /\
      w_pool w' = w_pool w /\
      w_calls w' = w_calls w.
Proof.
  intros W pool md5hex fs path w scripts pre post a b x y
    Hfind Hsafe Hsorted Ha Hb Hgap.
  assert (Hbreak : breaksSequence a b).
  { unfold breaksSequence. rewrite Ha, Hb. cbn.
    destruct (y - x =? 1) eqn:E; [apply Z.eqb_eq in E; lia | reflexivity]. }
  assert (Hnum : Forall hasNumId scripts).
  { eapply Forall_impl; [|exact Hsafe]. intros m. apply safe_id_is_number. }
  pose proof (sortScripts_sorted scripts Hnum) as Hord.
  assert (Hnum' : Forall hasNumId (sortScripts scripts)).
  { apply Forall_forall. intros m Hin. rewrite Forall_forall in Hnum.
    apply Hnum. eapply Permutation_in; [apply sortScripts_perm | exact Hin]. }
  rewrite startMigration_ready, getMigrationsScripts_spec.
  rewrite (findMigrationScripts_ok W md5hex fs _ _ _ Hfind).
  destruct (fst (checkIdsSequence (sortScripts scripts) None
                   (add_log (discoveryLog path (List.length scripts))
                      (add_log startLog w)))) as [[] | e] eqn:Hcheck.
  - exfalso.
    exact (checkIdsSequence_passes W _ _ _ Hcheck _ _ _ _ Hsorted Hbreak).
  - assert (Hfirst : exists pre' prev script post',
               sortScripts scripts = (pre' ++ prev :: script :: post')%list /\
               unbroken (pre' ++ [prev]) = true /\
               breaksSequence prev script /\
               e = Error ("Invalid script IDs sequence for filename "
                          ++ MigrationItem.filename script)).
    { destruct (sortScripts scripts) as [| p l]; [discriminate|].
      cbn [checkIdsSequence] in Hcheck.
      exact (checkIdsSequence_first_break W l p _ e Hcheck). }
    destruct Hfirst as [pre' [prev [script [post' [Heq [Hu [Hbr He]]]]]]].
    assert (Hprev : hasNumId prev).
    { rewrite Forall_forall in Hnum'. apply Hnum'. rewrite Heq.
      apply in_or_app. right. left. reflexivity. }
    assert (Hscript : hasNumId script).
    { rewrite Forall_forall in Hnum'. apply Hnum'. rewrite Heq.
      apply in_or_app. right. right. left. reflexivity. }
    assert (Hle : numId prev <= numId script).
    { rewrite Heq, map_app in Hord. cbn [map] in Hord.
      exact (sorted_neighbours _ _ _ _ Hord). }
    assert (Hpos : (List.length pre' <= List.length pre)%nat).
    { rewrite Hsorted in Heq.
      exact (first_break_position _ _ _ _ _ _ _ _ Heq Hbreak Hu). }
    exists pre', prev, script, post', (numId prev), (numId script).
    split; [exact Heq|]. split; [exact Hu|]. split; [exact Hbr|].
    split; [exact Hprev|]. split; [exact Hscript|].
    split.
    { unfold breaksSequence in Hbr. rewrite Hprev, Hscript in Hbr.
      cbn [js_sub js_strict_neq_1] in Hbr.
      destruct (numId script - numId prev =? 1) eqn:E; [discriminate|].
      apply Z.eqb_neq in E. lia. }
    split; [exact Hpos|].
    split.
    { intros Hua. rewrite Hsorted in Heq.
      assert (Hpos' : (List.length pre <= List.length pre')%nat)
        by exact (first_break_position _ _ _ _ _ _ _ _ (eq_sym Heq) Hbr Hua).
      destruct (app_eq_length_inv pre pre' (a :: b :: post)
                  (prev :: script :: post')) as [Hp Hr];
        [lia | exact Heq|].
      inversion Hr; subst. split; reflexivity. }
    subst e. cbn [reportRun snd message]. rewrite !add_log_app.
    repeat split.
Qed.

(* ------------------------------------------------------------------ *)
(** *** Executing new scripts against the reference database *)

Lemma recordsFor_length (l : list MigrationItem.t) :
  forall s c, List.length (recordsFor s c l) = List.length l.
Proof. induction l as [| m l IH]; intros s c; cbn; [|rewrite IH]; reflexivity. Qed.

Section ReferenceRun.

Variable sql_ok : list string -> string -> bool.

Local Abbreviation pool := (referencePool sql_ok).

Lemma autocommit_is_no_select (data : string) :
  startsWith "--AUTOCOMMIT" data = true ->
  (data =? SELECT_EXISTING_MIGRATIONS)%string = false.
Proof.
  intros H. destruct (data =? SELECT_EXISTING_MIGRATIONS)%string eqn:E;
    [|reflexivity].
  apply String.eqb_eq in E. subst. discriminate.
Qed.

Lemma executeInTransaction_commits (W : Type) (pl : Pool W)
  (statement : string) (w : World W) (p1 p2 p3 p4 : W)
  (q1 q2 q3 : QueryResult) :
  pool_connect pl (w_pool w) = (Ok tt, p1) ->
  client_query pl "START TRANSACTION" p1 = (Ok q1, p2) ->
  client_query pl statement p2 = (Ok q2, p3) ->
  client_query pl "COMMIT" p3 = (Ok q3, p4) ->
  executeInTransaction pl statement w =
  (Ok (toSuccess q2),
   mkWorld (client_release pl p4)
     (w_log w ++ [LogInfo "Statement execution started";
                  LogInfo "The Statement was executed successfully"])
     (w_calls w ++ committedTrace statement)).
Proof.
  intros Hc Hs Hq Hm. unfold executeInTransaction. unfold_monad.
  cbn [w_pool w_log w_calls]. rewrite Hc. cbn [w_pool w_log w_calls].
  rewrite Hs. cbn [w_pool w_log w_calls]. rewrite Hq.
  cbn [w_pool w_log w_calls]. rewrite Hm. cbn [w_pool w_log w_calls].
  unfold committedTrace. rewrite <- !app_assoc. reflexivity.
Qed.

Lemma reference_start_transaction (db : Db) :
  transaction db = NoTransaction ->
  db_client_query sql_ok "START TRANSACTION" db
  = (Ok {| rows := [] |}, set_transaction (InTransaction []) db).
Proof. intros H. unfold db_client_query. cbn. rewrite H. reflexivity. Qed.

Lemma reference_statement_in_transaction (statement : string) (db : Db)
  (statements : list string) :
  transactionControl statement = false ->
  transaction db = InTransaction statements ->
  sql_ok (committed db ++ statements) statement = true ->
  db_client_query sql_ok statement db
  = (Ok {| rows := [] |},
     set_transaction (InTransaction (statements ++ [statement])) db).
Proof.
  intros Hctl Htx Hok. unfold transactionControl in Hctl.
  apply orb_false_iff in Hctl. destruct Hctl as [Hctl Hrb].
  apply orb_false_iff in Hctl. destruct Hctl as [Hst Hcm].
  unfold db_client_query. rewrite Hst, Hcm, Hrb, Htx, Hok. reflexivity.
Qed.

Lemma reference_commit (db : Db) (statements : list string) :
  transaction db = InTransaction statements ->
  db_client_query sql_ok "COMMIT" db
  = (Ok {| rows := [] |},
     mkDb (migrations db) (serial db) (clock db)
       (committed db ++ statements) NoTransaction).
Proof. intros H. unfold db_client_query. cbn. rewrite H. reflexivity. Qed.

(** A script that the database accepts: the gateway returns the success
    variant and the body has taken effect, on either path. *)
Lemma reference_script_succeeds (m : MigrationItem.t) (w : World Db) :
  transaction (w_pool w) = NoTransaction ->
  transactionControl (MigrationItem.data m) = false ->
  sql_ok (committed (w_pool w)) (MigrationItem.data m) = true ->
  exists r w1,
    scriptGatewayCall pool m w = (Ok r, w1) /\
    isSuccess r = true /\
    w_pool w1 =
    mkDb (migrations (w_pool w)) (serial (w_pool w)) (clock (w_pool w))
      (committed (w_pool w) ++ [MigrationItem.data m]) NoTransaction /\
    (w_calls w1 ++ [insertCall m] = w_calls w ++ appliedTrace m)%list.
Proof.
  intros Htx Hctl Hok. unfold scriptGatewayCall, appliedTrace.
  destruct (startsWith "--AUTOCOMMIT" (MigrationItem.data m)) eqn:Emark.
  - unfold bind, logger_info, log_append. rewrite execute_spec.
    cbn [w_pool w_log w_calls referencePool pool_query db_pool_query].
    rewrite (autocommit_is_no_select _ Emark).
    unfold db_user_statement. rewrite Hok. cbn [fst snd].
    eexists. eexists. split; [reflexivity|]. split; [reflexivity|].
    cbn [w_pool w_calls]. rewrite Htx, <- app_assoc. split; reflexivity.
  - eexists. eexists. split.
    + eapply executeInTransaction_commits.
      * reflexivity.
      * apply reference_start_transaction. exact Htx.
      * apply reference_statement_in_transaction with (statements := []).
        -- exact Hctl.
        -- reflexivity.
        -- cbn [set_transaction committed]. rewrite app_nil_r. exact Hok.
      * apply reference_commit. reflexivity.
    + cbn [w_calls]. rewrite <- app_assoc. split; [|split]; reflexivity.
Qed.

End ReferenceRun.

Section ReferenceLoop.

Variable sql_ok : list string -> string -> bool.

Local Abbreviation pool := (referencePool sql_ok).

(** The INSERT of a new file name succeeds when the sequence is ahead of
    every id of the table. *)
Lemma reference_insert_ok (filename hash : string) (db : Db)
  (table : list MigrationEntry.t) :
  migrations db = Some table ->
  Forall (fun e => MigrationEntry.id e < serial db) table ->
  ~ In filename (map MigrationEntry.filename table) ->
  pool_query pool INSERT_MIGRATION_QUERY [filename; hash] db =
  (Ok {| rows := [] |},
   mkDb (Some (table ++ [MigrationEntry.mk (serial db) filename (clock db)
                           (Some hash)])%list)
     (serial db + 1) (clock db + 1) (committed db) (transaction db)).
Proof.
  intros Htable Hids Hname.
  cbn [referencePool pool_query db_pool_query].
  cbn [String.eqb Ascii.eqb Bool.eqb INSERT_MIGRATION_QUERY]. unfold db_insert.
  rewrite Htable.
  assert (H1 : existsb (fun e => MigrationEntry.id e =? serial db) table = false).
  { apply not_true_iff_false. intros H. apply existsb_exists in H.
    destruct H as [e [Hin He]]. apply Z.eqb_eq in He.
    rewrite Forall_forall in Hids. specialize (Hids e Hin). lia. }
  assert (H2 : existsb (fun e => (MigrationEntry.filename e =? filename)%string)
                 table = false).
  { apply not_true_iff_false. intros H. apply existsb_exists in H.
    destruct H as [e [Hin He]]. apply String.eqb_eq in He.
    apply Hname. rewrite <- He. apply in_map. exact Hin. }
  rewrite H1, H2. reflexivity.
Qed.

(** The loop over scripts that are all new, numbered on from the last
    applied id, and accepted by the database: each one is executed and
    recorded, in the order of the list. *)
Lemma reference_migrate_new (entries : list MigrationEntry.t)
  (l : list MigrationItem.t) :
  forall (lastZ : Z) (missed : list MigrationItem.t) (w : World Db)
    (table : list MigrationEntry.t),
    Forall (fun m => findEntry entries (MigrationItem.filename m) = None) l ->
    map MigrationItem.id l = map Num (idsFrom (lastZ + 1) (List.length l)) ->
    migrations (w_pool w) = Some table ->
    transaction (w_pool w) = NoTransaction ->
    Forall (fun e => MigrationEntry.id e < serial (w_pool w)) table ->
    NoDup (map MigrationItem.filename l) ->
    Forall (fun m => ~ In (MigrationItem.filename m)
                       (map MigrationEntry.filename table)) l ->
    Forall (fun m => transactionControl (MigrationItem.data m) = false) l ->
    scriptsSucceed sql_ok (committed (w_pool w)) (map MigrationItem.data l)
    = true ->
    exists w',
      migrateScripts pool entries l (Num lastZ) missed w =
      (Ok (Num (lastZ + Z.of_nat (List.length l)), (missed ++ l)%list), w') /\
      w_pool w' =
      mkDb (Some (table ++ recordsFor (serial (w_pool w)) (clock (w_pool w)) l)%list)
        (serial (w_pool w) + Z.of_nat (List.length l))
        (clock (w_pool w) + Z.of_nat (List.length l))
        (committed (w_pool w) ++ map MigrationItem.data l)%list NoTransaction /\
      w_calls w' = (w_calls w ++ List.concat (map appliedTrace l))%list.
Proof.
  induction l as [| m l IH];
    intros lastZ missed w table Hnew Hids Htable Htx Hfresh Hnd Hnames Hctl Hok.
  - exists w. cbn [migrateScripts List.length recordsFor map ret List.concat].
    rewrite !app_nil_r, !Z.add_0_r. split; [reflexivity|].
    split; [|reflexivity].
    destruct w as [db lg cs]. destruct db. cbn in *. subst. reflexivity.
  - inversion Hnew as [| ? ? Hm Hnew']; subst.
    inversion Hnd as [| ? ? Hnotin Hnd']; subst.
    inversion Hnames as [| ? ? Hname Hnames']; subst.
    inversion Hctl as [| ? ? Hc Hctl']; subst.
    cbn [List.length idsFrom map] in Hids. inversion Hids as [[Hid Hids']].
    cbn [map scriptsSucceed] in Hok. apply andb_true_iff in Hok.
    destruct Hok as [Hok1 Hok'].
    rewrite (migrateScripts_missing Db pool _ _ _ _ _ _ Hm), Hid.
    cbn [js_sub js_strict_neq_1].
    replace (lastZ + 1 - lastZ =? 1) with true by (symmetry; apply Z.eqb_eq; lia).
    cbn [negb].
    destruct (reference_script_succeeds sql_ok m w Htx Hc Hok1)
      as [r [w1 [Hcall [Hsucc [Hdb1 Hcalls1]]]]].
    rewrite executeMigrationScript_spec, Hcall, Hsucc.
    assert (Htable1 : migrations (w_pool w1) = Some table)
      by (rewrite Hdb1; exact Htable).
    assert (Hfresh1 : Forall (fun e => MigrationEntry.id e < serial (w_pool w1))
                        table) by (rewrite Hdb1; exact Hfresh).
    rewrite (reference_insert_ok _ _ _ _ Htable1 Hfresh1 Hname). cbn [snd].
    match goal with
    | |- context [migrateScripts pool entries l _ _ ?x] => set (w2 := x)
    end.
    destruct (IH (lastZ + 1) (missed ++ [m])%list w2
                (table ++ [MigrationEntry.mk (serial (w_pool w1))
                             (MigrationItem.filename m) (clock (w_pool w1))
                             (Some (MigrationItem.hash m))])%list)
      as [w' [Hloop [Hdb' Hcalls']]].
    + exact Hnew'.
    + rewrite Hids'. reflexivity.
    + reflexivity.
    + subst w2. cbn. rewrite Hdb1. reflexivity.
    + subst w2. cbn [w_pool serial]. apply Forall_app. split.
      * eapply Forall_impl; [|exact Hfresh1]. cbn. intros e He. lia.
      * constructor; [cbn; lia | constructor].
    + exact Hnd'.
    + apply Forall_forall. intros m' Hin'. rewrite Forall_forall in Hnames'.
      rewrite map_app. intros Hin. apply in_app_or in Hin.
      destruct Hin as [Hin | Hin]; [exact (Hnames' m' Hin' Hin)|].
      cbn in Hin. destruct Hin as [Heq | []].
      apply Hnotin. rewrite Heq. apply in_map. exact Hin'.
    + exact Hctl'.
    + subst w2. cbn [w_pool committed]. rewrite Hdb1. cbn [committed].
      exact Hok'.
    + exists w'. split.
      * rewrite Hloop. cbn [List.length]. rewrite <- app_assoc. cbn [app].
        replace (lastZ + Z.of_nat (S (List.length l)))
          with (lastZ + 1 + Z.of_nat (List.length l)) by lia.
        reflexivity.
      * split.
        -- rewrite Hdb'. subst w2.
           cbn [w_pool serial clock committed migrations].
           rewrite Hdb1. cbn [serial clock committed migrations recordsFor
                                List.length map].
           rewrite <- !app_assoc. cbn [app].
           f_equal; lia.
        -- rewrite Hcalls'. subst w2. cbn [w_calls map List.concat].
           fold (insertCall m). rewrite app_assoc, Hcalls1, <- app_assoc.
           reflexivity.
Qed.

End ReferenceLoop.

Lemma NoDup_map_Num (l : list Z) : NoDup l -> NoDup (map Num l).
Proof.
  induction 1 as [| z l Hnotin Hnd IH]; cbn; constructor; [|exact IH].
  intros Hin. apply in_map_iff in Hin. destruct Hin as [z' [Heq Hin]].
  inversion Heq; subst. contradiction.
Qed.

(** A discovered file name is never the sentinel's: that one has no
    delimiter. *)
Lemma wellFormed_not_sentinel (m : MigrationItem.t) (timestamp : Z) :
  wellFormed m ->
  ~ In (MigrationItem.filename m)
      (map MigrationEntry.filename [sentinel timestamp]).
Proof.
  intros [Hd _] [Heq | []]. cbn in Heq. rewrite <- Heq in Hd.
  vm_compute in Hd. apply Hd. reflexivity.
Qed.

(** C1.  Against the reference database holding only the sentinel row (no
    transaction open), with the discovered scripts numbered 1..N in some
    order, none of them a bare transaction statement, each accepted by the
    database when run after the ones before it, and the sequence of ids at
    1 or beyond, so that the INSERT of every row is accepted (the engine
    does not look at its outcome): the run reads the history once and then,
    for the N scripts in ascending order of id, executes the script and
    inserts its row; the database has run the N bodies in that order, the
    table holds N+1 rows, and the run reports success. *)
Theorem fresh_history_applies_all_scripts :
  forall (sql_ok : list string -> string -> bool)
    (md5hex : string -> string) (fs : Fs) (migrationPath : string)
    (w : World Db) (scripts : list MigrationItem.t) (sentinelTime : Z),
    let pool := referencePool sql_ok in
    let db := w_pool w in
    let sorted := sortScripts scripts in
    let N := List.length scripts in
    fst (findMigrationScripts md5hex fs migrationPath w) = Ok scripts ->
    Permutation (map MigrationItem.id scripts) (map Num (idsFrom 1 N)) ->
    migrations db = Some [sentinel sentinelTime] ->
    transaction db = NoTransaction ->
    1 <= serial db ->
    Forall (fun m => transactionControl (MigrationItem.data m) = false)
      scripts ->
    scriptsSucceed sql_ok (committed db) (map MigrationItem.data sorted)
    = true ->
    let w' := snd (startMigration pool md5hex fs migrationPath true w) in
    let table' :=
      sentinel sentinelTime :: recordsFor (serial db) (clock db) sorted in
    map MigrationItem.id sorted = map Num (idsFrom 1 N) /\
    w_calls w' =
    (w_calls w ++
     match sorted with
     | [] => []
     | _ :: _ =>
         PoolQuery SELECT_EXISTING_MIGRATIONS []
         :: List.concat (map appliedTrace sorted)
     end)%list /\
    committed (w_pool w') = (committed db ++ map MigrationItem.data sorted)%list /\
    migrations (w_pool w') = Some table' /\
    List.length table' = S N /\
    lastLog w' = Some (LogInfo "Database migration complete successfully").
Proof.
  intros sql_ok md5hex fs path w scripts sentinelTime pool db sorted N
    Hfind Hperm Htable Htx Hserial Hctl Hok w' table'.
  pose proof (findMigrationScripts_wellFormed Db md5hex fs path w scripts Hfind)
    as Hwf.
  pose proof (sortScripts_contiguous scripts 1 Hperm) as Hids. fold sorted N in Hids.
  assert (HN : List.length sorted = N) by apply sortScripts_length.
  assert (Hsub : forall m, In m sorted -> In m scripts).
  { intros m Hin. eapply Permutation_in; [apply sortScripts_perm | exact Hin]. }
  assert (Hrun : forall x : World Db,
             getMigrationsScripts md5hex fs path x =
             (Ok sorted, add_log (discoveryLog path N) x)).
  { intros x. rewrite getMigrationsScripts_spec.
    rewrite (findMigrationScripts_ok Db md5hex fs _ _ _ Hfind x).
    fold sorted. rewrite (checkIdsSequence_contiguous Db sorted 1 None).
    - reflexivity.
    - rewrite HN. exact Hids.
    - left. reflexivity. }
  split; [exact Hids|].
  assert (Hlen : List.length table' = S N).
  { unfold table'. cbn [List.length]. rewrite recordsFor_length, HN. reflexivity. }
  subst w'. rewrite startMigration_ready, Hrun.
  destruct (List.length sorted =? 0)%nat eqn:Hzero.
  - apply Nat.eqb_eq in Hzero. destruct sorted as [| s sorted']; [|discriminate].
    cbn [reportRun logger_info log_append snd map recordsFor].
    unfold table'. cbn [recordsFor].
    rewrite !app_nil_r. repeat split; try assumption.
    unfold logger_info, log_append. cbn [snd].
    change (lastLog (add_log [LogInfo "Database migration complete successfully"]
                       (add_log [LogInfo ("Migration scripts not found, path=" ++ path)]
                          (add_log (discoveryLog path N) (add_log startLog w))))
            = Some (LogInfo "Database migration complete successfully")).
    apply (lastLog_add_log []).
  - assert (Hq : pool_query pool SELECT_EXISTING_MIGRATIONS [] (w_pool w)
                 = (Ok {| rows := [sentinel sentinelTime] |}, w_pool w)).
    { cbn. unfold db_select. fold db. rewrite Htable. reflexivity. }
    match goal with
    | |- context [doMigration pool ?l ?x] =>
        rewrite (doMigration_spec Db pool l x _ _ Hq)
    end.
    cbv zeta. cbn [rows List.last sentinel MigrationEntry.id].
    fold (sentinel sentinelTime).
    match goal with
    | |- context [migrateScripts pool _ sorted _ _ ?x] => set (w0 := x)
    end.
    destruct (reference_migrate_new sql_ok [sentinel sentinelTime] sorted 0 []
                w0 [sentinel sentinelTime]) as [w1 [Hloop [Hdb1 Hcalls1]]].
    + apply Forall_forall. intros m Hin. apply findEntry_None.
      apply wellFormed_not_sentinel. rewrite Forall_forall in Hwf.
      apply Hwf, Hsub, Hin.
    + rewrite HN. exact Hids.
    + exact Htable.
    + exact Htx.
    + constructor; [cbn; fold db; lia | constructor].
    + apply wellFormed_filenames_NoDup.
      * apply Forall_forall. intros m Hin. rewrite Forall_forall in Hwf.
        apply Hwf, Hsub, Hin.
      * rewrite Hids. apply NoDup_map_Num, idsFrom_NoDup.
    + apply Forall_forall. intros m Hin. apply wellFormed_not_sentinel.
      rewrite Forall_forall in Hwf. apply Hwf, Hsub, Hin.
    + apply Forall_forall. intros m Hin. rewrite Forall_forall in Hctl.
      apply Hctl, Hsub, Hin.
    + exact Hok.
    + fold pool in Hloop. rewrite Hloop. cbn [finishLoop app].
      rewrite Hzero. cbn [reportRun snd].
      split; [|split; [|split; [|split]]].
      * unfold add_log. cbn [w_calls]. rewrite Hcalls1.
        destruct sorted as [| s sorted']; [discriminate|].
        subst w0. cbn [w_calls]. rewrite <- app_assoc. reflexivity.
      * unfold add_log. cbn [w_pool]. rewrite Hdb1. reflexivity.
      * unfold add_log. cbn [w_pool]. rewrite Hdb1. reflexivity.
      * exact Hlen.
      * apply (lastLog_add_log []).
Qed.

(* ================================================================== *)
(** ** Concrete runs: instances of the statements, and their limits *)

(** C1 on the two scripts and the fresh database: both are executed, first
    [1_init.sql] in a transaction, then [2_add_col.sql] bare, each followed
    by the INSERT of its row, and the table holds three rows. *)
Lemma fresh_history_applies_all_scripts_witness :
  let w' := snd (startMigration (referencePool acceptAll) toyDigest twoScripts
                   "sql" true (worldOf freshDb)) in
  w_calls w'
  = [PoolQuery SELECT_EXISTING_MIGRATIONS [];
     PoolConnect; ClientQuery "START TRANSACTION";
     ClientQuery (MigrationItem.data init1); ClientQuery "COMMIT";
     ClientRelease; insertCall init1;
     PoolQuery (MigrationItem.data addCol2) []; insertCall addCol2] /\
  committed (w_pool w')
  = [MigrationItem.data init1; MigrationItem.data addCol2] /\
  migrations (w_pool w')
  = Some [sentinel 0; recordOf 1 100 init1; recordOf 2 101 addCol2] /\
  lastLog w' = Some (LogInfo "Database migration complete successfully").
Proof.
  destruct (fresh_history_applies_all_scripts acceptAll toyDigest twoScripts
              "sql" (worldOf freshDb) [addCol2; init1] 0)
    as (_ & Hcalls & Hcommitted & Hrows & _ & Hlog).
  - reflexivity.
  - apply perm_swap.
  - reflexivity.
  - reflexivity.
  - apply Z.le_refl.
  - repeat constructor.
  - reflexivity.
  - split; [exact Hcalls|]. split; [exact Hcommitted|].
    split; [exact Hrows | exact Hlog].
Defined.

(** C2 on three scripts of which the second was edited after it was
    applied: the run names [2_add_col.sql], and the database is as before
    ([3-index.sql] is neither executed nor recorded). *)
Lemma modified_script_aborts_run_witness :
  let w' := snd (startMigration (referencePool acceptAll) toyDigest
                   threeScripts "sql" true (worldOf editedDb)) in
  lastLog w'
  = Some (LogError ("Unable to complete database migration, cause: "
                    ++ "For migration script '2_add_col.sql' was modify that not allowed")) /\
  w_pool w' = editedDb /\
  w_calls w' = [PoolQuery SELECT_EXISTING_MIGRATIONS []].
Proof.
  destruct (modified_script_aborts_run Db (referencePool acceptAll) toyDigest
              threeScripts "sql" (worldOf editedDb) [init1] [index3] addCol2
              {| rows := [sentinel 0; recordOf 1 100 init1;
                          MigrationEntry.mk 2 "2_add_col.sql" 101 (Some "0")] |}
              editedDb
              (MigrationEntry.mk 2 "2_add_col.sql" 101 (Some "0")) "0")
    as [cause [Hrun Hcause]].
  - reflexivity.
  - reflexivity.
  - reflexivity.
  - reflexivity.
  - vm_compute. discriminate.
  - cbv zeta. rewrite Hrun. rewrite (Hcause _ eq_refl).
    split; [reflexivity | split; reflexivity].
Defined.

(** C3 on the scripts with ids 1, 4, 2 as listed: in ascending order the
    gap lies between [2_add_col.sql] and [4_view.sql], the ids before it
    are consecutive, and the run names [4_view.sql] and makes no call on
    the pool. *)
Lemma sequence_gap_aborts_before_execution_witness :
  let w' := snd (startMigration (referencePool acceptAll) toyDigest
                   gapScripts "sql" true (worldOf appliedDb)) in
  w' = add_log
         (startLog
          ++ discoveryLog "sql" 3
          ++ [LogError ("Unable to complete database migration, cause: "
                        ++ "Invalid script IDs sequence for filename 4_view.sql")])%list
         (worldOf appliedDb) /\
  w_pool w' = appliedDb /\
  w_calls w' = [].
Proof.
  destruct (sequence_gap_aborts_before_execution Db (referencePool acceptAll)
              toyDigest gapScripts "sql" (worldOf appliedDb)
              [init1; view4; addCol2] [init1] [] addCol2 view4 2 4)
    as (pre' & prev & script & post' & x' & y' & _ & _ & _ & _ & _ & _ & _
        & Hfirst & Hrun & Hpool & Hcalls).
  - reflexivity.
  - repeat constructor.
  - reflexivity.
  - reflexivity.
  - reflexivity.
  - reflexivity.
  - destruct (Hfirst eq_refl) as [_ Hscript]. subst script.
    split; [exact Hrun|]. split; [exact Hpool | exact Hcalls].
Defined.

(** Ids 1, 1, 3: the first script that does not continue the sequence is
    the one that repeats id 1, and the run names it and not the script
    after the gap. *)
Lemma repeated_id_is_named_before_gap :
  let fs := directory "sql"
              [("1_a.sql", "SELECT 1;"); ("3_c.sql", "SELECT 3;");
               ("1-b.sql", "SELECT 2;")] in
  let w' := snd (startMigration (referencePool acceptAll) toyDigest fs "sql"
                   true (worldOf appliedDb)) in
  map MigrationItem.filename
    (sortScripts [item 1 "1_a.sql" "SELECT 1;"; item 3 "3_c.sql" "SELECT 3;";
                  item 1 "1-b.sql" "SELECT 2;"])
  = ["1_a.sql"; "1-b.sql"; "3_c.sql"] /\
  lastLog w'
  = Some (LogError ("Unable to complete database migration, cause: "
                    ++ "Invalid script IDs sequence for filename 1-b.sql")) /\
  w_calls w' = [].
Proof. cbv zeta. split; [reflexivity|]. split; reflexivity. Qed.

(** C6 on three scripts of which the second has a record without
    fingerprint: the record gets the fingerprint of the file, the third
    script is executed and recorded, and the body of the second is not sent
    to the pool. *)
Lemma legacy_record_is_backfilled_witness :
  let w' := snd (startMigration (referencePool acceptAll) toyDigest
                   threeScripts "sql" true (worldOf legacyDb)) in
  migrations (w_pool w')
  = Some [sentinel 0; recordOf 1 100 init1; recordOf 2 101 addCol2;
          recordOf 3 102 index3] /\
  committed (w_pool w')
  = [MigrationItem.data init1; MigrationItem.data addCol2;
     MigrationItem.data index3] /\
  w_calls w'
  = (PoolQuery SELECT_EXISTING_MIGRATIONS []
     :: PoolQuery UPDATE_MIGRATION_ROW_HASH
          [MigrationItem.hash addCol2; "2_add_col.sql"]
     :: committedTrace (MigrationItem.data index3) ++ [insertCall index3])%list.
Proof.
  cbv zeta.
  destruct (legacy_record_is_backfilled Db (referencePool acceptAll)
              toyDigest threeScripts "sql"
              (worldOf legacyDb)
              (mkWorld legacyDb
                 (startLog ++ discoveryLog "sql" 3)
                 [PoolQuery SELECT_EXISTING_MIGRATIONS []])
              [init1] [index3] addCol2
              {| rows := [sentinel 0; recordOf 1 100 init1;
                          MigrationEntry.mk 2 "2_add_col.sql" 101 None] |}
              legacyDb
              (MigrationEntry.mk 2 "2_add_col.sql" 101 None)
              (Num 2) []
              eq_refl eq_refl eq_refl eq_refl eq_refl) as [Hrun _].
  rewrite Hrun.
  split; [reflexivity | split; reflexivity].
Defined.

(** The two scripts through a driver that may read the table and not
    write it: the UPDATE for [2_add_col.sql] is sent and refused, nobody
    looks at that, and the run reports success; the record still has no
    fingerprint. *)
Lemma refused_backfill_goes_unnoticed :
  let w' := snd (startMigration readOnlyPool toyDigest twoScripts "sql"
                   true (worldOf legacyDb)) in
  w_calls w'
  = [PoolQuery SELECT_EXISTING_MIGRATIONS []; backfillCall addCol2] /\
  w_pool w' = legacyDb /\
  lastLog w' = Some (LogInfo "Database migration complete successfully").
Proof. cbv zeta. split; [reflexivity|]. split; reflexivity. Qed.

(** C8 on the two scripts and the database in which both are applied: the
    run leaves the database as it is and sends the SELECT only. *)
Lemma rerun_changes_nothing_witness :
  let w' := snd (startMigration (referencePool acceptAll) toyDigest twoScripts
                   "sql" true (worldOf appliedDb)) in
  w_pool w' = appliedDb /\
  (w_calls w' = [] \/ w_calls w' = [PoolQuery SELECT_EXISTING_MIGRATIONS []]).
Proof.
  apply (rerun_changes_nothing acceptAll toyDigest twoScripts "sql" true
           (worldOf appliedDb)
           [sentinel 0; recordOf 1 100 init1; recordOf 2 101 addCol2]).
  - reflexivity.
  - repeat constructor; cbn; intuition discriminate.
  - intros scripts m Hfound Hin.
    assert (Hs : scripts = [addCol2; init1]) by (inversion Hfound; reflexivity).
    subst scripts. destruct Hin as [<- | [<- | []]].
    + exists (recordOf 2 101 addCol2). repeat split. right. right. left. reflexivity.
    + exists (recordOf 1 100 init1). repeat split. right. left. reflexivity.
Defined.


(** C10 on the two scripts and an empty tracking table: the run logs the
    TypeError and sends the SELECT only. *)
Lemma empty_history_aborts_run_witness :
  snd (startMigration (referencePool acceptAll) toyDigest twoScripts "sql" true
         (worldOf emptyTableDb))
  = mkWorld emptyTableDb
      (startLog ++ discoveryLog "sql" 2
       ++ [LogError ("Unable to complete database migration, cause: "
                     ++ "Cannot read properties of undefined (reading 'id')")])
      [PoolQuery SELECT_EXISTING_MIGRATIONS []].
Proof.
  destruct (empty_history_aborts_run Db (referencePool acceptAll) toyDigest
              twoScripts "sql" (worldOf emptyTableDb) [addCol2; init1]
              emptyTableDb eq_refl ltac:(discriminate) eq_refl)
    as (_ & _ & _ & Hrun).
  exact (Hrun eq_refl).
Defined.

(** C1 as stated fails where the database rejects a script: one script with
    id 1 is discovered, the history holds the sentinel only, and after the
    run nothing was executed and the table still has one row, not two. *)
Lemma fresh_history_rejected_script_counterexample :
  let w := worldOf freshDb in
  let w' := snd (startMigration (referencePool rejectTypo) toyDigest
                   typoScripts "sql" true w) in
  fst (findMigrationScripts toyDigest typoScripts "sql" w) = Ok [typo1] /\
  map MigrationItem.id [typo1] = map Num (idsFrom 1 1) /\
  migrations (w_pool w) = Some [sentinel 0] /\
  migrations (w_pool w') = Some [sentinel 0] /\
  committed (w_pool w') = [] /\
  lastLog w'
  = Some (LogError ("Unable to complete database migration, cause: "
                    ++ "statement failed: CREATE TABL t (id int);")) /\
  ~ (exists table, migrations (w_pool w') = Some table /\
                   List.length table = 2%nat).
Proof.
  cbv zeta. repeat (split; [reflexivity|]).
  intros [table [Htable Hlen]]. vm_compute in Htable.
  injection Htable as <-. discriminate Hlen.
Qed.

(** C2 as stated fails for a script that is not the first to stop the run:
    [2_add_col.sql] is discovered and its record has another fingerprint,
    yet the failure the run logs names [1_init.sql], and no message names
    [2_add_col.sql]. *)
Lemma modified_script_not_named_counterexample :
  let w := worldOf bothEditedDb in
  let w' := snd (startMigration (referencePool acceptAll) toyDigest
                   twoScripts "sql" true w) in
  fst (getMigrationsScripts toyDigest twoScripts "sql" w)
  = Ok [init1; addCol2] /\
  (exists entry h,
      findEntry (orderById [sentinel 0;
                            MigrationEntry.mk 1 "1_init.sql" 100 (Some "0");
                            MigrationEntry.mk 2 "2_add_col.sql" 101 (Some "0")])
        (MigrationItem.filename addCol2) = Some entry /\
      MigrationEntry.hash entry = Some h /\
      h <> MigrationItem.hash addCol2) /\
  lastLog w'
  = Some (LogError ("Unable to complete database migration, cause: "
                    ++ "For migration script '1_init.sql' was modify that not allowed")) /\
  ~ In (LogError ("Unable to complete database migration, cause: "
                  ++ "For migration script '2_add_col.sql' was modify that not allowed"))
      (w_log w').
Proof.
  cbv zeta. split; [reflexivity|]. split.
  { exists (MigrationEntry.mk 2 "2_add_col.sql" 101 (Some "0")), "0".
    split; [reflexivity|]. split; [reflexivity|]. vm_compute. discriminate. }
  split; [reflexivity|].
  vm_compute. intros H.
  repeat (destruct H as [H | H]; [discriminate H|]). exact H.
Qed.

(** C6 as stated fails for a script the run does not reach:
    [2_add_col.sql] is discovered and its record has no fingerprint, but
    the run stops at [1_init.sql]; no UPDATE is sent and the record still
    has no fingerprint after the run. *)
Lemma legacy_record_not_reached_counterexample :
  let w := worldOf editedThenLegacyDb in
  let w' := snd (startMigration (referencePool acceptAll) toyDigest
                   twoScripts "sql" true w) in
  fst (getMigrationsScripts toyDigest twoScripts "sql" w)
  = Ok [init1; addCol2] /\
  (exists entry,
      findEntry (orderById [sentinel 0;
                            MigrationEntry.mk 1 "1_init.sql" 100 (Some "0");
                            MigrationEntry.mk 2 "2_add_col.sql" 101 None])
        (MigrationItem.filename addCol2) = Some entry /\
      MigrationEntry.hash entry = None) /\
  w_pool w' = editedThenLegacyDb /\
  w_calls w' = [PoolQuery SELECT_EXISTING_MIGRATIONS []] /\
  (exists table entry,
      migrations (w_pool w') = Some table /\
      findEntry table (MigrationItem.filename addCol2) = Some entry /\
      MigrationEntry.hash entry <> Some (MigrationItem.hash addCol2)).
Proof.
  cbv zeta. split; [reflexivity|]. split.
  { exists (MigrationEntry.mk 2 "2_add_col.sql" 101 None).
    split; reflexivity. }
  split; [reflexivity|]. split; [reflexivity|].
  exists [sentinel 0; MigrationEntry.mk 1 "1_init.sql" 100 (Some "0");
          MigrationEntry.mk 2 "2_add_col.sql" 101 None],
    (MigrationEntry.mk 2 "2_add_col.sql" 101 None).
  split; [reflexivity|]. split; [reflexivity|]. discriminate.
Qed.

(** C7 as stated fails where the database refuses the INSERT: on the
    restored database the gateway returns its success variant for
    [2_add_col.sql] and the script ends normally, yet the table has no row
    for it afterwards. *)
Lemma record_not_inserted_counterexample :
  let w := worldOf restoredDb in
  let pool := referencePool acceptAll in
  let after := executeMigrationScript pool addCol2 w in
  succeeded (fst (scriptGatewayCall pool addCol2 w)) = true /\
  fst after = Ok tt /\
  In (insertCall addCol2) (w_calls (snd after)) /\
  migrations (w_pool (snd after)) = Some [sentinel 0; recordOf 1 100 init1] /\
  ~ In (MigrationItem.filename addCol2)
      (map MigrationEntry.filename [sentinel 0; recordOf 1 100 init1]).
Proof.
  cbv zeta. split; [reflexivity|]. split; [reflexivity|].
  split; [vm_compute; auto 10|]. split; [reflexivity|].
  cbn. intros [H | [H | []]]; discriminate H.
Qed.

(* ================================================================== *)
(** ** Further facts about the persistence gateway *)

(** X1.  [executeInTransaction] takes one connection and gives it back:
    when [pool.connect] resolves, the calls that follow are queries on the
    client and then one [release], the last call, however the queries and
    ROLLBACK end; when [pool.connect] rejects, the rejection is raised and
    nothing else is called. *)
Theorem executeInTransaction_releases_client :
  forall (W : Type) (pool : Pool W) (statement : string) (w : World W),
    let after := executeInTransaction pool statement w in
    match fst (pool_connect pool (w_pool w)) with
    | Ok _ =>
        exists statements,
          w_calls (snd after) =
          (w_calls w
           ++ PoolConnect :: map ClientQuery statements ++ [ClientRelease])%list
    | Throw e =>
        fst after = Throw e /\
        w_calls (snd after) = (w_calls w ++ [PoolConnect])%list
    end.
Proof.
  intros W pool statement w. cbv zeta.
  unfold executeInTransaction. unfold_monad. cbn [w_pool w_log w_calls].
  destruct (pool_connect pool (w_pool w)) as [[[] | e0] p0];
    cbn [fst snd w_pool w_log w_calls]; [|split; reflexivity].
  destruct (client_query pool "START TRANSACTION" p0) as [[q1 | e1] p1];
    cbn [fst snd w_pool w_log w_calls].
  2:{ exists ["START TRANSACTION"; "ROLLBACK"].
      destruct (client_query pool "ROLLBACK" p1) as [[q2 | e2] p2];
        cbn [fst snd w_pool w_log w_calls map app];
        rewrite <- !app_assoc; reflexivity. }
  destruct (client_query pool statement p1) as [[q2 | e2] p2];
    cbn [fst snd w_pool w_log w_calls].
  2:{ exists ["START TRANSACTION"; statement; "ROLLBACK"].
      destruct (client_query pool "ROLLBACK" p2) as [[q3 | e3] p3];
        cbn [fst snd w_pool w_log w_calls map app];
        rewrite <- !app_assoc; reflexivity. }
  destruct (client_query pool "COMMIT" p2) as [[q3 | e3] p3];
    cbn [fst snd w_pool w_log w_calls].
  2:{ exists ["START TRANSACTION"; statement; "COMMIT"; "ROLLBACK"].
      destruct (client_query pool "ROLLBACK" p3) as [[q4 | e4] p4];
        cbn [fst snd w_pool w_log w_calls map app];
        rewrite <- !app_assoc; reflexivity. }
  exists ["START TRANSACTION"; statement; "COMMIT"].
  cbn [map app]. rewrite <- !app_assoc. reflexivity.
Qed.

(** X2.  [executeInTransaction] returns its success variant exactly when it
    sent START TRANSACTION, the statement and COMMIT and nothing in
    between; whenever it got a connection and does not return the success
    variant, it sent ROLLBACK as its last query. *)
Theorem executeInTransaction_commits_or_rolls_back :
  forall (W : Type) (pool : Pool W) (statement : string) (w : World W),
    let after := executeInTransaction pool statement w in
    exists calls,
      w_calls (snd after) = (w_calls w ++ calls)%list /\
      (succeeded (fst after) = true <-> calls = committedTrace statement) /\
      (succeeded (fst after) = false ->
       calls = [PoolConnect] \/
       exists queries,
         calls = (PoolConnect :: map ClientQuery queries
                  ++ [ClientQuery "ROLLBACK"; ClientRelease])%list).
Proof.
  intros W pool statement w. cbv zeta.
  destruct (executeInTransaction_calls W pool statement w)
    as [calls [Hcalls Hshape]].
  exists calls. split; [exact Hcalls|].
  destruct (succeeded (fst (executeInTransaction pool statement w))).
  - split; [split; [intros _; exact Hshape | reflexivity] | discriminate].
  - split.
    + split; [discriminate|]. intros Heq. subst calls. exfalso.
      unfold failedTraces, committedTrace in Hshape.
      repeat (destruct Hshape as [Hshape | Hshape]; [discriminate Hshape|]).
      exact Hshape.
    + intros _. unfold failedTraces in Hshape.
      destruct Hshape as [H | [H | [H | [H | []]]]]; subst calls.
      * left. reflexivity.
      * right. exists ["START TRANSACTION"]. reflexivity.
      * right. exists ["START TRANSACTION"; statement]. reflexivity.
      * right. exists ["START TRANSACTION"; statement; "COMMIT"]. reflexivity.
Qed.

(* ================================================================== *)
(** ** Further facts about the script locator *)

Section DiscoveryEquations.

Variable W : Type.
Variable md5hex : string -> string.
Variable fs : Fs.

Lemma createMigrationItem_equation (dirName filename : string) (w : World W) :
  createMigrationItem md5hex fs dirName filename w =
  (if search_delimiter filename <? 1 then Throw noDelimiterError
   else match readFile fs (path_join dirName filename) with
        | Ok data => Ok (discoveredItem md5hex filename data)
        | Throw e => Throw e
        end, w).
Proof.
  unfold createMigrationItem. unfold_monad.
  destruct (search_delimiter filename <? 1); [reflexivity|].
  destruct (readFile fs (path_join dirName filename)); reflexivity.
Qed.

Lemma collectMigrationItems_found (dirPath : string) (files : list string) :
  forall (result items : list MigrationItem.t) (w : World W),
    fst (collectMigrationItems md5hex fs dirPath files result w) = Ok items <->
    exists found,
      items = (result ++ found)%list /\
      Forall2 (discovers md5hex fs dirPath) files found.
Proof.
  induction files as [| file files IH]; intros result items w.
  - cbn [collectMigrationItems ret fst]. split.
    + intros H. inversion H; subst. exists []. rewrite app_nil_r.
      split; [reflexivity | constructor].
    + intros [found [Heq Hall]]. inversion Hall; subst.
      rewrite app_nil_r. reflexivity.
  - cbn [collectMigrationItems]. unfold bind.
    rewrite createMigrationItem_equation.
    destruct (search_delimiter file <? 1) eqn:Hd.
    + cbn [fst]. split; [discriminate|].
      intros [found [_ Hall]]. inversion Hall as [| ? m ? ? [Hdel _] _]; subst.
      apply Z.ltb_lt in Hd. lia.
    + destruct (readFile fs (path_join dirPath file)) as [data | e] eqn:Hr.
      * rewrite IH. split.
        -- intros [found [Heq Hall]]. exists (discoveredItem md5hex file data :: found).
           split; [rewrite Heq, <- app_assoc; reflexivity|].
           constructor; [|exact Hall].
           split; [apply Z.ltb_ge in Hd; lia|].
           exists data. split; [exact Hr | reflexivity].
        -- intros [found [Heq Hall]].
           inversion Hall as [| ? m ? found' [_ [data' [Hr' Hm]]] Hall']; subst.
           rewrite Hr in Hr'. inversion Hr'; subst data'.
           exists found'. split; [rewrite <- app_assoc; reflexivity | exact Hall'].
      * cbn [fst]. split; [discriminate|].
        intros [found [_ Hall]].
        inversion Hall as [| ? m ? ? [_ [data' [Hr' _]]] _]; subst.
        rewrite Hr in Hr'. discriminate.
Qed.

Lemma collectMigrationItems_fails (dirPath : string) (files : list string) :
  forall (result : list MigrationItem.t) (w : World W) (e : Exn),
    fst (collectMigrationItems md5hex fs dirPath files result w) = Throw e ->
    exists pre file post found,
      files = (pre ++ file :: post)%list /\
      Forall2 (discovers md5hex fs dirPath) pre found /\
      (search_delimiter file < 1 /\ e = noDelimiterError \/
       1 <= search_delimiter file /\
       readFile fs (path_join dirPath file) = Throw e).
Proof.
  induction files as [| file files IH]; intros result w e.
  - cbn [collectMigrationItems ret fst]. discriminate.
  - cbn [collectMigrationItems]. unfold bind.
    rewrite createMigrationItem_equation.
    destruct (search_delimiter file <? 1) eqn:Hd.
    + cbn [fst]. intros H. inversion H; subst.
      exists [], file, files, []. split; [reflexivity|].
      split; [constructor|]. left. apply Z.ltb_lt in Hd. split; [lia | reflexivity].
    + apply Z.ltb_ge in Hd.
      destruct (readFile fs (path_join dirPath file)) as [data | e'] eqn:Hr.
      * intros H. apply IH in H.
        destruct H as [pre [f [post [found [Hfiles [Hall Hbad]]]]]].
        exists (file :: pre), f, post, (discoveredItem md5hex file data :: found).
        split; [rewrite Hfiles; reflexivity|]. split; [|exact Hbad].
        constructor; [|exact Hall]. split; [lia|].
        exists data. split; [exact Hr | reflexivity].
      * cbn [fst]. intros H. inversion H; subst.
        exists [], file, files, []. split; [reflexivity|].
        split; [constructor|]. right. split; [lia | exact Hr].
Qed.

Lemma findMigrationScripts_equation (dirPath : string) (w : World W) :
  findMigrationScripts md5hex fs dirPath w =
  match match readDir fs dirPath with
        | Ok files => fst (collectMigrationItems md5hex fs dirPath files [] w)
        | Throw e => Throw e
        end with
  | Ok scripts =>
      (Ok scripts, add_log (discoveryLog dirPath (List.length scripts)) w)
  | Throw e => (Throw e, add_log (failedDiscoveryLog dirPath) w)
  end.
Proof.
  unfold findMigrationScripts, failedDiscoveryLog, discoveryLog, add_log.
  unfold bind at 1. unfold logger_debug at 1. unfold log_append at 1.
  unfold bind at 1. unfold try_catch. unfold bind at 1. unfold lift.
  destruct (readDir fs dirPath) as [files | e].
  - match goal with
    | |- context [collectMigrationItems md5hex fs dirPath files [] ?x] =>
        rewrite (silent_run W _ w x
                   (silent_collectMigrationItems W md5hex fs dirPath files []))
    end.
    destruct (fst (collectMigrationItems md5hex fs dirPath files [] w))
      as [scripts | e].
    + unfold_monad. cbn [w_pool w_log w_calls]. rewrite <- app_assoc.
      reflexivity.
    + unfold_monad. cbn [w_pool w_log w_calls]. rewrite <- app_assoc.
      reflexivity.
  - unfold_monad. cbn [w_pool w_log w_calls]. rewrite <- app_assoc.
    reflexivity.
Qed.

End DiscoveryEquations.

(** Discovery in terms of the items the embedding builds. *)
Lemma findMigrationScripts_discovers (W : Type) (md5hex : string -> string)
  (fs : Fs) (dirPath : string) (w : World W) (scripts : list MigrationItem.t) :
  let after := findMigrationScripts md5hex fs dirPath w in
  (fst after = Ok scripts <->
   exists files,
     readDir fs dirPath = Ok files /\
     Forall2 (discovers md5hex fs dirPath) files scripts) /\
  (fst after = Ok scripts ->
   snd after = add_log (discoveryLog dirPath (List.length scripts)) w).
Proof.
  cbv zeta.
  rewrite findMigrationScripts_equation.
  destruct (readDir fs dirPath) as [files | e].
  - pose proof (collectMigrationItems_found W md5hex fs dirPath files []
                  scripts w) as Hfound.
    destruct (fst (collectMigrationItems md5hex fs dirPath files [] w))
      as [items | e]; cbn [fst snd].
    + split.
      * split.
        -- intros H. apply Hfound in H. destruct H as [found [Heq Hall]].
           exists files. split; [reflexivity|]. cbn [app] in Heq. subst found.
           exact Hall.
        -- intros [files' [Heq Hall]]. inversion Heq; subst files'.
           apply Hfound. exists scripts. split; [reflexivity | exact Hall].
      * intros H. inversion H; subst. reflexivity.
    + split; [|discriminate]. split; [discriminate|].
      intros [files' [Heq Hall]]. inversion Heq; subst files'.
      apply Hfound. exists scripts. split; [reflexivity | exact Hall].
  - cbn [fst snd]. split; [|discriminate]. split; [discriminate|].
    intros [files [Heq _]]. discriminate.
Qed.

Lemma discovers_locates (md5hex : string -> string) (fs : Fs)
  (dirPath filename : string) (m : MigrationItem.t) :
  discovers md5hex fs dirPath filename m ->
  acceptable fs dirPath filename /\ locates md5hex fs dirPath filename m.
Proof.
  intros [Hd [data [Hr Hm]]]. split.
  - split; [exact Hd|]. exists data. exact Hr.
  - exists data. subst m. cbn. repeat split; try assumption.
    intros z Hz _. exact Hz.
Qed.

Lemma acceptable_discovered (md5hex : string -> string) (fs : Fs)
  (dirPath : string) (files : list string) :
  Forall (acceptable fs dirPath) files ->
  exists scripts, Forall2 (discovers md5hex fs dirPath) files scripts.
Proof.
  induction 1 as [| file files [Hd [data Hr]] _ [scripts IH]].
  - exists []. constructor.
  - exists (discoveredItem md5hex file data :: scripts).
    constructor; [|exact IH]. split; [exact Hd|].
    exists data. split; [exact Hr | reflexivity].
Qed.

(** X4.  Discovery succeeds exactly when the directory can be listed and
    every entry of it, whatever its extension, has a delimiter past position
    0 and can be read.  The result has then one item per entry, in the
    order of the listing, with the name of the entry, the content of the
    file, the digest of name and content, and as id the integer [parseInt]
    reads from the prefix when that is below 2^53; the log gets the two
    messages of a search. *)
Theorem findMigrationScripts_characterised :
  forall (W : Type) (md5hex : string -> string) (fs : Fs) (dirPath : string)
    (w : World W),
    let after := findMigrationScripts md5hex fs dirPath w in
    ((exists scripts, fst after = Ok scripts) <->
     exists files,
       readDir fs dirPath = Ok files /\
       Forall (acceptable fs dirPath) files) /\
    (forall scripts,
        fst after = Ok scripts ->
        (exists files,
            readDir fs dirPath = Ok files /\
            Forall2 (locates md5hex fs dirPath) files scripts) /\
        snd after = add_log (discoveryLog dirPath (List.length scripts)) w).
Proof.
  intros W md5hex fs dirPath w. cbv zeta.
  assert (Hweak : forall files scripts,
             Forall2 (discovers md5hex fs dirPath) files scripts ->
             Forall (acceptable fs dirPath) files /\
             Forall2 (locates md5hex fs dirPath) files scripts).
  { induction 1 as [| file m files scripts Hm _ [IHa IHl]].
    - split; constructor.
    - destruct (discovers_locates _ _ _ _ _ Hm) as [Ha Hl].
      split; constructor; assumption. }
  split; [split|].
  - intros [scripts Hok].
    destruct (findMigrationScripts_discovers W md5hex fs dirPath w scripts)
      as [[Hfound _] _].
    destruct (Hfound Hok) as [files [Hdir Hall]].
    exists files. split; [exact Hdir|]. apply (Hweak _ _ Hall).
  - intros [files [Hdir Hall]].
    destruct (acceptable_discovered md5hex fs dirPath files Hall)
      as [scripts Hscripts].
    exists scripts.
    destruct (findMigrationScripts_discovers W md5hex fs dirPath w scripts)
      as [[_ Hback] _].
    apply Hback. exists files. split; assumption.
  - intros scripts Hok.
    destruct (findMigrationScripts_discovers W md5hex fs dirPath w scripts)
      as [[Hfound _] Hlog].
    destruct (Hfound Hok) as [files [Hdir Hall]].
    split; [|exact (Hlog Hok)].
    exists files. split; [exact Hdir|]. apply (Hweak _ _ Hall).
Qed.

(** X5.  When discovery fails it logs [Unable to find migration scripts]
    with no cause, leaves the pool alone and raises the error of the first
    failure: that of the listing, or, for the first entry that is not
    acceptable, the fixed error about the delimiter or the error of reading
    the file.  The error about an unparsable id is never raised. *)
Theorem findMigrationScripts_failure :
  forall (W : Type) (md5hex : string -> string) (fs : Fs) (dirPath : string)
    (w : World W) (e : Exn),
    let after := findMigrationScripts md5hex fs dirPath w in
    fst after = Throw e ->
    snd after = add_log (failedDiscoveryLog dirPath) w /\
    (readDir fs dirPath = Throw e \/
     exists pre file post found,
       readDir fs dirPath = Ok (pre ++ file :: post)%list /\
       Forall2 (discovers md5hex fs dirPath) pre found /\
       (search_delimiter file < 1 /\ e = noDelimiterError \/
        1 <= search_delimiter file /\
        readFile fs (path_join dirPath file) = Throw e)).
Proof.
  intros W md5hex fs dirPath w e. cbv zeta.
  rewrite findMigrationScripts_equation.
  destruct (readDir fs dirPath) as [files | e0].
  - pose proof (collectMigrationItems_fails W md5hex fs dirPath files [] w)
      as Hfails.
    destruct (fst (collectMigrationItems md5hex fs dirPath files [] w))
      as [items | e1]; cbn [fst snd]; [discriminate|].
    intros H. inversion H; subst e1. split; [reflexivity|]. right.
    destruct (Hfails e eq_refl) as [pre [file [post [found [Hfiles Hrest]]]]].
    exists pre, file, post, found. rewrite Hfiles. split; [reflexivity|].
    exact Hrest.
  - cbn [fst snd]. intros H. inversion H; subst e0.
    split; [reflexivity|]. left. reflexivity.
Qed.

(** A directory with a script and a file that is none. *)
Lemma findMigrationScripts_failure_witness :
  let fs := directory "sql" [fileOf init1; ("README.md", "notes")] in
  let after := findMigrationScripts toyDigest fs "sql" (worldOf freshDb) in
  fst after = Throw noDelimiterError /\
  snd after = add_log (failedDiscoveryLog "sql") (worldOf freshDb).
Proof.
  cbv zeta.
  destruct (findMigrationScripts_failure Db toyDigest
              (directory "sql" [fileOf init1; ("README.md", "notes")]) "sql"
              (worldOf freshDb) noDelimiterError) as [Hworld _].
  - reflexivity.
  - split; [reflexivity | exact Hworld].
Defined.

(* ------------------------------------------------------------------ *)
(** *** Ids read from file names *)

Lemma search_from_range (s : string) :
  forall i, search_from s i = -1 \/ i <= search_from s i.
Proof.
  induction s as [| c s IH]; intros i; cbn [search_from].
  - left. reflexivity.
  - destruct (is_delimiter c); [right; lia|].
    destruct (IH (i + 1)) as [H | H]; [left; exact H | right; lia].
Qed.

(** The prefix before the first delimiter holds none. *)
Lemma prefix_noDelimiter (s : string) :
  forall i,
    0 <= i -> i <= search_from s i ->
    noDelimiter (String.substring 0 (Z.to_nat (search_from s i - i)) s) = true.
Proof.
  induction s as [| c s IH]; intros i Hi Hk; cbn [search_from] in *.
  - destruct (Z.to_nat (-1 - i)); reflexivity.
  - destruct (is_delimiter c) eqn:Hc.
    + rewrite Z.sub_diag. reflexivity.
    + destruct (search_from_range s (i + 1)) as [H | H]; [lia|].
      replace (Z.to_nat (search_from s (i + 1) - i))
        with (S (Z.to_nat (search_from s (i + 1) - (i + 1)))) by lia.
      cbn [String.substring noDelimiter]. rewrite Hc. cbn [negb andb].
      apply IH; lia.
Qed.

Lemma trim_start_noDelimiter (s : string) :
  noDelimiter s = true -> noDelimiter (trim_start s) = true.
Proof.
  induction s as [| c s IH]; cbn [trim_start noDelimiter]; [reflexivity|].
  intros H. destruct (is_js_whitespace c).
  - apply IH. apply andb_true_iff in H. apply H.
  - exact H.
Qed.

Lemma digit_value_nonneg (radix : Z) (c : ascii) (d : Z) :
  digit_value radix c = Some d -> 0 <= d.
Proof.
  unfold digit_value.
  destruct ((48 <=? Z.of_nat (nat_of_ascii c))
            && (Z.of_nat (nat_of_ascii c) <=? 57)) eqn:H1.
  - intros H. inversion H. apply andb_true_iff in H1. lia.
  - destruct ((radix =? 16) && (97 <=? Z.of_nat (nat_of_ascii c))
              && (Z.of_nat (nat_of_ascii c) <=? 102)) eqn:H2.
    + intros H. inversion H. apply andb_true_iff in H2.
      destruct H2 as [H2 _]. apply andb_true_iff in H2. lia.
    + destruct ((radix =? 16) && (65 <=? Z.of_nat (nat_of_ascii c))
                && (Z.of_nat (nat_of_ascii c) <=? 70)) eqn:H3.
      * intros H. inversion H. apply andb_true_iff in H3.
        destruct H3 as [H3 _]. apply andb_true_iff in H3. lia.
      * discriminate.
Qed.

Lemma parse_digits_nonneg (radix : Z) (s : string) :
  0 <= radix ->
  forall acc v,
    (forall a, acc = Some a -> 0 <= a) ->
    parse_digits radix s acc = Some v -> 0 <= v.
Proof.
  intros Hr. induction s as [| c s IH]; intros acc v Hacc; cbn [parse_digits].
  - intros H. apply Hacc. exact H.
  - destruct (digit_value radix c) as [d |] eqn:Hd.
    + apply IH. intros a Ha. inversion Ha; subst.
      pose proof (digit_value_nonneg _ _ _ Hd).
      destruct acc as [a0 |]; [|assumption].
      specialize (Hacc a0 eq_refl). nia.
    + intros H. apply Hacc. exact H.
Qed.

Lemma digits_result_nonneg (radix sign : Z) (s : string) :
  0 <= radix -> 0 <= sign ->
  match parse_digits radix s None with
  | Some v => Num (sign * v)
  | None => NaN
  end = NaN \/
  exists n,
    match parse_digits radix s None with
    | Some v => Num (sign * v)
    | None => NaN
    end = Num n /\ 0 <= n.
Proof.
  intros Hr Hs. destruct (parse_digits radix s None) as [v |] eqn:Hv.
  - right. exists (sign * v). split; [reflexivity|].
    assert (0 <= v).
    { eapply parse_digits_nonneg; [exact Hr | | exact Hv]. discriminate. }
    nia.
  - left. reflexivity.
Qed.

Ltac ascii_cases c := destruct c as [[] [] [] [] [] [] [] []].

(** [parseInt] of a string with no [-] in it is NaN or not negative. *)
Lemma parseInt_nonneg (s : string) :
  noDelimiter s = true ->
  parseInt s = NaN \/ exists n, parseInt s = Num n /\ 0 <= n.
Proof.
  intros Hs. apply trim_start_noDelimiter in Hs. unfold parseInt.
  destruct (trim_start s) as [| c s1]; [left; reflexivity|].
  assert (Hradix : forall t : string,
             (let '(radix, s0) :=
                match t with
                | String "0" (String "x" s') => (16, s')
                | String "0" (String "X" s') => (16, s')
                | _ => (10, t)
                end in
              match parse_digits radix s0 None with
              | Some v => Num (1 * v)
              | None => NaN
              end) = NaN \/
             exists n,
               (let '(radix, s0) :=
                  match t with
                  | String "0" (String "x" s') => (16, s')
                  | String "0" (String "X" s') => (16, s')
                  | _ => (10, t)
                  end in
                match parse_digits radix s0 None with
                | Some v => Num (1 * v)
                | None => NaN
                end) = Num n /\ 0 <= n).
  { intros t. destruct t as [| c1 t1]; [left; reflexivity|].
    ascii_cases c1; cbv beta iota zeta;
      try (apply digits_result_nonneg; lia).
    destruct t1 as [| c2 t2]; [apply digits_result_nonneg; lia|].
    ascii_cases c2; cbv beta iota zeta; apply digits_result_nonneg; lia. }
  cbn [noDelimiter] in Hs. apply andb_true_iff in Hs. destruct Hs as [Hc _].
  ascii_cases c; cbv beta iota zeta;
    first [ apply digits_result_nonneg; lia
          | exact (Hradix s1)
          | exact (Hradix (String "0" s1))
          | exfalso; vm_compute in Hc; discriminate Hc ].
Qed.

(** X6.  No discovered script has a negative id: the id is read from the
    characters before the first [_] or [-], so a minus sign never reaches
    [parseInt]; it is a number from 0 on, or NaN. *)
Theorem discovered_ids_are_not_negative :
  forall (W : Type) (md5hex : string -> string) (fs : Fs) (dirPath : string)
    (w : World W) (scripts : list MigrationItem.t),
    fst (findMigrationScripts md5hex fs dirPath w) = Ok scripts ->
    Forall (fun m =>
              MigrationItem.id m = NaN \/
              exists n, MigrationItem.id m = Num n /\ 0 <= n) scripts.
Proof.
  intros W md5hex fs dirPath w scripts Hfind.
  pose proof (findMigrationScripts_wellFormed W md5hex fs dirPath w scripts
                Hfind) as Hwf.
  eapply Forall_impl; [|exact Hwf].
  intros m [Hd Hid]. rewrite Hid. apply parseInt_nonneg.
  unfold substring_to, search_delimiter in *.
  pose proof (prefix_noDelimiter (MigrationItem.filename m) 0) as H.
  rewrite Z.sub_0_r in H. apply H; lia.
Qed.

Lemma discovered_ids_are_not_negative_witness :
  Forall (fun m =>
            MigrationItem.id m = NaN \/
            exists n, MigrationItem.id m = Num n /\ 0 <= n)
    [addCol2; init1].
Proof.
  apply (discovered_ids_are_not_negative Db toyDigest twoScripts "sql"
           (worldOf freshDb)).
  reflexivity.
Defined.

Local Abbreviation digitsOf := NilEmpty.string_of_uint.

Lemma parse_digits_stops (junk : string) (acc : option Z) :
  match junk with
  | EmptyString => true
  | String c _ => match digit_value 10 c with Some _ => false | None => true end
  end = true ->
  parse_digits 10 junk acc = acc.
Proof.
  destruct junk as [| c junk]; [reflexivity|]. cbn [parse_digits].
  destruct (digit_value 10 c); [discriminate | reflexivity].
Qed.

Ltac eval_digit :=
  match goal with
  | |- context [digit_value 10 ?c] =>
      let v := eval vm_compute in (digit_value 10 c) in
      change (digit_value 10 c) with v
  end.

Lemma parse_digits_uint_pos (d : Decimal.uint) (junk : string) :
  forall acc : positive,
    parse_digits 10 (digitsOf d ++ junk) (Some (Z.pos acc)) =
    parse_digits 10 junk (Some (Z.pos (Pos.of_uint_acc d acc))).
Proof.
  induction d; intros acc; cbn [NilEmpty.string_of_uint append Pos.of_uint_acc];
    [reflexivity | ..];
    (rewrite <- IHd; cbn [parse_digits]; eval_digit;
     cbv beta iota; do 2 f_equal; lia).
Qed.

Lemma parse_digits_uint_zero (d : Decimal.uint) (junk : string) :
  parse_digits 10 (digitsOf d ++ junk) (Some 0) =
  parse_digits 10 junk (Some (Z.of_N (Pos.of_uint d))).
Proof.
  induction d; cbn [NilEmpty.string_of_uint append Pos.of_uint];
    [reflexivity | ..];
    cbn [parse_digits]; eval_digit; cbv beta iota;
    [exact IHd | ..];
    (cbn [Z.of_N]; rewrite <- parse_digits_uint_pos; reflexivity).
Qed.

Lemma parse_digits_uint (d : Decimal.uint) (junk : string) :
  d <> Decimal.Nil ->
  parse_digits 10 (digitsOf d ++ junk) None =
  parse_digits 10 junk (Some (Z.of_N (Pos.of_uint d))).
Proof.
  destruct d; intros Hd; [contradiction | ..];
    cbn [NilEmpty.string_of_uint append Pos.of_uint].
  - rewrite <- parse_digits_uint_zero. cbn [parse_digits]. eval_digit.
    reflexivity.
  - cbn [Z.of_N]. rewrite <- parse_digits_uint_pos. cbn [parse_digits].
    eval_digit. reflexivity.
  - cbn [Z.of_N]. rewrite <- parse_digits_uint_pos. cbn [parse_digits].
    eval_digit. reflexivity.
  - cbn [Z.of_N]. rewrite <- parse_digits_uint_pos. cbn [parse_digits].
    eval_digit. reflexivity.
  - cbn [Z.of_N]. rewrite <- parse_digits_uint_pos. cbn [parse_digits].
    eval_digit. reflexivity.
  - cbn [Z.of_N]. rewrite <- parse_digits_uint_pos. cbn [parse_digits].
    eval_digit. reflexivity.
  - cbn [Z.of_N]. rewrite <- parse_digits_uint_pos. cbn [parse_digits].
    eval_digit. reflexivity.
  - cbn [Z.of_N]. rewrite <- parse_digits_uint_pos. cbn [parse_digits].
    eval_digit. reflexivity.
  - cbn [Z.of_N]. rewrite <- parse_digits_uint_pos. cbn [parse_digits].
    eval_digit. reflexivity.
  - cbn [Z.of_N]. rewrite <- parse_digits_uint_pos. cbn [parse_digits].
    eval_digit. reflexivity.
Qed.

(** [parseInt] of decimal digits, not a lone [0], followed by characters
    that do not go on with a digit, is the number of the digits. *)
Lemma parseInt_digits (d : Decimal.uint) (junk : string) :
  d <> Decimal.Nil -> d <> Decimal.D0 Decimal.Nil ->
  ignoredByParseInt 1 junk = true ->
  parseInt (digitsOf d ++ junk) = Num (Z.of_N (Pos.of_uint d)).
Proof.
  intros Hnil Hzero Hjunk.
  assert (Hstop : forall acc, parse_digits 10 junk acc = acc).
  { intros acc. apply parse_digits_stops. destruct junk as [| c junk];
      [reflexivity|]. cbn [ignoredByParseInt] in Hjunk.
    destruct (digit_value 10 c); [discriminate | reflexivity]. }
  assert (Hvalue : match parse_digits 10 (digitsOf d ++ junk) None with
                   | Some v => Num (1 * v)
                   | None => NaN
                   end = Num (Z.of_N (Pos.of_uint d))).
  { rewrite (parse_digits_uint d junk Hnil), Hstop.
    destruct (Z.of_N (Pos.of_uint d)); reflexivity. }
  destruct d as [| d' | d' | d' | d' | d' | d' | d' | d' | d' | d'];
    [contradiction | | exact Hvalue ..].
  destruct d' as [| d' | d' | d' | d' | d' | d' | d' | d' | d' | d'];
    [contradiction | exact Hvalue ..].
Qed.

Lemma parseInt_leading_digits (n : Z) (junk : string) :
  0 <= n -> ignoredByParseInt n junk = true ->
  parseInt (string_of_Z n ++ junk) = Num n.
Proof.
  intros Hn Hjunk. destruct n as [| p | p]; [| | lia].
  - change (string_of_Z 0 ++ junk) with (String "0" junk).
    destruct junk as [| c junk]; [reflexivity|].
    cbn [ignoredByParseInt] in Hjunk.
    ascii_cases c;
      first [ exfalso; vm_compute in Hjunk; discriminate Hjunk
            | reflexivity ].
  - unfold string_of_Z. cbn [Z.to_int NilZero.string_of_int].
    pose proof (Unsigned.to_uint_nonnil p) as Hnil.
    pose proof (Unsigned.to_uint_nonzero p) as Hzero.
    replace (NilZero.string_of_uint (Pos.to_uint p))
      with (digitsOf (Pos.to_uint p))
      by (destruct (Pos.to_uint p); [contradiction | reflexivity ..]).
    rewrite parseInt_digits.
    + rewrite Unsigned.of_to. reflexivity.
    + exact Hnil.
    + exact Hzero.
    + destruct junk as [| c junk]; [reflexivity|].
      cbn [ignoredByParseInt] in Hjunk |- *.
      destruct (digit_value 10 c); [discriminate | reflexivity].
Qed.

Lemma digitsOf_noDelimiter (d : Decimal.uint) : noDelimiter (digitsOf d) = true.
Proof. induction d; cbn [NilEmpty.string_of_uint noDelimiter]; auto. Qed.

Lemma string_of_Z_noDelimiter (n : Z) :
  0 <= n -> noDelimiter (string_of_Z n) = true.
Proof.
  intros Hn. destruct n as [| p | p]; [reflexivity | | lia].
  unfold string_of_Z. cbn [Z.to_int NilZero.string_of_int].
  pose proof (Unsigned.to_uint_nonnil p) as Hnil.
  destruct (Pos.to_uint p) eqn:E; [contradiction | ..];
    rewrite <- E; unfold NilZero.string_of_uint; rewrite E; rewrite <- E;
    apply digitsOf_noDelimiter.
Qed.

Lemma noDelimiter_app (s1 s2 : string) :
  noDelimiter (s1 ++ s2) = (noDelimiter s1 && noDelimiter s2)%bool.
Proof.
  induction s1 as [| c s1 IH]; cbn [append noDelimiter]; [reflexivity|].
  rewrite IH, andb_assoc. reflexivity.
Qed.

(** The first delimiter after a stretch without one. *)
Lemma search_from_app (s1 : string) (c : ascii) (s2 : string) :
  noDelimiter s1 = true -> is_delimiter c = true ->
  forall i, search_from (s1 ++ String c s2) i = i + Z.of_nat (String.length s1).
Proof.
  intros H1 Hc. induction s1 as [| c1 s1 IH]; intros i;
    cbn [append search_from String.length].
  - rewrite Hc. lia.
  - cbn [noDelimiter] in H1. apply andb_true_iff in H1. destruct H1 as [H1 H2].
    apply negb_true_iff in H1. rewrite H1, (IH H2). lia.
Qed.

Lemma substring_app (s1 s2 : string) :
  String.substring 0 (String.length s1) (s1 ++ s2) = s1.
Proof.
  induction s1 as [| c s1 IH]; cbn [append String.length String.substring].
  - destruct s2; reflexivity.
  - rewrite IH. reflexivity.
Qed.

(** X7.  A file named by the decimal digits of [n] (below 2^53, where
    JavaScript numbers are exact), then any characters that hold no
    delimiter and do not go on with a digit (nor, after a lone [0], with
    [x]), then a delimiter, is discovered with id [n]: [1_a.sql] has id 1,
    and so has [1st_a.sql]. *)
Theorem createMigrationItem_reads_leading_digits :
  forall (W : Type) (md5hex : string -> string) (fs : Fs)
    (dirName : string) (n : Z) (junk : string) (c : ascii) (rest data : string)
    (w : World W),
    let filename := string_of_Z n ++ junk ++ String c rest in
    0 <= n < 2 ^ 53 ->
    noDelimiter junk = true ->
    ignoredByParseInt n junk = true ->
    is_delimiter c = true ->
    readFile fs (path_join dirName filename) = Ok data ->
    createMigrationItem md5hex fs dirName filename w =
    (Ok (MigrationItem.mk (Num n) filename data (md5hex (filename ++ data))),
     w).
Proof.
  intros W md5hex fs dirName n junk c rest data w filename [Hn _] Hno Hjunk
    Hc Hr.
  assert (Hsearch : search_delimiter filename
                    = Z.of_nat (String.length (string_of_Z n ++ junk))).
  { unfold search_delimiter, filename.
    replace (string_of_Z n ++ junk ++ String c rest)
      with ((string_of_Z n ++ junk) ++ String c rest)
      by (clear; induction (string_of_Z n); cbn [append]; congruence).
    rewrite search_from_app; [lia | | exact Hc].
    rewrite noDelimiter_app, (string_of_Z_noDelimiter n Hn), Hno. reflexivity. }
  assert (Hlen : (1 <= String.length (string_of_Z n ++ junk))%nat).
  { destruct n as [| p | p]; [cbn; lia | | lia].
    unfold string_of_Z. cbn [Z.to_int NilZero.string_of_int].
    pose proof (Unsigned.to_uint_nonnil p) as Hnil.
    destruct (Pos.to_uint p); [contradiction | ..]; cbn; lia. }
  rewrite (createMigrationItem_ok W md5hex fs dirName filename data w).
  - rewrite Hsearch. unfold substring_to. rewrite Nat2Z.id.
    unfold filename at 1.
    replace (string_of_Z n ++ junk ++ String c rest)
      with ((string_of_Z n ++ junk) ++ String c rest)
      by (clear; induction (string_of_Z n); cbn [append]; congruence).
    rewrite substring_app, (parseInt_leading_digits n junk Hn Hjunk).
    reflexivity.
  - rewrite Hsearch. lia.
  - exact Hr.
Qed.

Lemma createMigrationItem_reads_leading_digits_witness :
  let fs := directory "sql" [("12th_users.sql", "CREATE TABLE users ();")] in
  fst (createMigrationItem toyDigest fs "sql" "12th_users.sql" (worldOf freshDb))
  = Ok (MigrationItem.mk (Num 12) "12th_users.sql" "CREATE TABLE users ();"
          (toyDigest "12th_users.sqlCREATE TABLE users ();")).
Proof.
  cbv zeta.
  pose proof (createMigrationItem_reads_leading_digits Db toyDigest
                (directory "sql" [("12th_users.sql", "CREATE TABLE users ();")])
                "sql" 12 "th" "_" "users.sql" "CREATE TABLE users ();"
                (worldOf freshDb)) as H.
  cbv zeta in H.
  exact (f_equal fst (H ltac:(lia) eq_refl eq_refl eq_refl eq_refl)).
Defined.

(* ================================================================== *)
(** ** Further facts about discovery and the top level of the run *)

Lemma unbroken_sequence_is_contiguous (l : list MigrationItem.t) :
  forall x,
    (forall pre prev s post,
        x :: l = (pre ++ prev :: s :: post)%list -> ~ breaksSequence prev s) ->
    l <> [] ->
    exists a,
      map MigrationItem.id (x :: l)
      = map Num (idsFrom a (List.length (x :: l))).
Proof.
  induction l as [| y t IH]; intros x Hseq Hne; [contradiction|].
  assert (Hxy : exists a, MigrationItem.id x = Num a /\
                          MigrationItem.id y = Num (a + 1)).
  { specialize (Hseq [] x y t eq_refl). unfold breaksSequence in Hseq.
    destruct (MigrationItem.id y) as [| b]; [exfalso; apply Hseq; reflexivity|].
    destruct (MigrationItem.id x) as [| a]; [exfalso; apply Hseq; reflexivity|].
    exists a. split; [reflexivity|]. f_equal.
    cbn [js_sub js_strict_neq_1] in Hseq.
    destruct (b - a =? 1) eqn:E; [apply Z.eqb_eq in E; lia|].
    exfalso. apply Hseq. reflexivity. }
  destruct Hxy as [a [Hx Hy]]. exists a.
  destruct t as [| z t'].
  - cbn. rewrite Hx, Hy. reflexivity.
  - destruct (IH y) as [a' Ha'].
    + intros pre prev s post Heq. apply (Hseq (x :: pre) prev s post).
      rewrite Heq. reflexivity.
    + discriminate.
    + assert (Heq : a' = a + 1).
      { cbn [map List.length idsFrom] in Ha'. rewrite Hy in Ha'.
        inversion Ha'. reflexivity. }
      subst a'.
      change (MigrationItem.id x :: map MigrationItem.id (y :: z :: t')
              = Num a :: map Num (idsFrom (a + 1) (List.length (y :: z :: t')))).
      rewrite Hx, Ha'. reflexivity.
Qed.

(** Two lists with the same elements and the same ids in the same order,
    no id occurring twice, are the same list. *)
Lemma permutation_same_ids (l1 : list MigrationItem.t) :
  forall l2,
    Permutation l1 l2 ->
    map MigrationItem.id l1 = map MigrationItem.id l2 ->
    NoDup (map MigrationItem.id l1) ->
    l1 = l2.
Proof.
  induction l1 as [| x l1 IH]; intros l2 Hperm Hids Hnd.
  - apply Permutation_nil in Hperm. subst. reflexivity.
  - destruct l2 as [| y l2]; [discriminate|].
    cbn [map] in Hids, Hnd. inversion Hids as [[Hxy Hrest]].
    inversion Hnd as [| ? ? Hnotin Hnd']; subst.
    assert (Heq : x = y).
    { assert (Hin : In x (y :: l2))
        by (eapply Permutation_in; [exact Hperm | left; reflexivity]).
      destruct Hin as [Hin | Hin]; [symmetry; exact Hin|].
      exfalso. apply Hnotin. rewrite Hrest. apply in_map. exact Hin. }
    subst y. f_equal. apply IH; [|exact Hrest | exact Hnd'].
    eapply Permutation_cons_inv. exact Hperm.
Qed.

(** X8.  What [getMigrationsScripts] hands to the run.  A single script,
    or none, passes whatever its id, NaN included.  Two scripts or more
    whose ids are integers below 2^53 pass exactly when these are
    consecutive integers [a, a+1, ...] from some [a], which is not checked
    here; the result is then the scripts in ascending order of id. *)
Theorem getMigrationsScripts_result :
  forall (W : Type) (md5hex : string -> string) (fs : Fs)
    (migrationPath : string) (w : World W) (scripts : list MigrationItem.t),
    fst (findMigrationScripts md5hex fs migrationPath w) = Ok scripts ->
    let result := fst (getMigrationsScripts md5hex fs migrationPath w) in
    ((List.length scripts <= 1)%nat -> result = Ok scripts) /\
    ((2 <= List.length scripts)%nat ->
     Forall (fun m => isSafeInteger (MigrationItem.id m) = true) scripts ->
     forall sorted,
       result = Ok sorted <->
       Permutation sorted scripts /\
       exists a,
         map MigrationItem.id sorted
         = map Num (idsFrom a (List.length sorted))).
Proof.
  intros W md5hex fs path w scripts Hfind. cbv zeta.
  rewrite getMigrationsScripts_spec.
  rewrite (findMigrationScripts_ok W md5hex fs _ _ _ Hfind w).
  split.
  - intros Hlen. destruct scripts as [| s [| s' l]]; [reflexivity | reflexivity|].
    cbn in Hlen. lia.
  - intros Hlen _ sorted.
    set (w1 := add_log (discoveryLog path (List.length scripts)) w).
    split.
    + destruct (fst (checkIdsSequence (sortScripts scripts) None w1))
        as [[] | e] eqn:Hcheck; cbn [fst]; [|discriminate].
      intros H. inversion H; subst sorted.
      split; [apply sortScripts_perm|].
      pose proof (checkIdsSequence_passes W _ None w1 Hcheck) as Hseq.
      pose proof (sortScripts_length scripts) as Hl.
      destruct (sortScripts scripts) as [| x l]; [cbn in Hl; lia|].
      apply unbroken_sequence_is_contiguous; [exact Hseq|].
      destruct l; [cbn in Hl; lia | discriminate].
    + intros [Hperm [a Hids]].
      assert (Hp : Permutation (map MigrationItem.id scripts)
                     (map Num (idsFrom a (List.length scripts)))).
      { rewrite <- (Permutation_length Hperm), <- Hids.
        apply Permutation_map, Permutation_sym, Hperm. }
      pose proof (sortScripts_contiguous scripts a Hp) as Hsorted.
      rewrite (checkIdsSequence_contiguous W (sortScripts scripts) a None w1);
        [|rewrite sortScripts_length; exact Hsorted | left; reflexivity].
      cbn [fst]. f_equal. symmetry. apply permutation_same_ids.
      * eapply Permutation_trans; [exact Hperm|].
        apply Permutation_sym, sortScripts_perm.
      * rewrite Hids, Hsorted, (Permutation_length Hperm). reflexivity.
      * rewrite Hids. apply NoDup_map_Num, idsFrom_NoDup.
Qed.

(** The scripts with ids 3 and 2, as listed: they pass, in ascending
    order, though no script has id 1. *)
Lemma getMigrationsScripts_result_witness :
  fst (getMigrationsScripts toyDigest
         (directory "sql" [fileOf index3; fileOf addCol2]) "sql"
         (worldOf freshDb))
  = Ok [addCol2; index3].
Proof.
  destruct (getMigrationsScripts_result Db toyDigest
              (directory "sql" [fileOf index3; fileOf addCol2]) "sql"
              (worldOf freshDb) [index3; addCol2] eq_refl)
    as [_ Hmany].
  apply (Hmany ltac:(cbn; lia) ltac:(repeat constructor)).
  split; [apply perm_swap|]. exists 2. reflexivity.
Defined.

(** X9.  [startMigration] never raises to its caller.  It ends normally,
    and its last message tells how the run went: that the client should be
    initialized when the engine is not ready, the error of
    [getMigrationsScripts] or of [doMigration] as the cause when one of
    them raised, and the success message otherwise.  The pool is as the
    last step that touched it has left it: untouched unless [doMigration]
    was reached. *)
Theorem startMigration_never_raises :
  forall (W : Type) (pool : Pool W) (md5hex : string -> string) (fs : Fs)
    (migrationPath : string) (initialized : bool) (w : World W),
    let after := startMigration pool md5hex fs migrationPath initialized w in
    let found :=
      getMigrationsScripts md5hex fs migrationPath (add_log startLog w) in
    fst after = Ok tt /\
    if initialized then
      match fst found with
      | Throw e =>
          lastLog (snd after) = Some (runFailure e) /\
          w_pool (snd after) = w_pool w /\
          w_calls (snd after) = w_calls w
      | Ok scripts =>
          if (List.length scripts =? 0)%nat then
            lastLog (snd after) = Some runSuccess /\
            w_pool (snd after) = w_pool w /\
            w_calls (snd after) = w_calls w
          else
            let migrated := doMigration pool scripts (snd found) in
            lastLog (snd after)
            = Some (match fst migrated with
                    | Ok _ => runSuccess
                    | Throw e => runFailure e
                    end) /\
            w_pool (snd after) = w_pool (snd migrated) /\
            w_calls (snd after) = w_calls (snd migrated)
      end
    else
      lastLog (snd after)
      = Some (runFailure
                (Error "PgMigrationClient should be initialized before use")) /\
      w_pool (snd after) = w_pool w /\
      w_calls (snd after) = w_calls w.
Proof.
  intros W pool md5hex fs path initialized w. cbv zeta.
  destruct initialized.
  - rewrite startMigration_ready.
    destruct (log_only_frame W _ (add_log startLog w)
                (log_only_getMigrationsScripts W md5hex fs path))
      as [Hpool Hcalls].
    destruct (getMigrationsScripts md5hex fs path (add_log startLog w))
      as [[scripts | e] w1]; cbn [fst snd] in *.
    + destruct (List.length scripts =? 0)%nat.
      * cbn [reportRun logger_info log_append fst snd].
        split; [reflexivity|]. split; [apply (lastLog_add_log [])|].
        split; assumption.
      * destruct (doMigration pool scripts w1) as [[u | e] w2];
          cbn [reportRun fst snd]; (split; [reflexivity|]);
          (split; [apply (lastLog_add_log [])|]); split; reflexivity.
    + cbn [reportRun fst snd]. split; [reflexivity|].
      split; [apply (lastLog_add_log [])|]. split; assumption.
  - rewrite startMigration_not_ready. cbn [reportRun fst snd].
    split; [reflexivity|]. split; [apply (lastLog_add_log [])|].
    split; reflexivity.
Qed.

(** X10.  With an empty directory the run succeeds without a single call on
    the pool: the history is not even read. *)
Theorem empty_directory_run_is_silent_on_pool :
  forall (W : Type) (pool : Pool W) (md5hex : string -> string) (fs : Fs)
    (migrationPath : string) (w : World W),
    readDir fs migrationPath = Ok [] ->
    startMigration pool md5hex fs migrationPath true w =
    (Ok tt,
     add_log
       (startLog ++ discoveryLog migrationPath 0
        ++ [LogInfo ("Migration scripts not found, path=" ++ migrationPath);
            LogInfo "Database migration complete successfully"])%list
       w).
Proof.
  intros W pool md5hex fs path w Hdir.
  rewrite startMigration_ready, getMigrationsScripts_spec,
    findMigrationScripts_equation, Hdir.
  cbn [collectMigrationItems ret fst snd sortScripts fold_right
       checkIdsSequence List.length Nat.eqb reportRun].
  unfold logger_info, log_append, reportRun, add_log, startLog, discoveryLog.
  cbn [w_pool w_log w_calls]. rewrite <- !app_assoc. reflexivity.
Qed.

Lemma empty_directory_run_is_silent_on_pool_witness :
  let after := startMigration (referencePool acceptAll) toyDigest
                 (directory "sql" []) "sql" true (worldOf blankDb) in
  w_pool (snd after) = blankDb /\ w_calls (snd after) = [] /\
  lastLog (snd after)
  = Some (LogInfo "Database migration complete successfully").
Proof.
  cbv zeta.
  rewrite (empty_directory_run_is_silent_on_pool Db (referencePool acceptAll)
             toyDigest (directory "sql" []) "sql" (worldOf blankDb) eq_refl).
  split; [reflexivity|]. split; reflexivity.
Defined.

Section HistoryFacts.

Variable W : Type.
Variable pool : Pool W.

Lemma doMigration_unreadable (scripts : list MigrationItem.t) (w : World W)
  (e : Exn) (p0 : W) :
  pool_query pool SELECT_EXISTING_MIGRATIONS [] (w_pool w) = (Throw e, p0) ->
  doMigration pool scripts w =
  (Throw (Error (message e)),
   mkWorld p0 (w_log w)
     (w_calls w ++ [PoolQuery SELECT_EXISTING_MIGRATIONS []])).
Proof.
  intros Hq. unfold doMigration, getPersistedMigrations, doExecuteQuery.
  unfold bind at 1 2 3. rewrite execute_spec, Hq. reflexivity.
Qed.

End HistoryFacts.

(** X11.  When the history cannot be read (the SELECT is rejected, as it is
    when the table is missing), the run stops there: the rejection is
    logged as the cause, and the SELECT is the only call made on the pool;
    no script is executed. *)
Theorem unreadable_history_aborts_run :
  forall (W : Type) (pool : Pool W) (md5hex : string -> string) (fs : Fs)
    (migrationPath : string) (w : World W) (sorted : list MigrationItem.t)
    (e : Exn) (p0 : W),
    fst (getMigrationsScripts md5hex fs migrationPath w) = Ok sorted ->
    sorted <> [] ->
    pool_query pool SELECT_EXISTING_MIGRATIONS [] (w_pool w) = (Throw e, p0) ->
    startMigration pool md5hex fs migrationPath true w =
    (Ok tt,
     mkWorld p0
       (w_log w ++ startLog
        ++ discoveryLog migrationPath (List.length sorted)
        ++ [LogError ("Unable to complete database migration, cause: "
                      ++ message e)])
       (w_calls w ++ [PoolQuery SELECT_EXISTING_MIGRATIONS []])).
Proof.
  intros W pool md5hex fs path w sorted e p0 Hget Hne Hq.
  destruct (getMigrationsScripts_ok W md5hex fs path sorted w Hget)
    as [scripts [_ [_ [_ Hrun]]]].
  rewrite startMigration_ready, Hrun.
  destruct sorted as [| s sorted']; [contradiction|].
  cbn [List.length Nat.eqb].
  rewrite (doMigration_unreadable W pool _ _ e p0) by exact Hq.
  unfold reportRun, add_log. cbn [w_pool w_log w_calls message].
  rewrite <- !app_assoc. reflexivity.
Qed.

Lemma unreadable_history_aborts_run_witness :
  let after := startMigration (referencePool acceptAll) toyDigest twoScripts
                 "sql" true (worldOf blankDb) in
  w_pool (snd after) = blankDb /\
  w_calls (snd after) = [PoolQuery SELECT_EXISTING_MIGRATIONS []] /\
  lastLog (snd after)
  = Some (LogError ("Unable to complete database migration, cause: "
                    ++ "relation migrations does not exist")).
Proof.
  cbv zeta.
  rewrite (unreadable_history_aborts_run Db (referencePool acceptAll)
             toyDigest twoScripts "sql" (worldOf blankDb) [init1; addCol2]
             (Error "relation migrations does not exist") blankDb eq_refl).
  - split; [reflexivity|]. split; reflexivity.
  - discriminate.
  - reflexivity.
Defined.

(** X12.  A script that is not in the history must carry the id that
    follows the id of the last row of the history.  When the first such
    script does not (the scripts before it being recorded with their
    fingerprints), the run stops before executing it: the error names the
    file and the id expected, and the SELECT of the history is the only
    call made on the pool.  The id of the script and that of the last row
    are integers below 2^53, so that their difference and the id expected
    are what JavaScript computes. *)
Theorem script_out_of_step_with_history_is_rejected :
  forall (W : Type) (pool : Pool W) (md5hex : string -> string) (fs : Fs)
    (migrationPath : string) (w : World W)
    (pre : list MigrationItem.t) (m : MigrationItem.t)
    (post : list MigrationItem.t) (q : QueryResult) (p0 : W)
    (entries : list MigrationEntry.t) (lastEntry : MigrationEntry.t),
    fst (getMigrationsScripts md5hex fs migrationPath w)
    = Ok (pre ++ m :: post)%list ->
    pool_query pool SELECT_EXISTING_MIGRATIONS [] (w_pool w) = (Ok q, p0) ->
    rows q = (entries ++ [lastEntry])%list ->
    (forall x, In x pre ->
       exists entry,
         findEntry (rows q) (MigrationItem.filename x) = Some entry /\
         MigrationEntry.hash entry = Some (MigrationItem.hash x)) ->
    findEntry (rows q) (MigrationItem.filename m) = None ->
    isSafeInteger (MigrationItem.id m) = true ->
    isSafeInteger (Num (MigrationEntry.id lastEntry)) = true ->
    js_strict_neq_1
      (js_sub (MigrationItem.id m) (Num (MigrationEntry.id lastEntry))) = true ->
    startMigration pool md5hex fs migrationPath true w =
    (Ok tt,
     mkWorld p0
       (w_log w ++ startLog
        ++ discoveryLog migrationPath (List.length (pre ++ m :: post))
        ++ [LogError ("Unable to complete database migration, cause: "
                      ++ "Invalid script ID for filename "
                      ++ MigrationItem.filename m ++ ", expected ID="
                      ++ string_of_Z (MigrationEntry.id lastEntry + 1))])
       (w_calls w ++ [PoolQuery SELECT_EXISTING_MIGRATIONS []])).
Proof.
  intros W pool md5hex fs path w pre m post q p0 entries lastEntry
    Hget Hq Hrows Hpre Hnew _ _ Hstep.
  destruct (getMigrationsScripts_ok W md5hex fs path _ w Hget)
    as [scripts [_ [_ [_ Hrun]]]].
  rewrite startMigration_ready, Hrun.
  assert (Hlen : (List.length (pre ++ m :: post) =? 0)%nat = false).
  { rewrite length_app. cbn [List.length]. apply Nat.eqb_neq. lia. }
  rewrite Hlen.
  rewrite (doMigration_spec W pool _ _ q p0) by exact Hq.
  cbv zeta.
  destruct (rows q) as [| entry rest] eqn:Erows.
  { destruct entries; discriminate Hrows. }
  assert (Hlast : List.last (entry :: rest) entry = lastEntry).
  { rewrite Hrows. apply last_last. }
  rewrite Hlast, migrateScripts_app.
  rewrite (migrateScripts_all_applied W pool (entry :: rest) pre) by exact Hpre.
  rewrite (migrateScripts_missing W pool _ _ _ _ _ _ Hnew), Hstep.
  unfold finishLoop, reportRun, add_log. cbn [w_pool w_log w_calls message].
  cbn [js_add js_to_string]. rewrite <- !app_assoc. reflexivity.
Qed.

(** Scripts 2 and 3 against a history that holds the sentinel only. *)
Lemma script_out_of_step_with_history_is_rejected_witness :
  let fs := directory "sql" [fileOf addCol2; fileOf index3] in
  let after := startMigration (referencePool acceptAll) toyDigest fs "sql"
                 true (worldOf freshDb) in
  w_pool (snd after) = freshDb /\
  w_calls (snd after) = [PoolQuery SELECT_EXISTING_MIGRATIONS []] /\
  lastLog (snd after)
  = Some (LogError ("Unable to complete database migration, cause: "
                    ++ "Invalid script ID for filename 2_add_col.sql, expected ID=1")).
Proof.
  cbv zeta.
  rewrite (script_out_of_step_with_history_is_rejected Db
             (referencePool acceptAll) toyDigest
             (directory "sql" [fileOf addCol2; fileOf index3]) "sql"
             (worldOf freshDb) [] addCol2 [index3]
             {| rows := [sentinel 0] |} freshDb [] (sentinel 0)).
  - split; [reflexivity|]. split; reflexivity.
  - reflexivity.
  - reflexivity.
  - reflexivity.
  - intros x [].
  - reflexivity.
  - reflexivity.
  - reflexivity.
  - reflexivity.
Defined.

(* ================================================================== *)
(** ** The calls a run makes on the pool *)

Section Sends.

Variable W : Type.
Variable pool : Pool W.
Variable P : PoolCall -> Prop.

Lemma sends_silent {A} (c : M W A) :
  (forall w, w_calls (snd (c w)) = w_calls w) -> sends P c.
Proof.
  intros H w. exists []. rewrite H, app_nil_r. split; [reflexivity | constructor].
Qed.

Lemma sends_ret {A} (a : A) : sends P (@ret W A a).
Proof. apply sends_silent. reflexivity. Qed.

Lemma sends_throw {A} (e : Exn) : sends P (@throw W A e).
Proof. apply sends_silent. reflexivity. Qed.

Lemma sends_log_append (entry : LogEntry) : sends P (@log_append W entry).
Proof. apply sends_silent. reflexivity. Qed.

Lemma sends_bind {A B} (c : M W A) (k : A -> M W B) :
  sends P c -> (forall a, sends P (k a)) -> sends P (bind c k).
Proof.
  intros Hc Hk w. unfold bind.
  destruct (Hc w) as [calls1 [H1 HP1]].
  destruct (c w) as [[a | e] w1]; cbn [snd] in H1.
  - destruct (Hk a w1) as [calls2 [H2 HP2]].
    exists (calls1 ++ calls2)%list. rewrite H2, H1, app_assoc.
    split; [reflexivity | apply Forall_app; split; assumption].
  - exists calls1. split; assumption.
Qed.

Lemma sends_try_catch {A} (c : M W A) (h : Exn -> M W A) :
  sends P c -> (forall e, sends P (h e)) -> sends P (try_catch c h).
Proof.
  intros Hc Hh w. unfold try_catch.
  destruct (Hc w) as [calls1 [H1 HP1]].
  destruct (c w) as [[a | e] w1]; cbn [snd] in H1.
  - exists calls1. split; assumption.
  - destruct (Hh e w1) as [calls2 [H2 HP2]].
    exists (calls1 ++ calls2)%list. rewrite H2, H1, app_assoc.
    split; [reflexivity | apply Forall_app; split; assumption].
Qed.

Lemma sends_execute (statement : string) (params : list string) :
  P (PoolQuery statement params) -> sends P (execute pool statement params).
Proof.
  intros HP w. exists [PoolQuery statement params].
  rewrite execute_calls. split; [reflexivity | repeat constructor; exact HP].
Qed.

Lemma sends_executeInTransaction (statement : string) :
  P PoolConnect -> P ClientRelease ->
  P (ClientQuery "START TRANSACTION") -> P (ClientQuery "COMMIT") ->
  P (ClientQuery "ROLLBACK") -> P (ClientQuery statement) ->
  sends P (executeInTransaction pool statement).
Proof.
  intros Hconnect Hrelease Hstart Hcommit Hrollback Hbody w.
  destruct (executeInTransaction_calls W pool statement w)
    as [calls [Hcalls Hshape]].
  exists calls. split; [exact Hcalls|].
  destruct (succeeded (fst (executeInTransaction pool statement w))).
  - subst calls. unfold committedTrace. repeat constructor; assumption.
  - unfold failedTraces in Hshape.
    destruct Hshape as [H | [H | [H | [H | []]]]]; subst calls;
      repeat constructor; assumption.
Qed.

End Sends.

Section EngineCalls.

Variable W : Type.
Variable pool : Pool W.
Variable scripts : list MigrationItem.t.

Lemma sends_executeMigrationScript (m : MigrationItem.t) :
  In m scripts -> sends (engineCall scripts) (executeMigrationScript pool m).
Proof.
  intros Hin. unfold executeMigrationScript.
  apply sends_try_catch.
  - apply sends_bind.
    + destruct (startsWith "--AUTOCOMMIT" (MigrationItem.data m)) eqn:Hmark.
      * apply sends_bind; [apply sends_log_append|]. intros _.
        apply sends_execute. apply call_bare; assumption.
      * apply sends_executeInTransaction;
          [constructor .. | apply call_body; assumption].
    + intros migrationResult. apply sends_bind; [|intros; apply sends_log_append].
      unfold addMigrationEntry. destruct (isSuccess migrationResult).
      * apply sends_bind; [|intros; apply sends_ret].
        apply sends_execute. apply (call_insert scripts m Hin).
      * apply sends_throw.
  - intros e. apply sends_bind; [apply sends_log_append|].
    intros _. apply sends_throw.
Qed.

Lemma sends_updateScriptHash (m : MigrationItem.t) (entryHash : option string) :
  In m scripts ->
  sends (engineCall scripts) (updateScriptHash pool m entryHash).
Proof.
  intros Hin. unfold updateScriptHash. destruct entryHash as [h |].
  - destruct (negb (h =? MigrationItem.hash m)%string);
      [apply sends_throw | apply sends_ret].
  - apply sends_bind; [|intros; apply sends_ret].
    apply sends_execute. apply call_update. exact Hin.
Qed.

Lemma sends_migrateScripts (entries : list MigrationEntry.t)
  (l : list MigrationItem.t) :
  forall (lastId : JsNumber) (missed : list MigrationItem.t),
    (forall m, In m l -> In m scripts) ->
    sends (engineCall scripts) (migrateScripts pool entries l lastId missed).
Proof.
  induction l as [| m l IH]; intros lastId missed Hincl;
    cbn [migrateScripts].
  - apply sends_ret.
  - destruct (findEntry entries (MigrationItem.filename m)) as [entry |].
    + apply sends_bind.
      * apply sends_updateScriptHash. apply Hincl. left. reflexivity.
      * intros _. apply IH. intros x Hx. apply Hincl. right. exact Hx.
    + apply sends_bind.
      * unfold validateScriptId.
        destruct (js_strict_neq_1 (js_sub (MigrationItem.id m) lastId));
          [apply sends_throw | apply sends_ret].
      * intros _. apply sends_bind.
        -- apply sends_executeMigrationScript. apply Hincl. left. reflexivity.
        -- intros _. apply IH. intros x Hx. apply Hincl. right. exact Hx.
Qed.

Lemma sends_doMigration (l : list MigrationItem.t) :
  (forall m, In m l -> In m scripts) ->
  sends (engineCall scripts) (doMigration pool l).
Proof.
  intros Hincl. unfold doMigration. apply sends_bind.
  - unfold getPersistedMigrations. apply sends_bind; [|intros; apply sends_ret].
    unfold doExecuteQuery. apply sends_bind.
    + apply sends_execute. constructor.
    + intros r. destruct (isSuccess r); [apply sends_ret | apply sends_throw].
  - intros entries. apply sends_bind.
    + unfold lastEntryId.
      destruct (List.last (map Some entries) None);
        [apply sends_ret | apply sends_throw].
    + intros lastId. apply sends_bind.
      * apply sends_migrateScripts. exact Hincl.
      * intros final. destruct (List.length (snd final) =? 0)%nat;
          [apply sends_log_append | apply sends_ret].
Qed.

End EngineCalls.

(** X13.  The calls a run makes on the pool are the SELECT of the history,
    the INSERT and the UPDATE of the row of a discovered script, the body
    of a discovered script (through [pool.query] only when it carries the
    marker, on a client otherwise), and connect, START TRANSACTION, COMMIT,
    ROLLBACK and release: the run sends no statement of its own besides
    these, and none at all when discovery fails. *)
Theorem run_sends_only_its_statements :
  forall (W : Type) (pool : Pool W) (md5hex : string -> string) (fs : Fs)
    (migrationPath : string) (initialized : bool) (w : World W),
    exists calls,
      w_calls (snd (startMigration pool md5hex fs migrationPath initialized w))
      = (w_calls w ++ calls)%list /\
      match fst (findMigrationScripts md5hex fs migrationPath w) with
      | Ok scripts => Forall (engineCall scripts) calls
      | Throw _ => calls = []
      end.
Proof.
  intros W pool md5hex fs path initialized w.
  assert (Hnone : exists calls,
             w_calls w = (w_calls w ++ calls)%list /\
             match fst (findMigrationScripts md5hex fs path w) with
             | Ok scripts => Forall (engineCall scripts) calls
             | Throw _ => calls = []
             end).
  { exists []. rewrite app_nil_r. split; [reflexivity|].
    destruct (fst (findMigrationScripts md5hex fs path w));
      [constructor | reflexivity]. }
  destruct initialized.
  2:{ rewrite startMigration_not_ready. exact Hnone. }
  rewrite startMigration_ready.
  pose proof (log_only_frame W (getMigrationsScripts md5hex fs path)
                (add_log startLog w)
                (log_only_getMigrationsScripts W md5hex fs path))
    as [_ Hcalls1].
  destruct (getMigrationsScripts md5hex fs path (add_log startLog w))
    as [[sorted | e] w1] eqn:Hget; cbn [snd] in Hcalls1.
  2:{ cbn [reportRun snd add_log w_calls]. rewrite Hcalls1. exact Hnone. }
  destruct (getMigrationsScripts_ok W md5hex fs path sorted
              (add_log startLog w)) as [scripts [Hfind [Hsorted _]]];
    [rewrite Hget; reflexivity|].
  rewrite (log_only_fst W (findMigrationScripts md5hex fs path) w
             (add_log startLog w)
             (log_only_findMigrationScripts W md5hex fs path)) in Hfind.
  rewrite Hfind.
  destruct (List.length sorted =? 0)%nat.
  - unfold logger_info, log_append. cbn [reportRun snd add_log w_calls].
    rewrite Hcalls1. exists []. rewrite app_nil_r.
    split; [reflexivity | constructor].
  - destruct (sends_doMigration W pool scripts sorted) with (w := w1)
      as [calls [Hcalls HP]].
    { intros m Hin. rewrite Hsorted in Hin.
      eapply Permutation_in; [apply sortScripts_perm | exact Hin]. }
    exists calls. split; [|exact HP].
    destruct (doMigration pool sorted w1) as [[u | e] w2];
      cbn [reportRun snd add_log w_calls] in *; rewrite Hcalls, Hcalls1;
      reflexivity.
Qed.

(* ================================================================== *)
(** ** Further facts about runs against the reference database *)

Lemma orderById_ascending (l : list MigrationEntry.t) :
  StronglySorted Z.lt (map MigrationEntry.id l) -> orderById l = l.
Proof.
  induction l as [| x l IH]; intros Hs; [reflexivity|].
  cbn [map] in Hs. inversion Hs as [| ? ? Hs' Hall]; subst.
  unfold orderById in *. cbn [fold_right]. rewrite (IH Hs').
  destruct l as [| y l']; [reflexivity|]. cbn [insertEntry].
  cbn [map] in Hall. inversion Hall as [| ? ? Hxy _]; subst.
  replace (MigrationEntry.id y <? MigrationEntry.id x) with false
    by (symmetry; apply Z.ltb_ge; lia).
  reflexivity.
Qed.

Lemma idsFrom_app (n1 n2 : nat) :
  forall a,
    idsFrom a (n1 + n2) = (idsFrom a n1 ++ idsFrom (a + Z.of_nat n1) n2)%list.
Proof.
  induction n1 as [| n1 IH]; intros a.
  - cbn [idsFrom Nat.add app]. f_equal. lia.
  - cbn [idsFrom Nat.add app]. rewrite IH. do 3 f_equal. lia.
Qed.

Lemma idsFrom_ascending (n : nat) :
  forall a, StronglySorted Z.lt (idsFrom a n).
Proof.
  induction n as [| n IH]; intros a; cbn [idsFrom]; constructor.
  - apply IH.
  - apply Forall_forall. intros z Hz. apply idsFrom_bounds in Hz. lia.
Qed.

Lemma last_idsFrom (n : nat) :
  forall a d, List.last (idsFrom a (S n)) d = a + Z.of_nat n.
Proof.
  induction n as [| n IH]; intros a d.
  - cbn. lia.
  - change (List.last (idsFrom a (S (S n))) d)
      with (List.last (idsFrom (a + 1) (S n)) d).
    rewrite IH. lia.
Qed.

Lemma last_of_map {A B} (f : A -> B) (l : list A) (d : A) :
  f (List.last l d) = List.last (map f l) (f d).
Proof.
  induction l as [| x l IH]; [reflexivity|].
  destruct l as [| y l]; [reflexivity|].
  change (List.last (x :: y :: l) d) with (List.last (y :: l) d).
  change (List.last (map f (x :: y :: l)) (f d))
    with (List.last (map f (y :: l)) (f d)).
  exact IH.
Qed.

Lemma NoDup_app_disjoint {A} (l1 l2 : list A) (x : A) :
  NoDup (l1 ++ l2) -> In x l1 -> ~ In x l2.
Proof.
  induction l1 as [| y l1 IH]; intros Hnd Hin; [contradiction|].
  cbn in Hnd. inversion Hnd as [| ? ? Hnotin Hnd']; subst.
  destruct Hin as [Heq | Hin].
  - subst. intros H. apply Hnotin. apply in_or_app. right. exact H.
  - apply IH; assumption.
Qed.

Lemma recordedAs_columns (applied : list MigrationItem.t)
  (history : list MigrationEntry.t) :
  Forall2 recordedAs applied history ->
  map MigrationItem.id applied = map Num (map MigrationEntry.id history) /\
  map MigrationEntry.filename history = map MigrationItem.filename applied /\
  List.length history = List.length applied.
Proof.
  induction 1 as [| m e applied history [Hid [Hname _]] _ [IH1 [IH2 IH3]]].
  - repeat split.
  - cbn [map List.length]. rewrite Hid, Hname, IH1, IH2, IH3. repeat split.
Qed.

Lemma Forall2_In_left {A B} (R : A -> B -> Prop) (l1 : list A) (l2 : list B)
  (x : A) :
  Forall2 R l1 l2 -> In x l1 -> exists y, In y l2 /\ R x y.
Proof.
  induction 1 as [| a b l1 l2 Hab _ IH]; intros Hin; [contradiction|].
  destruct Hin as [Heq | Hin].
  - subst. exists b. split; [left; reflexivity | exact Hab].
  - destruct (IH Hin) as [y [Hy HR]]. exists y. split; [right; exact Hy | exact HR].
Qed.

Lemma map_Num_injective (l1 l2 : list Z) : map Num l1 = map Num l2 -> l1 = l2.
Proof.
  revert l2. induction l1 as [| x l1 IH]; intros [| y l2] H;
    try discriminate; [reflexivity|].
  cbn in H. inversion H; subst. f_equal. apply IH. assumption.
Qed.

Section ReferenceHistory.

Variable sql_ok : list string -> string -> bool.
Variable md5hex : string -> string.
Variable fs : Fs.
Variable migrationPath : string.

Local Abbreviation pool := (referencePool sql_ok).

(** A run over scripts of which the first are recorded in the history with
    their ids and fingerprints: the history is read, the recorded scripts
    are passed over, and the loop goes on with the others from the id of
    the last recorded one. *)
Lemma reference_run_skips_applied (w : World Db)
  (applied fresh : list MigrationItem.t) (sentinelTime : Z)
  (history : list MigrationEntry.t) :
  let scripts := (applied ++ fresh)%list in
  let table := sentinel sentinelTime :: history in
  fst (getMigrationsScripts md5hex fs migrationPath w) = Ok scripts ->
  scripts <> [] ->
  map MigrationItem.id scripts = map Num (idsFrom 1 (List.length scripts)) ->
  migrations (w_pool w) = Some table ->
  Forall2 recordedAs applied history ->
  startMigration pool md5hex fs migrationPath true w =
  reportRun
    (finishLoop
       (migrateScripts pool table fresh
          (Num (Z.of_nat (List.length applied))) []
          (mkWorld (w_pool w)
             (w_log w ++ startLog
              ++ discoveryLog migrationPath (List.length scripts))
             (w_calls w ++ [PoolQuery SELECT_EXISTING_MIGRATIONS []])))) /\
  Forall (fun m => findEntry table (MigrationItem.filename m) = None) fresh /\
  NoDup (map MigrationItem.filename fresh) /\
  Forall (fun m => ~ In (MigrationItem.filename m)
                     (map MigrationEntry.filename table)) fresh /\
  map MigrationItem.id fresh
  = map Num (idsFrom (Z.of_nat (List.length applied) + 1) (List.length fresh)) /\
  map MigrationEntry.id table = idsFrom 0 (S (List.length applied)).
Proof.
  intros scripts table Hget Hne Hids Htable Hrec.
  destruct (getMigrationsScripts_ok Db md5hex fs migrationPath scripts w Hget)
    as [found [Hfind [Hsorted [_ Hrun]]]].
  assert (Hwf : Forall wellFormed scripts).
  { rewrite Hsorted. eapply Permutation_Forall.
    - apply Permutation_sym, sortScripts_perm.
    - eapply findMigrationScripts_wellFormed. exact Hfind. }
  assert (Hnd : NoDup (map MigrationItem.filename scripts)).
  { apply wellFormed_filenames_NoDup; [exact Hwf|].
    rewrite Hids. apply NoDup_map_Num, idsFrom_NoDup. }
  destruct (recordedAs_columns applied history Hrec) as [Hcol1 [Hcol2 Hcol3]].
  (* the ids, split *)
  assert (Hsplit : map MigrationItem.id applied
                   = map Num (idsFrom 1 (List.length applied)) /\
                   map MigrationItem.id fresh
                   = map Num (idsFrom (1 + Z.of_nat (List.length applied))
                                (List.length fresh))).
  { unfold scripts in Hids. rewrite map_app, length_app, idsFrom_app, map_app
      in Hids.
    apply app_eq_length_inv in Hids; [exact Hids|].
    rewrite !length_map, idsFrom_length. reflexivity. }
  destruct Hsplit as [Hids1 Hids2].
  assert (Hhist : map MigrationEntry.id history
                  = idsFrom 1 (List.length applied)).
  { apply map_Num_injective. rewrite <- Hcol1. exact Hids1. }
  assert (Htabids : map MigrationEntry.id table
                    = idsFrom 0 (S (List.length applied))).
  { unfold table. cbn [map idsFrom sentinel MigrationEntry.id]. rewrite Hhist.
    reflexivity. }
  assert (Hnames : map MigrationEntry.filename table
                   = "PgMigrationClient initialized"
                     :: map MigrationItem.filename applied).
  { unfold table. cbn [map sentinel MigrationEntry.filename]. rewrite Hcol2.
    reflexivity. }
  assert (Hnosent : forall m, In m scripts ->
                              "PgMigrationClient initialized"
                              <> MigrationItem.filename m).
  { intros m Hin Heq. rewrite Forall_forall in Hwf.
    apply (wellFormed_not_sentinel m 0 (Hwf m Hin)). left. exact Heq. }
  assert (Hndtable : NoDup (map MigrationEntry.filename table)).
  { rewrite Hnames. constructor.
    - intros Hin. apply in_map_iff in Hin. destruct Hin as [m [Heq Hin]].
      apply (Hnosent m); [apply in_or_app; left; exact Hin|].
      symmetry. exact Heq.
    - unfold scripts in Hnd. rewrite map_app in Hnd.
      apply NoDup_app_remove_r in Hnd. exact Hnd. }
  assert (Hfresh : Forall (fun m => ~ In (MigrationItem.filename m)
                                      (map MigrationEntry.filename table))
                     fresh).
  { apply Forall_forall. intros m Hin. rewrite Hnames. intros [Heq | Hin'].
    - apply (Hnosent m); [apply in_or_app; right; exact Hin | exact Heq].
    - unfold scripts in Hnd. rewrite map_app in Hnd.
      apply (NoDup_app_disjoint _ _ _ Hnd Hin'). apply in_map. exact Hin. }
  split; [|split; [|split; [|split; [|split]]]].
  - rewrite startMigration_ready, Hrun.
    assert (Hlen : (List.length scripts =? 0)%nat = false).
    { apply Nat.eqb_neq. destruct scripts; [contradiction | discriminate]. }
    rewrite Hlen.
    assert (Hq : pool_query pool SELECT_EXISTING_MIGRATIONS []
                   (w_pool (add_log (discoveryLog migrationPath
                                       (List.length scripts))
                              (add_log startLog w)))
                 = (Ok {| rows := table |}, w_pool w)).
    { cbn. unfold db_select. rewrite Htable.
      change (fold_right insertEntry [] (sentinel sentinelTime :: history))
        with (orderById table).
      rewrite orderById_ascending; [reflexivity|].
      rewrite Htabids. apply idsFrom_ascending. }
    rewrite (doMigration_spec Db pool _ _ _ _ Hq). cbv zeta. cbn [rows].
    unfold table at 1.
    assert (Hlast : MigrationEntry.id
                      (List.last table (sentinel sentinelTime))
                    = Z.of_nat (List.length applied)).
    { rewrite (last_of_map MigrationEntry.id), Htabids, last_idsFrom. lia. }
    fold table. rewrite Hlast. unfold scripts at 1.
    rewrite migrateScripts_app.
    rewrite (migrateScripts_all_applied Db pool table applied).
    + unfold add_log. cbn [w_pool w_log w_calls].
      rewrite <- !app_assoc. reflexivity.
    + intros m Hin.
      destruct (Forall2_In_left _ _ _ _ Hrec Hin)
        as [entry [Hent [_ [Hname Hhash]]]].
      exists entry. split; [|exact Hhash].
      rewrite <- Hname. apply findEntry_unique; [exact Hndtable|].
      right. exact Hent.
  - eapply Forall_impl; [|exact Hfresh]. intros m Hm. apply findEntry_None.
    exact Hm.
  - unfold scripts in Hnd. rewrite map_app in Hnd.
    apply NoDup_app_remove_l in Hnd. exact Hnd.
  - exact Hfresh.
  - rewrite Hids2. do 2 f_equal. lia.
  - exact Htabids.
Qed.

End ReferenceHistory.

Lemma recordsFor_recordedAs (l : list MigrationItem.t) :
  forall serial0 clock0,
    map MigrationItem.id l = map Num (idsFrom serial0 (List.length l)) ->
    Forall2 recordedAs l (recordsFor serial0 clock0 l).
Proof.
  induction l as [| m l IH]; intros serial0 clock0 Hids; cbn [recordsFor].
  - constructor.
  - cbn [map List.length idsFrom] in Hids. inversion Hids as [[Hid Htl]].
    constructor.
    + split; [exact Hid|]. split; reflexivity.
    + apply IH. exact Htl.
Qed.

Lemma recordsFor_app (l1 l2 : list MigrationItem.t) :
  forall serial0 clock0,
    recordsFor serial0 clock0 (l1 ++ l2) =
    (recordsFor serial0 clock0 l1
     ++ recordsFor (serial0 + Z.of_nat (List.length l1))
          (clock0 + Z.of_nat (List.length l1)) l2)%list.
Proof.
  induction l1 as [| m l1 IH]; intros serial0 clock0.
  - cbn [recordsFor app List.length]. rewrite !Z.add_0_r. reflexivity.
  - cbn [recordsFor app List.length]. rewrite IH. do 3 f_equal; lia.
Qed.

Ltac last_log :=
  unfold lastLog, add_log; cbn [w_log]; rewrite ?map_app; cbn [map];
  rewrite last_last; reflexivity.

(** X14.  A later run against the reference database.  The history holds
    the sentinel and the rows of the first scripts, with their ids and
    fingerprints; the scripts are numbered 1..N and the database accepts
    the ones not yet recorded.  The run reads the history, passes over the
    recorded scripts without a call, and applies the others in ascending
    order of id, each followed by the INSERT of its row.  When the sequence
    of ids stands right after the recorded ones, the history it leaves is
    again one of this kind, for all N scripts. *)
Theorem later_run_applies_only_new_scripts :
  forall (sql_ok : list string -> string -> bool)
    (md5hex : string -> string) (fs : Fs) (migrationPath : string)
    (w : World Db) (applied fresh : list MigrationItem.t) (sentinelTime : Z)
    (history : list MigrationEntry.t),
    let db := w_pool w in
    let scripts := (applied ++ fresh)%list in
    fst (getMigrationsScripts md5hex fs migrationPath w) = Ok scripts ->
    scripts <> [] ->
    map MigrationItem.id scripts = map Num (idsFrom 1 (List.length scripts)) ->
    migrations db = Some (sentinel sentinelTime :: history) ->
    Forall2 recordedAs applied history ->
    Z.of_nat (List.length applied) < serial db ->
    transaction db = NoTransaction ->
    Forall (fun m => transactionControl (MigrationItem.data m) = false)
      fresh ->
    scriptsSucceed sql_ok (committed db) (map MigrationItem.data fresh)
    = true ->
    let w' := snd (startMigration (referencePool sql_ok) md5hex fs
                     migrationPath true w) in
    let history' :=
      (history ++ recordsFor (serial db) (clock db) fresh)%list in
    w_calls w' =
    (w_calls w ++ PoolQuery SELECT_EXISTING_MIGRATIONS []
     :: List.concat (map appliedTrace fresh))%list /\
    committed (w_pool w')
    = (committed db ++ map MigrationItem.data fresh)%list /\
    migrations (w_pool w') = Some (sentinel sentinelTime :: history') /\
    lastLog w' = Some (LogInfo "Database migration complete successfully") /\
    (serial db = Z.of_nat (List.length applied) + 1 ->
     Forall2 recordedAs scripts history' /\
     serial (w_pool w') = Z.of_nat (List.length scripts) + 1 /\
     transaction (w_pool w') = NoTransaction).
Proof.
  intros sql_ok md5hex fs path w applied fresh sentinelTime history db scripts
    Hget Hne Hids Htable Hrec Hserial Htx Hctl Hok w' history'.
  destruct (reference_run_skips_applied sql_ok md5hex fs path w applied fresh
              sentinelTime history Hget Hne Hids Htable Hrec)
    as [Hrun [Hnew [Hnd [Hnames [Hfreshids Htabids]]]]].
  subst w'. rewrite Hrun.
  match goal with
  | |- context [migrateScripts _ _ fresh _ _ ?x] => set (w0 := x)
  end.
  destruct (reference_migrate_new sql_ok (sentinel sentinelTime :: history)
              fresh (Z.of_nat (List.length applied)) [] w0
              (sentinel sentinelTime :: history))
    as [w1 [Hloop [Hdb1 Hcalls1]]].
  - exact Hnew.
  - exact Hfreshids.
  - exact Htable.
  - exact Htx.
  - apply Forall_forall. intros e He.
    apply (in_map MigrationEntry.id) in He. rewrite Htabids in He.
    apply idsFrom_bounds in He. subst w0. cbn [w_pool]. fold db. lia.
  - exact Hnd.
  - exact Hnames.
  - exact Hctl.
  - exact Hok.
  - rewrite Hloop. cbn [finishLoop app].
    assert (Hdb' : forall l (x : World Db), w_pool (add_log l x) = w_pool x)
      by reflexivity.
    assert (Hcalls' : forall l (x : World Db),
               w_calls (add_log l x) = w_calls x) by reflexivity.
    assert (Hend : exists w2,
               (if (List.length fresh =? 0)%nat
                then (Ok tt,
                      add_log [LogInfo "All migration scripts already applied"]
                        w1)
                else (@Ok unit tt, w1)) = (Ok tt, w2) /\
               w_pool w2 = w_pool w1 /\ w_calls w2 = w_calls w1).
    { destruct (List.length fresh =? 0)%nat; eexists;
        (split; [reflexivity|]); split; reflexivity. }
    destruct Hend as [w2 [Hend [Hp2 Hc2]]]. rewrite Hend.
    cbn [reportRun snd]. rewrite Hdb', Hcalls', Hp2, Hc2, Hdb1, Hcalls1.
    subst w0. cbn [w_pool w_calls migrations committed serial transaction].
    fold db. split; [|split; [|split; [|split]]].
    + rewrite <- app_assoc. reflexivity.
    + reflexivity.
    + reflexivity.
    + apply (lastLog_add_log []).
    + intros Hnext. split; [|split].
      * unfold scripts, history'. apply Forall2_app; [exact Hrec|].
        apply recordsFor_recordedAs. rewrite Hfreshids, Hnext. reflexivity.
      * unfold scripts. rewrite length_app. lia.
      * reflexivity.
Qed.

Lemma later_run_applies_only_new_scripts_witness :
  let w' := snd (startMigration (referencePool acceptAll) toyDigest twoScripts
                   "sql" true (worldOf oneAppliedDb)) in
  w_calls w' =
  [PoolQuery SELECT_EXISTING_MIGRATIONS [];
   PoolQuery (MigrationItem.data addCol2) []; insertCall addCol2] /\
  w_pool w' = appliedDb.
Proof.
  destruct (later_run_applies_only_new_scripts acceptAll toyDigest twoScripts
              "sql" (worldOf oneAppliedDb) [init1] [addCol2] 0
              [recordOf 1 100 init1])
    as (Hcalls & _ & _ & _ & _).
  - reflexivity.
  - discriminate.
  - reflexivity.
  - reflexivity.
  - repeat constructor.
  - reflexivity.
  - reflexivity.
  - repeat constructor.
  - reflexivity.
  - split; [exact Hcalls | reflexivity].
Defined.

(** X15.  A script for which the gateway does not return its success
    variant stops the run, and what was done before it stays.  The scripts
    before it having been processed without error and the script carrying
    the id that is due (an integer below 2^53), the run makes the calls
    of the gateway for that script and none after them: no INSERT for the
    script, no call for a later script, nothing that undoes an earlier one.
    The pool is left as the gateway left it, and the run reports the error
    of the gateway as the cause. *)
Theorem refused_script_stops_run_and_keeps_progress :
  forall (W : Type) (pool : Pool W) (md5hex : string -> string) (fs : Fs)
    (migrationPath : string) (w w1 : World W)
    (done : list MigrationItem.t) (refused : MigrationItem.t)
    (later : list MigrationItem.t) (q : QueryResult) (p0 : W)
    (history : list MigrationEntry.t) (lastEntry : MigrationEntry.t)
    (lastId1 : JsNumber) (missed1 : list MigrationItem.t),
    let scripts := (done ++ refused :: later)%list in
    let w0 :=
      mkWorld p0
        (w_log w ++ startLog
         ++ discoveryLog migrationPath (List.length scripts))
        (w_calls w ++ [PoolQuery SELECT_EXISTING_MIGRATIONS []]) in
    fst (getMigrationsScripts md5hex fs migrationPath w) = Ok scripts ->
    pool_query pool SELECT_EXISTING_MIGRATIONS [] (w_pool w) = (Ok q, p0) ->
    rows q = (history ++ [lastEntry])%list ->
    migrateScripts pool (rows q) done (Num (MigrationEntry.id lastEntry)) []
      w0
    = (Ok (lastId1, missed1), w1) ->
    findEntry (rows q) (MigrationItem.filename refused) = None ->
    isSafeInteger (MigrationItem.id refused) = true ->
    js_sub (MigrationItem.id refused) lastId1 = Num 1 ->
    let gateway := scriptGatewayCall pool refused w1 in
    succeeded (fst gateway) = false ->
    let after := startMigration pool md5hex fs migrationPath true w in
    let cause :=
      match fst gateway with
      | Ok migrationResult =>
          Error (match error migrationResult with
                 | Some msg => msg
                 | None => ""
                 end)
      | Throw e => e
      end in
    fst after = Ok tt /\
    lastLog (snd after) = Some (runFailure cause) /\
    w_pool (snd after) = w_pool (snd gateway) /\
    w_calls (snd after) = w_calls (snd gateway) /\
    exists calls,
      w_calls (snd gateway) = (w_calls w1 ++ calls)%list /\
      (if startsWith "--AUTOCOMMIT" (MigrationItem.data refused)
       then calls = [PoolQuery (MigrationItem.data refused) []]
       else In calls (failedTraces (MigrationItem.data refused))) /\
      ~ In (insertCall refused) calls.
Proof.
  intros W pool md5hex fs path w w1 done refused later q p0 history lastEntry
    lastId1 missed1 scripts w0 Hget Hq Hrows Hbefore Hnew _ Hid gateway Hfail.
  cbv zeta.
  destruct (getMigrationsScripts_ok W md5hex fs path _ w Hget)
    as [found [_ [_ [_ Hrun]]]].
  rewrite startMigration_ready, Hrun.
  assert (Hlen : (List.length scripts =? 0)%nat = false).
  { unfold scripts. rewrite length_app. cbn [List.length].
    apply Nat.eqb_neq. lia. }
  rewrite Hlen.
  rewrite (doMigration_spec W pool _ _ q p0) by exact Hq.
  cbv zeta.
  destruct (rows q) as [| entry rest] eqn:Erows.
  { destruct history; discriminate Hrows. }
  assert (Hlast : List.last (entry :: rest) entry = lastEntry).
  { rewrite Hrows. apply last_last. }
  rewrite Hlast.
  match goal with
  | |- context [migrateScripts pool _ _ _ _ ?x] =>
      replace x with w0
        by (unfold w0, add_log; cbn [w_pool w_log w_calls];
            rewrite <- !app_assoc; reflexivity)
  end.
  unfold scripts. rewrite migrateScripts_app, Hbefore.
  rewrite (migrateScripts_missing W pool _ _ _ _ _ _ Hnew), Hid.
  cbn [js_strict_neq_1 Z.eqb Pos.eqb negb].
  rewrite executeMigrationScript_spec.
  destruct (scriptGatewayCall_calls W pool refused w1) as [calls [Hcalls Hpath]].
  fold gateway in Hcalls, Hpath. rewrite Hfail in Hpath.
  assert (Hnone : ~ In (insertCall refused) calls).
  { destruct (startsWith "--AUTOCOMMIT" (MigrationItem.data refused)).
    - subst calls. intros [Hin | []]. discriminate Hin.
    - eapply insertCall_not_in_failedTraces. exact Hpath. }
  assert (Hshape :
            if startsWith "--AUTOCOMMIT" (MigrationItem.data refused)
            then calls = [PoolQuery (MigrationItem.data refused) []]
            else In calls (failedTraces (MigrationItem.data refused))).
  { destruct (startsWith "--AUTOCOMMIT" (MigrationItem.data refused));
      exact Hpath. }
  fold gateway.
  destruct gateway as [[r | e] w2]; cbn [fst snd succeeded] in *.
  - rewrite Hfail. cbv zeta.
    cbn [finishLoop reportRun fst snd message].
    split; [reflexivity|]. split; [apply (lastLog_add_log [])|].
    split; [reflexivity|]. split; [reflexivity|].
    exists calls. split; [exact Hcalls|]. split; assumption.
  - cbn [finishLoop reportRun fst snd message].
    split; [reflexivity|]. split; [apply (lastLog_add_log [])|].
    split; [reflexivity|]. split; [reflexivity|].
    exists calls. split; [exact Hcalls|]. split; assumption.
Qed.

(** Three scripts of which the first is recorded, on a database that
    refuses the third: the second is applied and recorded, the third is
    rolled back, and the run reports its refusal. *)
Lemma refused_script_stops_run_and_keeps_progress_witness :
  let after := startMigration (referencePool rejectIndex) toyDigest
                 threeScripts "sql" true (worldOf oneAppliedDb) in
  w_calls (snd after)
  = [PoolQuery SELECT_EXISTING_MIGRATIONS [];
     PoolQuery (MigrationItem.data addCol2) []; insertCall addCol2;
     PoolConnect; ClientQuery "START TRANSACTION";
     ClientQuery (MigrationItem.data index3); ClientQuery "ROLLBACK";
     ClientRelease] /\
  lastLog (snd after) =
  Some (LogError ("Unable to complete database migration, cause: "
                  ++ "statement failed: CREATE INDEX t_c ON t (c);")).
Proof.
  pose (w0 := mkWorld oneAppliedDb (startLog ++ discoveryLog "sql" 3)
                [PoolQuery SELECT_EXISTING_MIGRATIONS []]).
  pose (loop := migrateScripts (referencePool rejectIndex)
                  [sentinel 0; recordOf 1 100 init1] [init1; addCol2]
                  (Num 1) [] w0).
  destruct (refused_script_stops_run_and_keeps_progress Db
              (referencePool rejectIndex) toyDigest threeScripts "sql"
              (worldOf oneAppliedDb) (snd loop) [init1; addCol2] index3 []
              {| rows := [sentinel 0; recordOf 1 100 init1] |} oneAppliedDb
              [sentinel 0] (recordOf 1 100 init1) (Num 2) [addCol2])
    as (_ & Hlog & _ & Hcalls & _).
  - reflexivity.
  - reflexivity.
  - reflexivity.
  - reflexivity.
  - reflexivity.
  - reflexivity.
  - reflexivity.
  - reflexivity.
  - cbv zeta in Hlog, Hcalls. split.
    + rewrite Hcalls. reflexivity.
    + rewrite Hlog. reflexivity.
Defined.

(** X27.  Two runs in a row against the reference database.  Under the
    conditions of a later run, with the sequence of ids standing right
    after the recorded ones, a second run right after the first finds
    every script recorded: it reads the history and changes nothing, so
    the database after two runs is the database after one. *)
Theorem second_run_changes_nothing :
  forall (sql_ok : list string -> string -> bool)
    (md5hex : string -> string) (fs : Fs) (migrationPath : string)
    (w : World Db) (applied fresh : list MigrationItem.t) (sentinelTime : Z)
    (history : list MigrationEntry.t),
    let db := w_pool w in
    let scripts := (applied ++ fresh)%list in
    fst (getMigrationsScripts md5hex fs migrationPath w) = Ok scripts ->
    scripts <> [] ->
    map MigrationItem.id scripts = map Num (idsFrom 1 (List.length scripts)) ->
    migrations db = Some (sentinel sentinelTime :: history) ->
    Forall2 recordedAs applied history ->
    serial db = Z.of_nat (List.length applied) + 1 ->
    transaction db = NoTransaction ->
    Forall (fun m => transactionControl (MigrationItem.data m) = false)
      fresh ->
    scriptsSucceed sql_ok (committed db) (map MigrationItem.data fresh)
    = true ->
    let once := snd (startMigration (referencePool sql_ok) md5hex fs
                       migrationPath true w) in
    let twice := snd (startMigration (referencePool sql_ok) md5hex fs
                        migrationPath true once) in
    w_pool twice = w_pool once /\
    w_calls twice
    = (w_calls once ++ [PoolQuery SELECT_EXISTING_MIGRATIONS []])%list /\
    lastLog twice = Some (LogInfo "Database migration complete successfully").
Proof.
  intros sql_ok md5hex fs path w applied fresh sentinelTime history db scripts
    Hget Hne Hids Htable Hrec Hserial Htx Hctl Hok once twice.
  (* the first run *)
  destruct (reference_run_skips_applied sql_ok md5hex fs path w applied fresh
              sentinelTime history Hget Hne Hids Htable Hrec)
    as [Hrun [Hnew [Hnd [Hnames [Hfreshids Htabids]]]]].
  assert (Hfirst : migrations (w_pool once)
                   = Some (sentinel sentinelTime
                           :: history ++ recordsFor (serial db) (clock db) fresh)%list).
  { subst once. rewrite Hrun.
    match goal with
    | |- context [migrateScripts _ _ fresh _ _ ?x] => set (w0 := x)
    end.
    destruct (reference_migrate_new sql_ok (sentinel sentinelTime :: history)
                fresh (Z.of_nat (List.length applied)) [] w0
                (sentinel sentinelTime :: history))
      as [w1 [Hloop [Hdb1 _]]]; try assumption.
    - apply Forall_forall. intros e He.
      apply (in_map MigrationEntry.id) in He. rewrite Htabids in He.
      apply idsFrom_bounds in He. subst w0. cbn [w_pool]. fold db. lia.
    - rewrite Hloop. cbn [finishLoop app].
      destruct (List.length fresh =? 0)%nat; cbn [reportRun snd];
        unfold add_log; cbn [w_pool]; rewrite Hdb1; reflexivity. }
  (* the second run *)
  assert (Hget2 : fst (getMigrationsScripts md5hex fs path once)
                  = Ok (scripts ++ [])%list).
  { rewrite app_nil_r.
    rewrite (log_only_fst Db _ w once
               (log_only_getMigrationsScripts Db md5hex fs path)).
    exact Hget. }
  assert (Hrec2 : Forall2 recordedAs scripts
                    (history ++ recordsFor (serial db) (clock db) fresh)%list).
  { unfold scripts. apply Forall2_app; [exact Hrec|].
    apply recordsFor_recordedAs. rewrite Hfreshids, Hserial. reflexivity. }
  destruct (reference_run_skips_applied sql_ok md5hex fs path once scripts []
              sentinelTime
              (history ++ recordsFor (serial db) (clock db) fresh)%list)
    as [Hrun2 _].
  - exact Hget2.
  - rewrite app_nil_r. exact Hne.
  - rewrite app_nil_r. exact Hids.
  - exact Hfirst.
  - exact Hrec2.
  - subst twice. rewrite Hrun2.
    cbn [migrateScripts ret finishLoop List.length Nat.eqb reportRun snd].
    unfold add_log. cbn [w_pool w_calls].
    split; [reflexivity|]. split; [reflexivity|]. last_log.
Qed.

Lemma second_run_changes_nothing_witness :
  let once := snd (startMigration (referencePool acceptAll) toyDigest
                     twoScripts "sql" true (worldOf oneAppliedDb)) in
  let twice := snd (startMigration (referencePool acceptAll) toyDigest
                      twoScripts "sql" true once) in
  w_pool once = appliedDb /\ w_pool twice = appliedDb.
Proof.
  destruct (second_run_changes_nothing acceptAll toyDigest twoScripts "sql"
              (worldOf oneAppliedDb) [init1] [addCol2] 0
              [recordOf 1 100 init1])
    as (Hpool & _ & _).
  - reflexivity.
  - discriminate.
  - reflexivity.
  - reflexivity.
  - repeat constructor.
  - reflexivity.
  - reflexivity.
  - repeat constructor.
  - reflexivity.
  - split; [reflexivity|]. rewrite Hpool. reflexivity.
Defined.

(* ================================================================== *)
(** ** Facts about [init] *)

Section InitFacts.

Variable W : Type.
Variable pool : Pool W.
Variable queryExists : string -> list string -> W -> Res ExistQueryResult * W.

(** [init], path by path. *)
Lemma init_equation (w : World W) :
  init pool queryExists w =
  match queryExists MIGRATIONS_TABLE_EXISTS [] (w_pool w) with
  | (Throw e, p1) =>
      (Ok false,
       mkWorld p1
         (w_log w ++ initLog [initFailure (Error (message e))])
         (w_calls w ++ [existsCall]))
  | (Ok queryResult, p1) =>
      match existRows queryResult with
      | [] =>
          (Ok false,
           mkWorld p1
             (w_log w
              ++ initLog [initFailure
                            (TypeError "Cannot read properties of undefined (reading 'exists')")])
             (w_calls w ++ [existsCall]))
      | row :: _ =>
          if tableExists row then
            (Ok true,
             mkWorld p1
               (w_log w ++ initLog [LogInfo "Check migrations table";
                                    LogInfo "Migrations table already exist"])
               (w_calls w ++ [existsCall]))
          else
            match pool_query pool CREATE_MIGRATIONS_TABLE [] p1 with
            | (Throw e, p2) =>
                (Ok false,
                 mkWorld p2
                   (w_log w ++ initLog [LogInfo "Check migrations table";
                                        LogInfo "Unable to find migrations table";
                                        initFailure (Error (message e))])
                   (w_calls w ++ [existsCall; createCall]))
            | (Ok _, p2) =>
                (Ok true,
                 mkWorld
                   (snd (pool_query pool INSERT_MIGRATION_INIT_QUERY
                           ["PgMigrationClient initialized"] p2))
                   (w_log w ++ initLog [LogInfo "Check migrations table";
                                        LogInfo "Unable to find migrations table";
                                        LogInfo "Migrations table successfully created";
                                        LogInfo "PgMigrationClient successfully initialized"])
                   (w_calls w ++ [existsCall; createCall; sentinelCall]))
            end
      end
  end.
Proof.
  unfold init, doExecuteQueryExists, executeExists, poolQueryExists,
    firstRowExists, doExecuteQuery, initLog, initFailure, existsCall,
    createCall, sentinelCall.
  unfold try_catch at 1. unfold bind at 1.
  unfold logger_info at 1, log_append at 1.
  unfold bind at 1. unfold bind at 1. unfold try_catch at 1. unfold bind at 1.
  cbn [w_pool w_log w_calls].
  destruct (queryExists MIGRATIONS_TABLE_EXISTS [] (w_pool w))
    as [[queryResult | e] p1].
  2:{ unfold_monad. cbn [w_pool w_log w_calls existIsSuccess existError message].
      rewrite <- !app_assoc. reflexivity. }
  unfold ret at 1. cbn [existIsSuccess existResult]. unfold ret at 1.
  unfold bind at 1.
  destruct (existRows queryResult) as [| row rest].
  { unfold_monad. cbn [w_pool w_log w_calls message].
    rewrite <- !app_assoc. reflexivity. }
  unfold ret at 1. unfold bind at 1. unfold logger_info at 1, log_append at 1.
  cbn [w_pool w_log w_calls].
  destruct (tableExists row).
  { unfold_monad. cbn [w_pool w_log w_calls]. rewrite <- !app_assoc.
    reflexivity. }
  unfold bind at 1. unfold logger_info at 1, log_append at 1.
  cbn [w_pool w_log w_calls].
  unfold bind at 1. unfold bind at 1. rewrite execute_spec.
  cbn [w_pool w_log w_calls fst snd].
  destruct (pool_query pool CREATE_MIGRATIONS_TABLE [] p1) as [[q | e] p2];
    cbn [fst snd toSuccess toError isSuccess result error].
  - unfold ret at 1. unfold bind at 1. rewrite execute_spec.
    cbn [w_pool w_log w_calls fst snd]. unfold_monad.
    cbn [w_pool w_log w_calls]. rewrite <- !app_assoc. reflexivity.
  - unfold_monad. cbn [w_pool w_log w_calls message].
    rewrite <- !app_assoc. reflexivity.
Qed.

End InitFacts.

(** X16.  [init] never raises.  It asks whether the table exists and leaves
    the engine ready exactly when that query resolves with a first row,
    and either the row says the table is there (nothing else is sent) or
    CREATE TABLE resolves (the INSERT of the sentinel is then sent, and its
    outcome plays no part).  A rejected CREATE TABLE is the last call. *)
Theorem init_outcome :
  forall (W : Type) (pool : Pool W)
    (queryExists : string -> list string -> W -> Res ExistQueryResult * W)
    (w : World W),
    let answer := queryExists MIGRATIONS_TABLE_EXISTS [] (w_pool w) in
    let created :=
      fst (pool_query pool CREATE_MIGRATIONS_TABLE [] (snd answer)) in
    let after := init pool queryExists w in
    match fst answer with
    | Ok {| existRows := row :: _ |} =>
        if tableExists row then
          fst after = Ok true /\
          w_calls (snd after) = (w_calls w ++ [existsCall])%list
        else
          match created with
          | Ok _ =>
              fst after = Ok true /\
              w_calls (snd after)
              = (w_calls w ++ [existsCall; createCall; sentinelCall])%list
          | Throw _ =>
              fst after = Ok false /\
              w_calls (snd after)
              = (w_calls w ++ [existsCall; createCall])%list
          end
    | _ =>
        fst after = Ok false /\
        w_calls (snd after) = (w_calls w ++ [existsCall])%list
    end.
Proof.
  intros W pool queryExists w. cbv zeta. rewrite init_equation.
  destruct (queryExists MIGRATIONS_TABLE_EXISTS [] (w_pool w))
    as [[[rows0] | e] p1]; cbn [fst snd existRows].
  - destruct rows0 as [| row rest]; [split; reflexivity|].
    destruct (tableExists row); [split; reflexivity|].
    destruct (pool_query pool CREATE_MIGRATIONS_TABLE [] p1) as [[q | e] p2];
      split; reflexivity.
  - split; reflexivity.
Qed.

(** [init] on the reference database, by what [pg_tables] lists and what
    becomes of CREATE TABLE. *)
Lemma reference_init (sql_ok : list string -> string -> bool)
  (elsewhere : bool) (w : World Db) :
  let db := w_pool w in
  let after :=
    init (referenceInitPool sql_ok) (db_query_exists sql_ok elsewhere) w in
  if match migrations db with Some _ => true | None => elsewhere end then
    fst after = Ok true /\
    w_pool (snd after) = db /\
    w_calls (snd after) = (w_calls w ++ [existsCall])%list
  else if sql_ok (committed db) CREATE_MIGRATIONS_TABLE then
    fst after = Ok true /\
    w_pool (snd after)
    = mkDb (Some [sentinel (clock db)]) 1 (clock db + 1) (committed db)
        (transaction db) /\
    w_calls (snd after)
    = (w_calls w ++ [existsCall; createCall; sentinelCall])%list
  else
    fst after = Ok false /\
    w_pool (snd after) = db /\
    w_calls (snd after) = (w_calls w ++ [existsCall; createCall])%list.
Proof.
  cbv zeta. rewrite init_equation.
  assert (Hq : db_query_exists sql_ok elsewhere MIGRATIONS_TABLE_EXISTS []
                 (w_pool w)
               = (Ok {| existRows :=
                          [{| tableExists :=
                                match migrations (w_pool w) with
                                | Some _ => true
                                | None => elsewhere
                                end |}] |},
                  w_pool w)) by reflexivity.
  assert (Hc : forall db,
             pool_query (referenceInitPool sql_ok) CREATE_MIGRATIONS_TABLE []
               db
             = db_create_table sql_ok db) by reflexivity.
  assert (Hi : forall db,
             pool_query (referenceInitPool sql_ok) INSERT_MIGRATION_INIT_QUERY
               ["PgMigrationClient initialized"] db
             = db_insert_init "PgMigrationClient initialized" db)
    by reflexivity.
  rewrite Hq. cbn [existRows tableExists].
  destruct (match migrations (w_pool w) with
            | Some _ => true
            | None => elsewhere
            end) eqn:Hlisted; [repeat split|].
  destruct (migrations (w_pool w)) as [table |] eqn:Htable; [discriminate|].
  rewrite Hc. unfold db_create_table. rewrite Htable.
  destruct (sql_ok (committed (w_pool w)) CREATE_MIGRATIONS_TABLE).
  - rewrite Hi. unfold db_insert_init.
    cbn [fst snd w_pool w_calls migrations serial clock committed
         transaction existsb app].
    repeat split.
  - cbn [fst snd w_pool w_calls]. repeat split.
Qed.

(** X17.  [init] on the reference database.  Where [pg_tables] lists the
    table, [init] is ready after the existence check alone and changes
    nothing.  Where it does not and the database accepts CREATE TABLE,
    [init] leaves the table with the sentinel (id 0, no fingerprint) as its
    only row and the sequence of ids at 1.  Where the database refuses
    CREATE TABLE, [init] is not ready and the database is as it was.  Once
    [init] has left the engine ready, a second [init] only checks that the
    table exists: it is ready again and leaves the database of the
    first. *)
Theorem init_creates_the_table_once :
  forall (sql_ok : list string -> string -> bool) (elsewhere : bool)
    (w : World Db),
    let db := w_pool w in
    let pool := referenceInitPool sql_ok in
    let after := init pool (db_query_exists sql_ok elsewhere) w in
    let again := init pool (db_query_exists sql_ok elsewhere) (snd after) in
    (if match migrations db with Some _ => true | None => elsewhere end then
       fst after = Ok true /\
       w_pool (snd after) = db /\
       w_calls (snd after) = (w_calls w ++ [existsCall])%list
     else if sql_ok (committed db) CREATE_MIGRATIONS_TABLE then
       fst after = Ok true /\
       w_pool (snd after)
       = mkDb (Some [sentinel (clock db)]) 1 (clock db + 1) (committed db)
           (transaction db) /\
       w_calls (snd after)
       = (w_calls w ++ [existsCall; createCall; sentinelCall])%list
     else
       fst after = Ok false /\
       w_pool (snd after) = db /\
       w_calls (snd after) = (w_calls w ++ [existsCall; createCall])%list) /\
    (fst after = Ok true ->
     fst again = Ok true /\
     w_pool (snd again) = w_pool (snd after) /\
     w_calls (snd again) = (w_calls (snd after) ++ [existsCall])%list).
Proof.
  intros sql_ok elsewhere w. cbv zeta.
  pose proof (reference_init sql_ok elsewhere w) as Hfirst.
  pose proof (reference_init sql_ok elsewhere
                (snd (init (referenceInitPool sql_ok)
                        (db_query_exists sql_ok elsewhere) w))) as Hsecond.
  cbv zeta in Hfirst, Hsecond.
  destruct (match migrations (w_pool w) with
            | Some _ => true
            | None => elsewhere
            end) eqn:Hlisted.
  - destruct Hfirst as [H1 [H2 H3]].
    rewrite H2, Hlisted in Hsecond. destruct Hsecond as [H4 [H5 H6]].
    split; [repeat split; assumption|]. intros _.
    rewrite H2. repeat split; assumption.
  - destruct (sql_ok (committed (w_pool w)) CREATE_MIGRATIONS_TABLE)
      eqn:Hcreate.
    + destruct Hfirst as [H1 [H2 H3]].
      rewrite H2 in Hsecond. cbn [migrations] in Hsecond.
      destruct Hsecond as [H4 [H5 H6]].
      split; [repeat split; assumption|]. intros _.
      rewrite H2. repeat split; assumption.
    + destruct Hfirst as [H1 [H2 H3]].
      split; [repeat split; assumption|]. rewrite H1. discriminate.
Qed.

(** X17 on the database on which nothing of the engine exists yet: [init]
    creates the table with its sentinel, and a second [init] leaves it as
    it is. *)
Lemma init_creates_the_table_once_witness :
  let pool := referenceInitPool acceptAll in
  let after := init pool (db_query_exists acceptAll false) (worldOf blankDb) in
  let again := init pool (db_query_exists acceptAll false) (snd after) in
  w_pool (snd after) = mkDb (Some [sentinel 100]) 1 101 [] NoTransaction /\
  fst again = Ok true /\
  w_pool (snd again) = mkDb (Some [sentinel 100]) 1 101 [] NoTransaction /\
  w_calls (snd again)
  = [existsCall; createCall; sentinelCall; existsCall].
Proof.
  destruct (init_creates_the_table_once acceptAll false (worldOf blankDb))
    as [[Hready [Hdb Hcalls]] Hagain].
  destruct (Hagain Hready) as [Hready2 [Hdb2 Hcalls2]].
  cbv zeta. rewrite Hdb2, Hcalls2, Hcalls, Hdb.
  split; [reflexivity|]. split; [exact Hready2|]. split; reflexivity.
Defined.

(* ================================================================== *)
(** ** Facts about [init] followed by a run *)

(** Two drivers that answer alike what a run sends are the same to the
    run. *)
Section PoolAgreement.

Variable W : Type.
Variables pool1 pool2 : Pool W.

Hypothesis Hconnect : pool_connect pool1 = pool_connect pool2.
Hypothesis Hclient : client_query pool1 = client_query pool2.
Hypothesis Hrelease : client_release pool1 = client_release pool2.
Hypothesis Hselect :
  pool_query pool1 SELECT_EXISTING_MIGRATIONS []
  = pool_query pool2 SELECT_EXISTING_MIGRATIONS [].
Hypothesis Hinsert :
  forall filename hash,
    pool_query pool1 INSERT_MIGRATION_QUERY [filename; hash]
    = pool_query pool2 INSERT_MIGRATION_QUERY [filename; hash].
Hypothesis Hupdate :
  forall hash filename,
    pool_query pool1 UPDATE_MIGRATION_ROW_HASH [hash; filename]
    = pool_query pool2 UPDATE_MIGRATION_ROW_HASH [hash; filename].
Hypothesis Hbare :
  forall data,
    startsWith "--AUTOCOMMIT" data = true ->
    pool_query pool1 data [] = pool_query pool2 data [].

Lemma execute_agrees (statement : string) (params : list string) :
  pool_query pool1 statement params = pool_query pool2 statement params ->
  execute pool1 statement params = execute pool2 statement params.
Proof. intros H. unfold execute, poolQuery. rewrite H. reflexivity. Qed.

Lemma executeInTransaction_agrees (statement : string) :
  executeInTransaction pool1 statement = executeInTransaction pool2 statement.
Proof.
  unfold executeInTransaction, poolConnect, clientQuery, clientRelease.
  rewrite Hconnect, Hclient, Hrelease. reflexivity.
Qed.

Lemma executeMigrationScript_agrees (m : MigrationItem.t) :
  executeMigrationScript pool1 m = executeMigrationScript pool2 m.
Proof.
  unfold executeMigrationScript, addMigrationEntry.
  rewrite (execute_agrees _ _ (Hinsert _ _)), executeInTransaction_agrees.
  destruct (startsWith "--AUTOCOMMIT" (MigrationItem.data m)) eqn:Hmark;
    [|reflexivity].
  rewrite (execute_agrees _ _ (Hbare _ Hmark)). reflexivity.
Qed.

Lemma updateScriptHash_agrees (m : MigrationItem.t)
  (entryHash : option string) :
  updateScriptHash pool1 m entryHash = updateScriptHash pool2 m entryHash.
Proof.
  unfold updateScriptHash. rewrite (execute_agrees _ _ (Hupdate _ _)).
  reflexivity.
Qed.

Lemma migrateScripts_agrees (entries : list MigrationEntry.t)
  (l : list MigrationItem.t) :
  forall lastId missed,
    migrateScripts pool1 entries l lastId missed
    = migrateScripts pool2 entries l lastId missed.
Proof.
  induction l as [| m l IH]; intros lastId missed; cbn [migrateScripts];
    [reflexivity|].
  destruct (findEntry entries (MigrationItem.filename m)) as [entry |].
  - rewrite updateScriptHash_agrees, IH. reflexivity.
  - rewrite executeMigrationScript_agrees, IH. reflexivity.
Qed.

Lemma doMigration_agrees (l : list MigrationItem.t) (w : World W) :
  doMigration pool1 l w = doMigration pool2 l w.
Proof.
  unfold doMigration, getPersistedMigrations, doExecuteQuery.
  rewrite (execute_agrees _ _ Hselect).
  unfold bind at 1. symmetry. unfold bind at 1. symmetry.
  match goal with
  | |- match ?c with _ => _ end = _ => destruct c as [[entries | e] w1]
  end; [|reflexivity].
  unfold bind at 1. symmetry. unfold bind at 1. symmetry.
  destruct (lastEntryId entries w1) as [[lastId | e] w2]; [|reflexivity].
  unfold bind at 1. symmetry. unfold bind at 1. symmetry.
  rewrite migrateScripts_agrees. reflexivity.
Qed.

Lemma startMigration_agrees (md5hex : string -> string) (fs : Fs)
  (migrationPath : string) (initialized : bool) (w : World W) :
  startMigration pool1 md5hex fs migrationPath initialized w
  = startMigration pool2 md5hex fs migrationPath initialized w.
Proof.
  destruct initialized; [|reflexivity].
  rewrite !startMigration_ready.
  destruct (getMigrationsScripts md5hex fs migrationPath (add_log startLog w))
    as [[scripts | e] w1]; [|reflexivity].
  destruct (List.length scripts =? 0)%nat; [reflexivity|].
  rewrite doMigration_agrees. reflexivity.
Qed.

End PoolAgreement.

Lemma autocommit_is_no_init_statement (data : string) :
  startsWith "--AUTOCOMMIT" data = true ->
  (data =? CREATE_MIGRATIONS_TABLE)%string = false /\
  (data =? MIGRATIONS_TABLE_EXISTS)%string = false.
Proof.
  intros H. split.
  - destruct (data =? CREATE_MIGRATIONS_TABLE)%string eqn:E; [|reflexivity].
    apply String.eqb_eq in E. subst. discriminate.
  - destruct (data =? MIGRATIONS_TABLE_EXISTS)%string eqn:E; [|reflexivity].
    apply String.eqb_eq in E. subst. discriminate.
Qed.

(** A run over the reference database with the statements of [init] is
    the run over the reference database: it sends none of them. *)
Lemma referenceInitPool_run (sql_ok : list string -> string -> bool)
  (md5hex : string -> string) (fs : Fs) (migrationPath : string)
  (initialized : bool) (w : World Db) :
  startMigration (referenceInitPool sql_ok) md5hex fs migrationPath
    initialized w
  = startMigration (referencePool sql_ok) md5hex fs migrationPath
      initialized w.
Proof.
  apply startMigration_agrees; try reflexivity.
  intros data Hmark. cbn [referenceInitPool referencePool pool_query].
  unfold db_init_pool_query.
  destruct (autocommit_is_no_init_statement data Hmark) as [H1 H2].
  rewrite H1, H2. reflexivity.
Qed.

(** X18.  When [init] has failed, the run that follows does nothing: it
    logs that the client should be initialized, and makes no call on the
    pool and reads no directory. *)
Theorem failed_init_blocks_the_run :
  forall (W : Type) (pool : Pool W)
    (queryExists : string -> list string -> W -> Res ExistQueryResult * W)
    (md5hex : string -> string) (fs : Fs) (w : World W),
    fst (init pool queryExists w) = Ok false ->
    test pool queryExists md5hex fs w =
    (Ok tt,
     add_log
       [LogInfo "Start database migration";
        LogError ("Unable to complete database migration, cause: "
                  ++ "PgMigrationClient should be initialized before use")]
       (snd (init pool queryExists w))).
Proof.
  intros W pool queryExists md5hex fs w Hinit. unfold test, bind.
  destruct (init pool queryExists w) as [[initialized | e] w1];
    cbn [fst snd] in *; [|discriminate].
  inversion Hinit; subst initialized. rewrite startMigration_not_ready.
  unfold reportRun, add_log, startLog. cbn [w_pool w_log w_calls message].
  rewrite <- app_assoc. reflexivity.
Qed.

Lemma failed_init_blocks_the_run_witness :
  let after := test lostConnectionPool lostConnectionQueryExists toyDigest
                 testScripts (mkWorld tt [] []) in
  w_calls (snd after) = [existsCall] /\
  lastLog (snd after)
  = Some (LogError ("Unable to complete database migration, cause: "
                    ++ "PgMigrationClient should be initialized before use")).
Proof.
  cbv zeta.
  rewrite (failed_init_blocks_the_run unit lostConnectionPool
             lostConnectionQueryExists toyDigest testScripts
             (mkWorld tt [] []) eq_refl).
  split; reflexivity.
Defined.

(** X19.  [init] does not look at the outcome of the INSERT of the
    sentinel.  When the table is created and that INSERT is rejected,
    [init] still leaves the engine ready; the run that follows reads an
    empty history and, with a script to apply, ends in the TypeError of
    reading the id of its last row.  No script is executed. *)
Theorem refused_sentinel_breaks_the_first_run :
  forall (W : Type) (pool : Pool W)
    (queryExists : string -> list string -> W -> Res ExistQueryResult * W)
    (md5hex : string -> string) (fs : Fs) (w : World W)
    (rest : list TableExist) (q1 : QueryResult) (e : Exn)
    (p1 p2 p3 p4 : W) (sorted : list MigrationItem.t),
    queryExists MIGRATIONS_TABLE_EXISTS [] (w_pool w)
    = (Ok {| existRows := {| tableExists := false |} :: rest |}, p1) ->
    pool_query pool CREATE_MIGRATIONS_TABLE [] p1 = (Ok q1, p2) ->
    pool_query pool INSERT_MIGRATION_INIT_QUERY
      ["PgMigrationClient initialized"] p2 = (Throw e, p3) ->
    pool_query pool SELECT_EXISTING_MIGRATIONS [] p3
    = (Ok {| rows := [] |}, p4) ->
    fst (getMigrationsScripts md5hex fs "test/sql" w) = Ok sorted ->
    sorted <> [] ->
    let after := test pool queryExists md5hex fs w in
    fst (init pool queryExists w) = Ok true /\
    fst after = Ok tt /\
    w_pool (snd after) = p4 /\
    w_calls (snd after) =
    (w_calls w ++ [existsCall; createCall; sentinelCall;
                   PoolQuery SELECT_EXISTING_MIGRATIONS []])%list /\
    lastLog (snd after) =
    Some (LogError ("Unable to complete database migration, cause: "
                    ++ "Cannot read properties of undefined (reading 'id')")).
Proof.
  intros W pool queryExists md5hex fs w rest q1 e p1 p2 p3 p4 sorted
    Hexists Hcreate Hinsert Hselect Hget Hne. cbv zeta.
  unfold test, bind. rewrite init_equation, Hexists.
  cbn [existRows tableExists]. rewrite Hcreate, Hinsert. cbn [fst snd].
  split; [reflexivity|].
  destruct (getMigrationsScripts_ok W md5hex fs "test/sql" sorted w Hget)
    as [scripts [_ [_ [_ Hrun]]]].
  rewrite startMigration_ready, Hrun.
  destruct sorted as [| s sorted']; [contradiction|].
  cbn [List.length Nat.eqb].
  rewrite (doMigration_spec W pool _ _ {| rows := [] |} p4) by exact Hselect.
  cbv zeta. cbn [rows reportRun fst snd message].
  unfold add_log. cbn [w_pool w_log w_calls].
  split; [reflexivity|]. split; [reflexivity|]. split.
  - rewrite <- app_assoc. reflexivity.
  - last_log.
Qed.

Lemma refused_sentinel_breaks_the_first_run_witness :
  let after := test noInsertPool noInsertQueryExists toyDigest testScripts
                 (mkWorld false [] []) in
  fst (init noInsertPool noInsertQueryExists (mkWorld false [] []))
  = Ok true /\
  w_calls (snd after) =
  [existsCall; createCall; sentinelCall;
   PoolQuery SELECT_EXISTING_MIGRATIONS []] /\
  lastLog (snd after) =
  Some (LogError ("Unable to complete database migration, cause: "
                  ++ "Cannot read properties of undefined (reading 'id')")).
Proof.
  destruct (refused_sentinel_breaks_the_first_run bool noInsertPool
              noInsertQueryExists toyDigest testScripts (mkWorld false [] [])
              [] {| rows := [] |}
              (Error "permission denied for table migrations")
              false true true true [init1])
    as (Hinit & _ & _ & Hcalls & Hlog).
  - reflexivity.
  - reflexivity.
  - reflexivity.
  - reflexivity.
  - reflexivity.
  - discriminate.
  - split; [exact Hinit|]. split; [exact Hcalls | exact Hlog].
Defined.

(** X20.  The first start against the reference database, as src/index.ts
    runs it: [pg_tables] lists no table [migrations], the database accepts
    CREATE TABLE, the scripts of [test/sql] are numbered 1..N and the
    database accepts them in that order.  [init] creates the table with its
    sentinel, and the run applies the N scripts in ascending order of id;
    the history is the sentinel followed by the rows of the N scripts, each
    with the id of its script. *)
Theorem first_start_creates_history_and_applies_all_scripts :
  forall (sql_ok : list string -> string -> bool)
    (md5hex : string -> string) (fs : Fs) (w : World Db)
    (scripts : list MigrationItem.t),
    let db := w_pool w in
    migrations db = None ->
    sql_ok (committed db) CREATE_MIGRATIONS_TABLE = true ->
    transaction db = NoTransaction ->
    fst (getMigrationsScripts md5hex fs "test/sql" w) = Ok scripts ->
    scripts <> [] ->
    map MigrationItem.id scripts = map Num (idsFrom 1 (List.length scripts)) ->
    Forall (fun m => transactionControl (MigrationItem.data m) = false)
      scripts ->
    scriptsSucceed sql_ok (committed db) (map MigrationItem.data scripts)
    = true ->
    let w' := snd (test (referenceInitPool sql_ok)
                     (db_query_exists sql_ok false) md5hex fs w) in
    let history := recordsFor 1 (clock db + 1) scripts in
    w_calls w' =
    (w_calls w ++ [existsCall; createCall; sentinelCall;
                   PoolQuery SELECT_EXISTING_MIGRATIONS []]
     ++ List.concat (map appliedTrace scripts))%list /\
    migrations (w_pool w') = Some (sentinel (clock db) :: history) /\
    Forall2 recordedAs scripts history /\
    committed (w_pool w')
    = (committed db ++ map MigrationItem.data scripts)%list /\
    lastLog w' = Some (LogInfo "Database migration complete successfully").
Proof.
  intros sql_ok md5hex fs w scripts db Hnone Hcreate Htx Hget Hne Hids Hctl
    Hok w' history.
  pose proof (reference_init sql_ok false w) as Hinit.
  cbv zeta in Hinit. fold db in Hinit. rewrite Hnone, Hcreate in Hinit.
  destruct Hinit as [Hinit [Hdb1 Hcalls1]].
  subst w'. unfold test, bind.
  destruct (init (referenceInitPool sql_ok) (db_query_exists sql_ok false) w)
    as [[initialized | e] w1]; cbn [fst snd] in *; [|discriminate].
  inversion Hinit; subst initialized. rewrite referenceInitPool_run.
  assert (Hget1 : fst (getMigrationsScripts md5hex fs "test/sql" w1)
                  = Ok ([] ++ scripts)%list).
  { rewrite (log_only_fst Db _ w w1
               (log_only_getMigrationsScripts Db md5hex fs "test/sql")).
    exact Hget. }
  destruct (reference_run_skips_applied sql_ok md5hex fs "test/sql" w1 []
              scripts (clock db) [] Hget1 Hne Hids)
    as [Hrun [Hnew [Hnd [Hnames [Hfreshids _]]]]].
  { rewrite Hdb1. reflexivity. }
  { constructor. }
  cbn [List.length Z.of_nat app] in Hrun. rewrite Hrun.
  match goal with
  | |- context [migrateScripts _ _ scripts _ _ ?x] => set (w0 := x)
  end.
  destruct (reference_migrate_new sql_ok [sentinel (clock db)] scripts 0 []
              w0 [sentinel (clock db)])
    as [w2 [Hloop [Hdb2 Hcalls2]]].
  - exact Hnew.
  - exact Hfreshids.
  - subst w0. cbn [w_pool]. rewrite Hdb1. reflexivity.
  - subst w0. cbn [w_pool]. rewrite Hdb1. exact Htx.
  - subst w0. cbn [w_pool]. rewrite Hdb1. cbn [serial].
    constructor; [cbn; lia | constructor].
  - exact Hnd.
  - exact Hnames.
  - exact Hctl.
  - subst w0. cbn [w_pool]. rewrite Hdb1. exact Hok.
  - rewrite Hloop. cbn [finishLoop app].
    destruct (List.length scripts =? 0)%nat eqn:Hzero.
    { apply Nat.eqb_eq in Hzero. destruct scripts; [contradiction|discriminate]. }
    cbn [reportRun snd]. unfold add_log. cbn [w_pool w_calls].
    rewrite Hdb2, Hcalls2. subst w0. cbn [w_pool w_calls].
    rewrite Hdb1, Hcalls1. cbn [migrations serial clock committed].
    split; [|split; [|split; [|split]]].
    + rewrite <- !app_assoc. reflexivity.
    + reflexivity.
    + apply recordsFor_recordedAs. exact Hids.
    + reflexivity.
    + last_log.
Qed.

(** The first start with the two scripts, listed out of order: the table
    is created, [1_init.sql] is applied before [2_add_col.sql], and the
    history holds the sentinel and their two rows. *)
Lemma first_start_creates_history_and_applies_all_scripts_witness :
  let w' := snd (test (referenceInitPool acceptAll)
                   (db_query_exists acceptAll false) toyDigest
                   twoTestScripts (worldOf blankDb)) in
  w_calls w' =
  ([existsCall; createCall; sentinelCall;
    PoolQuery SELECT_EXISTING_MIGRATIONS []]
   ++ committedTrace (MigrationItem.data init1) ++ [insertCall init1]
   ++ [PoolQuery (MigrationItem.data addCol2) []; insertCall addCol2])%list /\
  migrations (w_pool w')
  = Some [sentinel 100; recordOf 1 101 init1; recordOf 2 102 addCol2] /\
  committed (w_pool w')
  = [MigrationItem.data init1; MigrationItem.data addCol2] /\
  lastLog w' = Some (LogInfo "Database migration complete successfully").
Proof.
  destruct (first_start_creates_history_and_applies_all_scripts acceptAll
              toyDigest twoTestScripts (worldOf blankDb) [init1; addCol2])
    as (Hcalls & Htable & _ & Hdone & Hlog).
  - reflexivity.
  - reflexivity.
  - reflexivity.
  - reflexivity.
  - discriminate.
  - reflexivity.
  - repeat constructor.
  - reflexivity.
  - split; [exact Hcalls|]. split; [exact Htable|].
    split; [exact Hdone | exact Hlog].
Defined.

(* ================================================================== *)
(** ** Runs that find nothing new *)

Section Backfill.

Variable W : Type.
Variable pool : Pool W.

(** The loop over scripts that all have a row in the history, with the
    script's fingerprint or with none: a row without fingerprint costs one
    UPDATE, whose outcome is not looked at, and nothing is logged. *)
Lemma migrateScripts_all_recorded (entries : list MigrationEntry.t)
  (l : list MigrationItem.t) :
  forall (lastId : JsNumber) (missed : list MigrationItem.t) (w : World W),
    (forall m, In m l ->
       exists entry,
         findEntry entries (MigrationItem.filename m) = Some entry /\
         (MigrationEntry.hash entry = None \/
          MigrationEntry.hash entry = Some (MigrationItem.hash m))) ->
    exists w',
      migrateScripts pool entries l lastId missed w = (Ok (lastId, missed), w') /\
      w_log w' = w_log w /\
      w_calls w' =
      (w_calls w ++ map backfillCall (filter (hasLegacyRecord entries) l))%list.
Proof.
  induction l as [| m l IH]; intros lastId missed w Hrec.
  - exists w. cbn [migrateScripts ret filter map]. rewrite app_nil_r.
    repeat split.
  - destruct (Hrec m (or_introl eq_refl)) as [entry [Hfind Hhash]].
    rewrite (migrateScripts_recorded W pool _ _ _ _ _ _ _ Hfind).
    cbn [filter]. unfold hasLegacyRecord at 1. rewrite Hfind.
    destruct Hhash as [Hnone | Hsame]; rewrite ?Hnone, ?Hsame.
    + destruct (IH lastId missed
                  (snd (execute pool UPDATE_MIGRATION_ROW_HASH
                          [MigrationItem.hash m; MigrationItem.filename m] w)))
        as [w' [Hloop [Hlog Hcalls]]].
      { intros x Hx. apply Hrec. right. exact Hx. }
      exists w'. split; [exact Hloop|]. rewrite Hlog, Hcalls, execute_spec.
      cbn [snd w_log w_calls map]. rewrite <- app_assoc.
      split; reflexivity.
    + rewrite String.eqb_refl.
      apply IH. intros x Hx. apply Hrec. right. exact Hx.
Qed.

End Backfill.

(** X21.  A run that finds every discovered script in the history, with
    the script's fingerprint or with none, executes nothing: after the
    SELECT of the history it sends one UPDATE for each script whose row has
    no fingerprint, in ascending order of id, and whatever the outcome of
    these UPDATEs it logs that all scripts are applied and that the
    migration succeeded. *)
Theorem run_without_new_scripts_only_backfills :
  forall (W : Type) (pool : Pool W) (md5hex : string -> string) (fs : Fs)
    (migrationPath : string) (w : World W) (sorted : list MigrationItem.t)
    (q : QueryResult) (p0 : W),
    fst (getMigrationsScripts md5hex fs migrationPath w) = Ok sorted ->
    sorted <> [] ->
    pool_query pool SELECT_EXISTING_MIGRATIONS [] (w_pool w) = (Ok q, p0) ->
    (forall m, In m sorted ->
       exists entry,
         findEntry (rows q) (MigrationItem.filename m) = Some entry /\
         (MigrationEntry.hash entry = None \/
          MigrationEntry.hash entry = Some (MigrationItem.hash m))) ->
    let after := startMigration pool md5hex fs migrationPath true w in
    fst after = Ok tt /\
    w_calls (snd after) =
    (w_calls w ++ PoolQuery SELECT_EXISTING_MIGRATIONS []
     :: map backfillCall (filter (hasLegacyRecord (rows q)) sorted))%list /\
    w_log (snd after) =
    (w_log w ++ startLog
     ++ discoveryLog migrationPath (List.length sorted)
     ++ [LogInfo "All migration scripts already applied";
         LogInfo "Database migration complete successfully"])%list.
Proof.
  intros W pool md5hex fs path w sorted q p0 Hget Hne Hq Hrec. cbv zeta.
  destruct (getMigrationsScripts_ok W md5hex fs path sorted w Hget)
    as [scripts [_ [_ [_ Hrun]]]].
  rewrite startMigration_ready, Hrun.
  assert (Hlen : (List.length sorted =? 0)%nat = false).
  { apply Nat.eqb_neq. destruct sorted; [contradiction | discriminate]. }
  rewrite Hlen.
  rewrite (doMigration_spec W pool _ _ q p0) by exact Hq.
  cbv zeta.
  destruct (rows q) as [| entry0 entries] eqn:Hrows.
  { destruct sorted as [| m sorted']; [contradiction|].
    destruct (Hrec m (or_introl eq_refl)) as [entry [Hfind _]].
    discriminate Hfind. }
  match goal with
  | |- context [migrateScripts pool ?es sorted ?i ?ms ?x] =>
      destruct (migrateScripts_all_recorded W pool es sorted i ms x Hrec)
        as [w' [Hloop [Hlog Hcalls]]]
  end.
  rewrite Hloop. cbn [finishLoop List.length Nat.eqb reportRun fst snd].
  unfold add_log in *. cbn [w_pool w_log w_calls] in *.
  rewrite Hlog, Hcalls. rewrite <- !app_assoc.
  split; [reflexivity|]. split; reflexivity.
Qed.

Lemma run_without_new_scripts_only_backfills_witness :
  let after := startMigration (referencePool acceptAll) toyDigest twoScripts
                 "sql" true (worldOf legacyDb) in
  w_calls (snd after) =
  [PoolQuery SELECT_EXISTING_MIGRATIONS []; backfillCall addCol2] /\
  lastLog (snd after)
  = Some (LogInfo "Database migration complete successfully").
Proof.
  cbv zeta.
  destruct (run_without_new_scripts_only_backfills Db
              (referencePool acceptAll) toyDigest twoScripts "sql"
              (worldOf legacyDb) [init1; addCol2]
              {| rows := [sentinel 0; recordOf 1 100 init1;
                          MigrationEntry.mk 2 "2_add_col.sql" 101 None] |}
              legacyDb)
    as (_ & Hcalls & Hlog).
  - reflexivity.
  - discriminate.
  - reflexivity.
  - intros m [Hm | [Hm | []]]; subst m.
    + exists (recordOf 1 100 init1). split; [reflexivity|]. right. reflexivity.
    + exists (MigrationEntry.mk 2 "2_add_col.sql" 101 None).
      split; [reflexivity|]. left. reflexivity.
  - split; [exact Hcalls|]. unfold lastLog. rewrite Hlog. reflexivity.
Defined.

(* ================================================================== *)
(** ** Facts about the earlier engine *)

Section EarlierDiscovery.

Variable W : Type.
Variable md5hex : string -> string.
Variable fs : Fs.

Lemma earlier_createMigrationItem_equation (dirName filename : string)
  (w : World W) :
  Earlier.createMigrationItem md5hex fs dirName filename w =
  (match readFile fs (path_join dirName filename) with
   | Ok data => Ok (Earlier.mkItem filename data (md5hex (filename ++ data)))
   | Throw e => Throw e
   end, w).
Proof.
  unfold Earlier.createMigrationItem. unfold_monad.
  destruct (readFile fs (path_join dirName filename)); reflexivity.
Qed.

Lemma earlier_collect_found (dirPath : string) (files : list string) :
  forall (result items : list Earlier.MigrationItem) (w : World W),
    fst (Earlier.collectMigrationItems md5hex fs dirPath files result w)
    = Ok items <->
    exists found,
      items = (result ++ found)%list /\
      Forall2 (earlierDiscovers md5hex fs dirPath) files found.
Proof.
  induction files as [| file files IH]; intros result items w.
  - cbn [Earlier.collectMigrationItems ret fst]. split.
    + intros H. inversion H; subst. exists []. rewrite app_nil_r.
      split; [reflexivity | constructor].
    + intros [found [Heq Hall]]. inversion Hall; subst.
      rewrite app_nil_r. reflexivity.
  - cbn [Earlier.collectMigrationItems]. unfold bind.
    rewrite earlier_createMigrationItem_equation.
    destruct (readFile fs (path_join dirPath file)) as [data | e] eqn:Hr.
    + rewrite IH. split.
      * intros [found [Heq Hall]].
        exists (Earlier.mkItem file data (md5hex (file ++ data)) :: found).
        split; [rewrite Heq, <- app_assoc; reflexivity|].
        constructor; [|exact Hall].
        exists data. split; [exact Hr | reflexivity].
      * intros [found [Heq Hall]].
        inversion Hall as [| ? m ? found' [data' [Hr' Hm]] Hall']; subst.
        rewrite Hr in Hr'. inversion Hr'; subst data'.
        exists found'. split; [rewrite <- app_assoc; reflexivity | exact Hall'].
    + cbn [fst]. split; [discriminate|].
      intros [found [_ Hall]].
      inversion Hall as [| ? m ? ? [data' [Hr' _]] _]; subst.
      rewrite Hr in Hr'. discriminate.
Qed.

Lemma earlier_collect_silent (dirPath : string) (files : list string) :
  forall result,
    silent (@Earlier.collectMigrationItems W md5hex fs dirPath files result).
Proof.
  induction files as [| file files IH]; intros result;
    cbn [Earlier.collectMigrationItems].
  - apply silent_ret.
  - apply silent_bind; [|intros; apply IH].
    unfold Earlier.createMigrationItem.
    apply silent_bind; [apply silent_lift | intros; apply silent_ret].
Qed.

Lemma earlier_findMigrationScripts_equation (dirPath : string) (w : World W) :
  Earlier.findMigrationScripts md5hex fs dirPath w =
  match match readDir fs dirPath with
        | Ok files =>
            fst (Earlier.collectMigrationItems md5hex fs dirPath files [] w)
        | Throw e => Throw e
        end with
  | Ok scripts =>
      (Ok scripts, add_log (discoveryLog dirPath (List.length scripts)) w)
  | Throw e => (Throw e, add_log (failedDiscoveryLog dirPath) w)
  end.
Proof.
  unfold Earlier.findMigrationScripts, failedDiscoveryLog, discoveryLog,
    add_log.
  unfold bind at 1. unfold logger_debug at 1. unfold log_append at 1.
  unfold bind at 1. unfold try_catch. unfold bind at 1. unfold lift.
  destruct (readDir fs dirPath) as [files | e].
  - match goal with
    | |- context [Earlier.collectMigrationItems md5hex fs dirPath files []
                    ?x] =>
        rewrite (silent_run W _ w x
                   (earlier_collect_silent dirPath files []))
    end.
    destruct (fst (Earlier.collectMigrationItems md5hex fs dirPath files [] w))
      as [scripts | e].
    + unfold_monad. cbn [w_pool w_log w_calls]. rewrite <- app_assoc.
      reflexivity.
    + unfold_monad. cbn [w_pool w_log w_calls]. rewrite <- app_assoc.
      reflexivity.
  - unfold_monad. cbn [w_pool w_log w_calls]. rewrite <- app_assoc.
    reflexivity.
Qed.

Lemma earlier_findMigrationScripts_anywhere (dirPath : string)
  (w w' : World W) :
  fst (Earlier.findMigrationScripts md5hex fs dirPath w')
  = fst (Earlier.findMigrationScripts md5hex fs dirPath w).
Proof.
  rewrite !earlier_findMigrationScripts_equation.
  destruct (readDir fs dirPath) as [files | e]; [|reflexivity].
  rewrite (silent_run W _ w w' (earlier_collect_silent dirPath files [])).
  cbn [fst].
  destruct (fst (Earlier.collectMigrationItems md5hex fs dirPath files [] w));
    reflexivity.
Qed.

End EarlierDiscovery.

(** X22.  The earlier locator accepts every file name: discovery succeeds
    exactly when the directory can be listed and every entry of it can be
    read, and the items are those of the entries in the order of the
    listing, each with the name, the content and the digest of both. *)
Theorem earlier_discovery_accepts_every_name :
  forall (W : Type) (md5hex : string -> string) (fs : Fs) (dirPath : string)
    (w : World W) (scripts : list Earlier.MigrationItem),
    fst (Earlier.findMigrationScripts md5hex fs dirPath w) = Ok scripts <->
    exists files,
      readDir fs dirPath = Ok files /\
      Forall2 (earlierDiscovers md5hex fs dirPath) files scripts.
Proof.
  intros W md5hex fs dirPath w scripts.
  rewrite earlier_findMigrationScripts_equation.
  destruct (readDir fs dirPath) as [files | e].
  - pose proof (earlier_collect_found W md5hex fs dirPath files [] scripts w)
      as Hfound.
    destruct (fst (Earlier.collectMigrationItems md5hex fs dirPath files [] w))
      as [items | e]; cbn [fst].
    + split.
      * intros H. apply Hfound in H. destruct H as [found [Heq Hall]].
        exists files. split; [reflexivity|]. cbn [app] in Heq. subst found.
        exact Hall.
      * intros [files' [Heq Hall]]. inversion Heq; subst files'.
        apply Hfound. exists scripts. split; [reflexivity | exact Hall].
    + split; [discriminate|].
      intros [files' [Heq Hall]]. inversion Heq; subst files'.
      apply Hfound. exists scripts. split; [reflexivity | exact Hall].
  - cbn [fst]. split; [discriminate|]. intros [files [Heq _]]. discriminate.
Qed.

(** X23.  In the earlier engine the result of [executeInTransaction] is
    not looked at.  For a script without the marker, whenever that call
    returns, with the success variant or with the failure variant of a
    script that was rolled back, the INSERT of the row is sent and the
    script ends normally; the script fails only when
    [executeInTransaction] itself raises (a rejected connect or ROLLBACK),
    and no INSERT is sent then.  For a script that carries the marker the
    outcome of [pool.query] is looked at: accepted, the INSERT follows;
    rejected, the rejection is raised and no INSERT is sent. *)
Theorem earlier_script_is_recorded_even_when_rolled_back :
  forall (W : Type) (pool : Pool W) (m : Earlier.MigrationItem) (w : World W),
    let after := Earlier.executeMigrationScript pool m w in
    if startsWith "--AUTOCOMMIT" (Earlier.data m) then
      match fst (pool_query pool (Earlier.data m) [] (w_pool w)) with
      | Ok _ =>
          fst after = Ok tt /\
          w_calls (snd after) =
          (w_calls w ++ [PoolQuery (Earlier.data m) []; earlierInsertCall m])%list
      | Throw e =>
          fst after = Throw (Error (message e)) /\
          w_calls (snd after) =
          (w_calls w ++ [PoolQuery (Earlier.data m) []])%list
      end
    else
      let gateway := executeInTransaction pool (Earlier.data m) w in
      match fst gateway with
      | Ok _ =>
          fst after = Ok tt /\
          w_calls (snd after) =
          (w_calls (snd gateway) ++ [earlierInsertCall m])%list
      | Throw e =>
          fst after = Throw e /\ w_calls (snd after) = w_calls (snd gateway)
      end.
Proof.
  intros W pool m w. cbv zeta.
  unfold Earlier.executeMigrationScript, earlierInsertCall.
  destruct (startsWith "--AUTOCOMMIT" (Earlier.data m)).
  - unfold doExecuteQuery, execute. unfold_monad.
    cbn [w_pool w_log w_calls].
    destruct (pool_query pool (Earlier.data m) [] (w_pool w)) as [[q | e] p1];
      cbn [fst snd toSuccess toError isSuccess result error w_pool w_log
           w_calls].
    + destruct (pool_query pool INSERT_MIGRATION_QUERY
                  [Earlier.filename m; Earlier.hash m] p1) as [[q2 | e2] p2];
        cbn [fst snd w_calls]; rewrite <- app_assoc; split; reflexivity.
    + split; reflexivity.
  - unfold execute. unfold_monad. cbn [w_pool w_log w_calls].
    destruct (executeInTransaction pool (Earlier.data m) w) as [[r | e] w1];
      cbn [fst snd w_pool w_log w_calls].
    + destruct (pool_query pool INSERT_MIGRATION_QUERY
                  [Earlier.filename m; Earlier.hash m] (w_pool w1))
        as [[q2 | e2] p2];
        cbn [fst snd w_calls]; split; reflexivity.
    + split; reflexivity.
Qed.

Section EarlierRun.

Variable W : Type.
Variable pool : Pool W.
Variable md5hex : string -> string.
Variable fs : Fs.
Variable migrationPath : string.

(** The run of the earlier engine, step by step. *)
Lemma earlier_startMigration_ready (w : World W) :
  Earlier.startMigration pool md5hex fs migrationPath true w =
  match Earlier.findMigrationScripts md5hex fs migrationPath
          (add_log startLog w) with
  | (Throw e, w1) => reportEarlierRun (Throw e, w1)
  | (Ok scripts, w1) =>
      let w2 :=
        if (List.length scripts =? 0)%nat
        then add_log [LogInfo ("Migration scripts not found, path="
                               ++ migrationPath)] w1
        else w1 in
      match Earlier.getPersistedMigrations pool w2 with
      | (Throw e, w3) => reportEarlierRun (Throw e, w3)
      | (Ok entries, w3) =>
          let missed := filter (Earlier.isMissed entries) scripts in
          let w4 :=
            if (List.length missed =? 0)%nat
            then add_log [LogInfo "All migration scripts already applied"] w3
            else w3 in
          reportEarlierRun (Earlier.executeMissed pool missed w4)
      end
  end.
Proof.
  unfold Earlier.startMigration, try_catch.
  unfold bind at 1, logger_info at 1, log_append at 1.
  unfold bind at 1. cbn [checkClientInitialisation negb ret].
  unfold bind at 1, add_log, startLog.
  match goal with
  | |- context [Earlier.findMigrationScripts ?a ?b ?c ?x] =>
      destruct (Earlier.findMigrationScripts a b c x) as [[scripts | e] w1]
  end; [|reflexivity].
  cbv zeta. unfold bind at 1.
  assert (Hstep : (if (List.length scripts =? 0)%nat
                   then logger_info ("Migration scripts not found, path="
                                     ++ migrationPath)
                   else ret tt) w1
                  = (Ok tt,
                     if (List.length scripts =? 0)%nat
                     then {| w_pool := w_pool w1;
                             w_log := w_log w1
                                      ++ [LogInfo ("Migration scripts not found, path="
                                                   ++ migrationPath)];
                             w_calls := w_calls w1 |}
                     else w1)).
  { destruct (List.length scripts =? 0)%nat; reflexivity. }
  rewrite Hstep. unfold bind at 1.
  match goal with
  | |- context [Earlier.getPersistedMigrations pool ?x] =>
      destruct (Earlier.getPersistedMigrations pool x) as [[entries | e] w3]
  end; [|reflexivity].
  unfold bind at 1.
  assert (Hstep2 : (if (List.length (filter (Earlier.isMissed entries) scripts)
                        =? 0)%nat
                    then logger_info "All migration scripts already applied"
                    else ret tt) w3
                   = (Ok tt,
                      if (List.length (filter (Earlier.isMissed entries) scripts)
                          =? 0)%nat
                      then {| w_pool := w_pool w3;
                              w_log := w_log w3
                                       ++ [LogInfo "All migration scripts already applied"];
                              w_calls := w_calls w3 |}
                      else w3)).
  { destruct (List.length (filter (Earlier.isMissed entries) scripts) =? 0)%nat;
      reflexivity. }
  rewrite Hstep2. unfold bind at 1.
  match goal with
  | |- context [Earlier.executeMissed pool ?l ?x] =>
      destruct (Earlier.executeMissed pool l x) as [[[] | e] w5]
  end; reflexivity.
Qed.

Lemma earlier_getPersistedMigrations_equation (w : World W) :
  Earlier.getPersistedMigrations pool w =
  match pool_query pool Earlier.SELECT_EXISTING_MIGRATIONS [] (w_pool w) with
  | (Ok q, p0) =>
      (Ok (rows q),
       mkWorld p0 (w_log w)
         (w_calls w ++ [PoolQuery Earlier.SELECT_EXISTING_MIGRATIONS []]))
  | (Throw e, p0) =>
      (Throw (Error (message e)),
       mkWorld p0 (w_log w)
         (w_calls w ++ [PoolQuery Earlier.SELECT_EXISTING_MIGRATIONS []]))
  end.
Proof.
  unfold Earlier.getPersistedMigrations, doExecuteQuery.
  unfold bind at 1 2. rewrite execute_spec.
  destruct (pool_query pool Earlier.SELECT_EXISTING_MIGRATIONS [] (w_pool w))
    as [[q | e] p0]; reflexivity.
Qed.

End EarlierRun.

(** X24.  The earlier engine's run never raises, and a failed run logs no
    cause.  It ends normally, and its last message is the bare [Unable to
    complete database migration] when the engine is not ready or when the
    discovery, the SELECT of the history or one of the scripts to apply
    raised, whatever the error; it is the success message otherwise.  The
    steps after the one that raised are not taken: the pool is as that step
    has left it. *)
Theorem earlier_run_never_raises_and_names_no_cause :
  forall (W : Type) (pool : Pool W) (md5hex : string -> string) (fs : Fs)
    (migrationPath : string) (initialized : bool) (w : World W),
    let after :=
      Earlier.startMigration pool md5hex fs migrationPath initialized w in
    let found :=
      Earlier.findMigrationScripts md5hex fs migrationPath
        (add_log startLog w) in
    fst after = Ok tt /\
    if initialized then
      match fst found with
      | Throw _ =>
          lastLog (snd after) = Some earlierRunFailure /\
          w_pool (snd after) = w_pool w /\
          w_calls (snd after) = w_calls w
      | Ok scripts =>
          let read :=
            Earlier.getPersistedMigrations pool
              (if (List.length scripts =? 0)%nat
               then add_log [LogInfo ("Migration scripts not found, path="
                                      ++ migrationPath)] (snd found)
               else snd found) in
          match fst read with
          | Throw _ =>
              lastLog (snd after) = Some earlierRunFailure /\
              w_pool (snd after) = w_pool (snd read) /\
              w_calls (snd after)
              = (w_calls w
                 ++ [PoolQuery Earlier.SELECT_EXISTING_MIGRATIONS []])%list
          | Ok entries =>
              let missed := filter (Earlier.isMissed entries) scripts in
              let executed :=
                Earlier.executeMissed pool missed
                  (if (List.length missed =? 0)%nat
                   then add_log
                          [LogInfo "All migration scripts already applied"]
                          (snd read)
                   else snd read) in
              lastLog (snd after)
              = Some (match fst executed with
                      | Ok _ => runSuccess
                      | Throw _ => earlierRunFailure
                      end) /\
              w_pool (snd after) = w_pool (snd executed) /\
              w_calls (snd after) = w_calls (snd executed)
          end
      end
    else
      lastLog (snd after) = Some earlierRunFailure /\
      w_pool (snd after) = w_pool w /\
      w_calls (snd after) = w_calls w.
Proof.
  intros W pool md5hex fs path initialized w. cbv zeta.
  destruct initialized.
  - rewrite earlier_startMigration_ready.
    pose proof (earlier_findMigrationScripts_equation W md5hex fs path
                  (add_log startLog w)) as Hfind.
    destruct (Earlier.findMigrationScripts md5hex fs path (add_log startLog w))
      as [[scripts | e] w1]; cbn [fst snd].
    + assert (Hw1 : w_pool w1 = w_pool w /\ w_calls w1 = w_calls w).
      { match type of Hfind with
        | _ = match ?r with _ => _ end => destruct r
        end; inversion Hfind; split; reflexivity. }
      destruct Hw1 as [Hpool1 Hcalls1].
      cbv zeta.
      match goal with
      | |- context [Earlier.getPersistedMigrations pool ?x] =>
          set (w2 := x);
          assert (Hx : w_calls w2 = w_calls w)
            by (subst w2; destruct (List.length scripts =? 0)%nat;
                exact Hcalls1);
          clearbody w2;
          pose proof (earlier_getPersistedMigrations_equation W pool w2)
            as Hread;
          destruct (Earlier.getPersistedMigrations pool w2)
            as [[entries | e] w3]
      end; cbn [fst snd].
      * match goal with
        | |- context [reportEarlierRun ?r] => destruct r as [[u | e] w5]
        end; cbn [reportEarlierRun fst snd];
          (split; [reflexivity|]); (split; [apply (lastLog_add_log [])|]);
          split; reflexivity.
      * cbn [reportEarlierRun fst snd]. split; [reflexivity|].
        split; [apply (lastLog_add_log [])|]. split; [reflexivity|].
        unfold add_log. cbn [w_calls].
        match type of Hread with
        | _ = match ?r with _ => _ end => destruct r as [[q0 | e0] p0]
        end; inversion Hread; subst; cbn [w_calls]; rewrite Hx;
          reflexivity.
    + cbn [reportEarlierRun fst snd].
      assert (Hw1 : w_pool w1 = w_pool w /\ w_calls w1 = w_calls w).
      { match type of Hfind with
        | _ = match ?r with _ => _ end => destruct r
        end; inversion Hfind; split; reflexivity. }
      destruct Hw1 as [Hpool1 Hcalls1].
      split; [reflexivity|]. split; [apply (lastLog_add_log [])|].
      split; assumption.
  - change (Earlier.startMigration pool md5hex fs path false w)
      with (@Ok unit tt, add_log [earlierRunFailure] (add_log startLog w)).
    cbn [fst snd]. split; [reflexivity|].
    split; [apply (lastLog_add_log [])|]. split; reflexivity.
Qed.

(** X25.  The earlier engine selects by fingerprint alone.  When the
    fingerprint of every discovered script is that of some row of the
    history, whatever the file names of the rows, the run executes nothing:
    the SELECT of the history is its only call on the pool, and it logs
    that all scripts are applied.  The history is read even when the
    directory is empty. *)
Theorem earlier_run_skips_known_fingerprints :
  forall (W : Type) (pool : Pool W) (md5hex : string -> string) (fs : Fs)
    (migrationPath : string) (w : World W)
    (scripts : list Earlier.MigrationItem) (q : QueryResult) (p0 : W),
    fst (Earlier.findMigrationScripts md5hex fs migrationPath w) = Ok scripts ->
    pool_query pool Earlier.SELECT_EXISTING_MIGRATIONS [] (w_pool w)
    = (Ok q, p0) ->
    (forall m, In m scripts ->
       exists entry,
         In entry (rows q) /\
         MigrationEntry.hash entry = Some (Earlier.hash m)) ->
    let after := Earlier.startMigration pool md5hex fs migrationPath true w in
    fst after = Ok tt /\
    w_pool (snd after) = p0 /\
    w_calls (snd after) =
    (w_calls w ++ [PoolQuery Earlier.SELECT_EXISTING_MIGRATIONS []])%list /\
    exists found,
      w_log (snd after) =
      (w_log w ++ startLog ++ found
       ++ [LogInfo "All migration scripts already applied";
           LogInfo "Database migration complete successfully"])%list.
Proof.
  intros W pool md5hex fs path w scripts q p0 Hfind Hq Hknown. cbv zeta.
  rewrite earlier_startMigration_ready.
  assert (Hfind' : Earlier.findMigrationScripts md5hex fs path
                     (add_log startLog w)
                   = (Ok scripts,
                      add_log (discoveryLog path (List.length scripts))
                        (add_log startLog w))).
  { pose proof (earlier_findMigrationScripts_anywhere W md5hex fs path w
                  (add_log startLog w)) as H.
    rewrite Hfind in H. rewrite earlier_findMigrationScripts_equation in H |- *.
    match type of H with
    | fst (match ?r with _ => _ end) = _ =>
        destruct r as [found | e]; cbn [fst] in H; [|discriminate]
    end.
    inversion H; subst found. reflexivity. }
  rewrite Hfind'. cbv zeta.
  rewrite earlier_getPersistedMigrations_equation.
  assert (Hpool : forall l (x : World W), w_pool (add_log l x) = w_pool x)
    by reflexivity.
  assert (Hw2 : forall b : bool,
             w_pool (if b
                     then add_log [LogInfo ("Migration scripts not found, path="
                                            ++ path)]
                            (add_log (discoveryLog path (List.length scripts))
                               (add_log startLog w))
                     else add_log (discoveryLog path (List.length scripts))
                            (add_log startLog w)) = w_pool w).
  { intros []; reflexivity. }
  rewrite Hw2, Hq.
  assert (Hmissed : filter (Earlier.isMissed (rows q)) scripts = []).
  { clear - Hknown. induction scripts as [| m l IH]; [reflexivity|].
    cbn [filter].
    assert (Hm : Earlier.isMissed (rows q) m = false).
    { destruct (Hknown m (or_introl eq_refl)) as [entry [Hin Hhash]].
      unfold Earlier.isMissed. apply Nat.eqb_neq.
      assert (Hf : In entry (filter (Earlier.sameHash m) (rows q))).
      { apply filter_In. split; [exact Hin|]. unfold Earlier.sameHash.
        rewrite Hhash. apply String.eqb_refl. }
      destruct (filter (Earlier.sameHash m) (rows q)); [contradiction|].
      discriminate. }
    rewrite Hm. apply IH. intros x Hx. apply Hknown. right. exact Hx. }
  rewrite Hmissed.
  cbn [List.length Nat.eqb Earlier.executeMissed ret reportEarlierRun fst snd].
  unfold add_log. cbn [w_pool w_log w_calls].
  split; [reflexivity|]. split; [reflexivity|].
  destruct (List.length scripts =? 0)%nat; cbn [w_pool w_log w_calls].
  - split; [reflexivity|].
    exists (discoveryLog path (List.length scripts)
            ++ [LogInfo ("Migration scripts not found, path=" ++ path)])%list.
    rewrite <- !app_assoc. reflexivity.
  - split; [reflexivity|].
    exists (discoveryLog path (List.length scripts)).
    rewrite <- !app_assoc. reflexivity.
Qed.

Lemma earlier_run_skips_known_fingerprints_witness :
  let fs := directory "sql" [("users.sql", "CREATE TABLE users ();")] in
  let after := Earlier.startMigration historyPool toyDigest fs "sql" true
                 (mkWorld renamedHistory [] []) in
  fst after = Ok tt /\
  w_calls (snd after) = [PoolQuery Earlier.SELECT_EXISTING_MIGRATIONS []].
Proof.
  destruct (earlier_run_skips_known_fingerprints (list MigrationEntry.t)
              historyPool toyDigest
              (directory "sql" [("users.sql", "CREATE TABLE users ();")])
              "sql" (mkWorld renamedHistory [] [])
              [Earlier.mkItem "users.sql" "CREATE TABLE users ();"
                 (toyDigest ("users.sql" ++ "CREATE TABLE users ();"))]
              {| rows := renamedHistory |} renamedHistory)
    as (Hres & _ & Hcalls & _).
  - reflexivity.
  - reflexivity.
  - intros m [Hm | []]. subst m.
    exists (MigrationEntry.mk 1 "accounts.sql" 100
              (Some (toyDigest ("users.sql" ++ "CREATE TABLE users ();")))).
    split; [left; reflexivity | reflexivity].
  - split; [exact Hres | exact Hcalls].
Defined.

(** X26.  [init] of the earlier engine looks at the existence query only.
    It leaves the engine ready exactly when that query resolves with a
    first row; when the row says the table is missing it sends CREATE TABLE
    and the INSERT of the sentinel, one after the other, and is ready
    whatever becomes of them, a rejected CREATE TABLE included. *)
Theorem earlier_init_outcome :
  forall (W : Type) (pool : Pool W)
    (queryExists : string -> list string -> W -> Res ExistQueryResult * W)
    (w : World W),
    let answer := queryExists MIGRATIONS_TABLE_EXISTS [] (w_pool w) in
    let after := Earlier.init pool queryExists w in
    match fst answer with
    | Ok {| existRows := row :: _ |} =>
        fst after = Ok true /\
        w_calls (snd after) =
        (w_calls w ++ existsCall
         :: (if tableExists row then []
             else [PoolQuery Earlier.CREATE_MIGRATIONS_TABLE [];
                   PoolQuery Earlier.INSERT_MIGRATION_INIT_QUERY
                     ["PgMigrationClient initialized"; "0"]]))%list
    | _ =>
        fst after = Ok false /\
        w_calls (snd after) = (w_calls w ++ [existsCall])%list
    end.
Proof.
  intros W pool queryExists w. cbv zeta.
  unfold Earlier.init, doExecuteQueryExists, executeExists, poolQueryExists,
    firstRowExists, execute, existsCall.
  unfold_monad. cbn [w_pool w_log w_calls].
  destruct (queryExists MIGRATIONS_TABLE_EXISTS [] (w_pool w))
    as [[[rows0] | e] p1];
    cbn [fst snd existRows existIsSuccess existResult existError w_pool w_log
         w_calls]; [|split; reflexivity].
  destruct rows0 as [| row rest];
    cbn [fst snd w_pool w_log w_calls]; [split; reflexivity|].
  destruct (tableExists row); cbn [fst snd w_pool w_log w_calls];
    [split; reflexivity|].
  destruct (pool_query pool Earlier.CREATE_MIGRATIONS_TABLE [] p1)
    as [[q1 | e1] p2]; cbn [fst snd w_pool w_log w_calls];
    match goal with
    | |- context [pool_query pool Earlier.INSERT_MIGRATION_INIT_QUERY ?ps ?p] =>
        destruct (pool_query pool Earlier.INSERT_MIGRATION_INIT_QUERY ps p)
          as [[q2 | e2] p3]
    end; cbn [fst snd w_pool w_log w_calls]; rewrite <- !app_assoc;
    split; reflexivity.
Qed.
